(** * DNS checker: query engine and error detector

    A shallow embedding of [DNSQueryEngine] (domain validation, retry and
    provider fallback, the bounded TTL cache) and of [DNSErrorDetector]
    (the five rule evaluators and [analyzeConfiguration]), with the
    properties of the specification stated and proved over it.

    Modelling conventions.
    - A JavaScript string is a [string]; its code units are [ascii]
      characters, the code units 0 to 255 (ASCII and Latin-1).
    - A JavaScript number that the code only compares, adds or multiplies
      is a [Z]; what [parseInt] returns is a [number]: [NaN], a double
      with an integer value, or an infinity.
    - A thrown [Error] is a record of its [name] and [message]; [throw null]
      is [None].
    - [Date.now()] is an explicit argument; the ISO [timestamp] field of a
      query result and the [console.warn] output are left out.
    - An object used as a record with insertion-ordered keys and a [Map]
      are association lists in insertion order; where the code tests
      [o[k]] for a key that the caller supplies, the names that [o]
      inherits from [Object.prototype] are taken into account.
    - A function that awaits the network takes the provider-response
      environment as an argument and returns, besides its result, the
      requests made and the delays slept. *)

From Stdlib Require Import String Ascii List ZArith NArith Bool Lia Arith DecimalString.
Import ListNotations.
Local Open Scope list_scope.
Local Open Scope string_scope.

Set Implicit Arguments.

(* ===================================================================== *)
(** ** JavaScript string primitives *)
(* ===================================================================== *)

Module JS.

Definition chars (s : string) : list ascii := list_ascii_of_string s.
Definition str (l : list ascii) : string := string_of_list_ascii l.

Definition code (c : ascii) : N := N_of_ascii c.

Definition in_range (lo hi c : ascii) : bool :=
  (code lo <=? code c)%N && (code c <=? code hi)%N.

Definition is_lower (c : ascii) : bool := in_range "a" "z" c.
Definition is_upper (c : ascii) : bool := in_range "A" "Z" c.
Definition is_digit (c : ascii) : bool := in_range "0" "9" c.
Definition is_alnum (c : ascii) : bool := is_lower c || is_upper c || is_digit c.
(** [\w] of a regular expression. *)
Definition is_word (c : ascii) : bool := is_alnum c || Ascii.eqb c "_".

(** [String.prototype.includes]. *)
Fixpoint includes (s sub : string) : bool :=
  String.prefix sub s ||
  match s with
  | EmptyString => false
  | String _ t => includes t sub
  end.

(** The upper-case letters above the ASCII range among the modelled code
    units: U+00C0 to U+00DE without the multiplication sign U+00D7. *)
Definition is_upper_latin1 (c : ascii) : bool :=
  let n := code c in
  ((192 <=? n) && (n <=? 222) && negb (n =? 215))%N.

Definition lower_char (c : ascii) : ascii :=
  if is_upper c || is_upper_latin1 c then ascii_of_N (code c + 32) else c.

(** [String.prototype.toLowerCase] on the code units of the model: each
    upper-case letter, ASCII or Latin-1, has its lower-case letter 32 code
    units above it. *)
Fixpoint toLowerCase (s : string) : string :=
  match s with
  | EmptyString => EmptyString
  | String c t => String (lower_char c) (toLowerCase t)
  end.

(** [String.prototype.split] with a one-character separator. *)
Fixpoint split_on (sep : ascii) (s : list ascii) : list (list ascii) :=
  match s with
  | [] => [[]]
  | c :: t =>
      if Ascii.eqb c sep then [] :: split_on sep t
      else match split_on sep t with
           | l :: ls => (c :: l) :: ls
           | [] => [[c]]
           end
  end.

Definition split (sep : ascii) (s : string) : list string :=
  map str (split_on sep (chars s)).

(** White space of [trim] and of [parseInt] among the modelled code units. *)
Definition is_space (c : ascii) : bool :=
  let n := code c in
  ((9 <=? n) && (n <=? 13))%N || (n =? 32)%N || (n =? 160)%N.

Fixpoint drop_space (l : list ascii) : list ascii :=
  match l with
  | c :: t => if is_space c then drop_space t else l
  | [] => []
  end.

(** [String.prototype.trim]. *)
Definition trim (s : string) : string :=
  str (rev (drop_space (rev (drop_space (chars s))))).

(** The one-character string holding a double quote. *)
Definition dquote : string := String (ascii_of_nat 34) EmptyString.

(** Decimal rendering of a number inside a template literal. *)
Definition string_of_nat (n : nat) : string :=
  NilEmpty.string_of_uint (Nat.to_uint n).

Definition string_of_Z (z : Z) : string :=
  match z with
  | Z0 => "0"
  | Zpos p => string_of_nat (Pos.to_nat p)
  | Zneg p => "-" ++ string_of_nat (Pos.to_nat p)
  end.

(** Value of a digit in the given radix, for [parseInt]. *)
Definition digit_val (radix : N) (c : ascii) : option Z :=
  let v :=
    if is_digit c then Some (code c - 48)%N
    else if is_lower c then Some (code c - 87)%N
    else if is_upper c then Some (code c - 55)%N
    else None in
  match v with
  | Some d => if (d <? radix)%N then Some (Z.of_N d) else None
  | None => None
  end.

Fixpoint digits_prefix (radix : N) (l : list ascii) (acc : option Z) : option Z :=
  match l with
  | c :: t =>
      match digit_val radix c with
      | Some d =>
          digits_prefix radix t
            (Some (match acc with Some a => a * Z.of_N radix + d | None => d end)%Z)
      | None => acc
      end
  | [] => acc
  end.

(** *** Numbers *)

(** A number that [parseInt] can return: [NaN], a finite double with an
    integer value (held as that integer; the two zeros are one value for
    every use made of them) or an infinity ([true] for the negative one). *)
Inductive number : Type :=
| NaN : number
| Finite : Z -> number
| Infinite : bool -> number.

Definition two53 : Z := 9007199254740992.

(** The decimal digits of a natural number held in binary. *)
Definition decimal (a : Z) : string :=
  NilZero.string_of_uint (N.to_uint (Z.to_N a)).

(** The Number value for an integer: the nearest double, the one with the
    even significand of two equally near, an infinity from [2^1024 - 2^970]
    on.  Integers below [2^53] in magnitude are doubles. *)
Definition toNumber (z : Z) : number :=
  let a := Z.abs z in
  if (a <? two53)%Z then Finite z
  else
    let e := (Z.log2 a - 52)%Z in
    let q := Z.shiftr a e in
    let r := (a - Z.shiftl q e)%Z in
    let half := Z.shiftl 1 (e - 1) in
    let q' := if (half <? r)%Z || ((r =? half)%Z && Z.odd q) then (q + 1)%Z else q in
    let m := Z.shiftl q' e in
    if (Z.shiftl 1 1024 <=? m)%Z then Infinite (z <? 0)%Z
    else Finite (if (z <? 0)%Z then (- m)%Z else m).

(** SameValueZero, the equality of [Set.prototype.has]. *)
Definition number_eqb (a b : number) : bool :=
  match a, b with
  | NaN, NaN => true
  | Finite x, Finite y => (x =? y)%Z
  | Infinite x, Infinite y => Bool.eqb x y
  | _, _ => false
  end.

(** The digits of [Number::toString] for a positive double [a] with [n]
    decimal digits: the integer with the fewest significant digits that
    converts to [a]; of several, the nearest to [a], and of two equally
    near the one whose last significant digit is even.  [k] is the number
    of significant digits tried. *)
Fixpoint shortest (fuel k n : nat) (a : Z) : Z :=
  match fuel with
  | O => a
  | S fuel' =>
      let p := (10 ^ Z.of_nat (n - k))%Z in
      let lo := (a / p * p)%Z in
      let hi := (lo + p)%Z in
      let okLo := number_eqb (toNumber lo) (Finite a) in
      let okHi := number_eqb (toNumber hi) (Finite a) in
      if okLo && okHi then
        if (a - lo <? hi - a)%Z then lo
        else if (hi - a <? a - lo)%Z then hi
        else if Z.even (a / p) then lo else hi
      else if okLo then lo
      else if okHi then hi
      else shortest fuel' (S k) n a
  end.

Fixpoint drop_zeros (l : list ascii) : list ascii :=
  match l with
  | c :: t => if Ascii.eqb c "0" then drop_zeros t else l
  | [] => []
  end.

(** [String(x)] and [x] inside a template literal: decimal digits up to 21
    of them, exponent notation beyond. *)
Definition string_of_number (x : number) : string :=
  match x with
  | NaN => "NaN"
  | Infinite negative => if negative then "-Infinity" else "Infinity"
  | Finite z =>
      let a := Z.abs z in
      let n := String.length (decimal a) in
      let v := if (a <? two53)%Z then a else shortest n 1 n a in
      let ds := chars (decimal v) in
      let body :=
        if (List.length ds <=? 21)%nat then str ds
        else match rev (drop_zeros (rev ds)) with
             | d :: [] => str [d]
             | d :: rest => str (d :: "."%char :: rest)
             | [] => ""
             end ++ "e+" ++ string_of_nat (List.length ds - 1) in
      if (z <? 0)%Z then "-" ++ body else body
  end.

(** [parseInt(s)] with no radix argument: leading white space, an optional
    sign, an optional [0x]/[0X] prefix, then the longest run of digits,
    whose value is converted to a Number. *)
Definition parseInt (s : string) : number :=
  let l := drop_space (chars s) in
  let '(neg, l) :=
    match l with
    | "-"%char :: t => (true, t)
    | "+"%char :: t => (false, t)
    | _ => (false, l)
    end in
  let '(radix, l) :=
    match l with
    | "0"%char :: "x"%char :: t => (16%N, t)
    | "0"%char :: "X"%char :: t => (16%N, t)
    | _ => (10%N, l)
    end in
  match digits_prefix radix l None with
  | Some v => toNumber (if neg then (- v)%Z else v)
  | None => NaN
  end.

End JS.

(* ===================================================================== *)
(** ** Regular expressions, as far as [domainRegex] needs them *)
(* ===================================================================== *)

Module Regex.

Inductive regex : Type :=
| Void : regex
| Eps : regex
| Class : (ascii -> bool) -> regex
| Cat : regex -> regex -> regex
| Alt : regex -> regex -> regex
| Star : regex -> regex.

(** [(?:r)?] *)
Definition Opt (r : regex) : regex := Alt Eps r.

(** [r{0,n}] *)
Fixpoint upto (n : nat) (r : regex) : regex :=
  match n with
  | O => Eps
  | S k => Opt (Cat r (upto k r))
  end.

(** The language of a regular expression. *)
Inductive matches : regex -> list ascii -> Prop :=
| MEps : matches Eps []
| MClass p c : p c = true -> matches (Class p) [c]
| MCat r1 r2 s1 s2 : matches r1 s1 -> matches r2 s2 -> matches (Cat r1 r2) (s1 ++ s2)
| MAltL r1 r2 s : matches r1 s -> matches (Alt r1 r2) s
| MAltR r1 r2 s : matches r2 s -> matches (Alt r1 r2) s
| MStar0 r : matches (Star r) []
| MStarS r s1 s2 : matches r s1 -> matches (Star r) s2 -> matches (Star r) (s1 ++ s2).

Fixpoint nullable (r : regex) : bool :=
  match r with
  | Void => false
  | Eps => true
  | Class _ => false
  | Cat r1 r2 => nullable r1 && nullable r2
  | Alt r1 r2 => nullable r1 || nullable r2
  | Star _ => true
  end.

Definition cat (r1 r2 : regex) : regex :=
  match r1, r2 with
  | Void, _ => Void
  | _, Void => Void
  | Eps, _ => r2
  | _, _ => Cat r1 r2
  end.

Definition alt (r1 r2 : regex) : regex :=
  match r1, r2 with
  | Void, _ => r2
  | _, Void => r1
  | _, _ => Alt r1 r2
  end.

(** Brzozowski derivative. *)
Fixpoint deriv (c : ascii) (r : regex) : regex :=
  match r with
  | Void => Void
  | Eps => Void
  | Class p => if p c then Eps else Void
  | Cat r1 r2 =>
      if nullable r1 then alt (cat (deriv c r1) r2) (deriv c r2)
      else cat (deriv c r1) r2
  | Alt r1 r2 => alt (deriv c r1) (deriv c r2)
  | Star r1 => cat (deriv c r1) (Star r1)
  end.

Fixpoint matchb (r : regex) (s : list ascii) : bool :=
  match s with
  | [] => nullable r
  | c :: t => matchb (deriv c r) t
  end.

(** [/^r$/.test(s)]: with both anchors and no flags, the test succeeds
    exactly when the whole string is in the language of [r]. *)
Definition test (r : regex) (s : string) : bool := matchb r (JS.chars s).

End Regex.

(* ===================================================================== *)
(** ** The query engine ([DNSQueryEngine]) *)
(* ===================================================================== *)

Module Engine.
Import JS.

(** *** Objects and maps in insertion order *)

(** [o[k]] for a key stored in [o] itself, and [Map.prototype.get]. *)
Fixpoint lookup {A : Type} (k : string) (o : list (string * A)) : option A :=
  match o with
  | [] => None
  | (k', v) :: t => if String.eqb k' k then Some v else lookup k t
  end.

(** [o[k] = v] and [Map.prototype.set]: an existing key keeps its place. *)
Fixpoint assign {A : Type} (k : string) (v : A) (o : list (string * A)) : list (string * A) :=
  match o with
  | [] => [(k, v)]
  | (k', v') :: t => if String.eqb k' k then (k, v) :: t else (k', v') :: assign k v t
  end.

(** The names that every plain object inherits from [Object.prototype];
    each holds a function, [__proto__] an object. *)
Definition inheritedNames : list string :=
  [ "constructor"; "hasOwnProperty"; "isPrototypeOf"; "propertyIsEnumerable";
    "toLocaleString"; "toString"; "valueOf"; "__proto__";
    "__defineGetter__"; "__defineSetter__"; "__lookupGetter__"; "__lookupSetter__" ].

(** The test [o[k]] (is the value truthy) on a plain object whose own
    values are all truthy: it holds for the keys of [o] and for the
    inherited names. *)
Definition isSet {A : Type} (k : string) (o : list (string * A)) : bool :=
  match lookup k o with
  | Some _ => true
  | None => existsb (String.eqb k) inheritedNames
  end.

(** [o[k] = v] on a plain object: [__proto__] is an accessor of
    [Object.prototype], so that assigning to it adds no key. *)
Definition store {A : Type} (k : string) (v : A) (o : list (string * A))
    : list (string * A) :=
  if String.eqb k "__proto__" then o else assign k v o.

(** [Map.prototype.delete]. *)
Fixpoint remove {A : Type} (k : string) (o : list (string * A)) : list (string * A) :=
  match o with
  | [] => []
  | (k', v') :: t => if String.eqb k' k then t else (k', v') :: remove k t
  end.

(** *** Data model *)

Record DNSRecord : Type := {
  name : string;
  type : string;
  ttl : Z;
  data : string
}.

Record QueryResult : Type := {
  domain : string;
  recordType : string;
  records : list DNSRecord;
  source : string;
  error : option string;
  originalError : option string;
  failedProviders : option (list string);
  retryable : option bool;
  authority : option (list DNSRecord);
  additional : option (list DNSRecord)
}.

(** The object returned by [queryAllRecords]: one property per record type
    and, on a cache hit, the extra property [fromCache: true]. *)
Record RecordSet : Type := {
  entries : list (string * QueryResult);
  fromCache : bool
}.

Record CacheEntry : Type := {
  entry_data : RecordSet;
  expiresAt : Z;
  cachedAt : Z
}.

Definition Cache : Type := list (string * CacheEntry).

Record CacheStats : Type := { hits : nat; misses : nat }.

Record State : Type := { cache : Cache; cacheStats : CacheStats }.

Record JsError : Type := { ename : string; message : string }.

Definition mkError (msg : string) : JsError := {| ename := "Error"; message := msg |}.

Inductive result (E A : Type) : Type :=
| Return : A -> result E A
| Throw : E -> result E A.
Arguments Return {E A} _.
Arguments Throw {E A} _.

(** One record of the JSON body of a provider. *)
Record RawRecord : Type := {
  raw_name : string;
  raw_type : Z;
  raw_TTL : Z;
  raw_data : string
}.

Record DoHResponse : Type := {
  Status : Z;
  Answer : option (list RawRecord);
  Authority : option (list RawRecord);
  Additional : option (list RawRecord)
}.

(** What one [fetch] of [performQuery] does: the promise of [fetch] or of
    [response.json()] rejects, or a response with a status arrives. *)
Inductive FetchOutcome : Type :=
| Responded (status : nat) (statusText : string) (body : JsError + DoHResponse)
| Rejected (e : JsError).

(** The provider-response environment: the outcome of the [attempt]-th
    request for a domain and record type at a provider. *)
Definition Network : Type := string -> string -> string -> nat -> FetchOutcome.

Inductive Event : Type :=
| Fetch (provider recordType : string) (attempt : nat)
| Sleep (ms : Z).

(** *** Constructor *)

Definition dohProviders : list (string * string) :=
  [ ("cloudflare", "https://cloudflare-dns.com/dns-query");
    ("google", "https://dns.google/dns-query");
    ("quad9", "https://dns.quad9.net/dns-query") ].

Definition fallbackOrder : list string := ["cloudflare"; "google"; "quad9"].

Definition recordTypes : list (string * Z) :=
  [ ("A", 1); ("NS", 2); ("CNAME", 5); ("SOA", 6); ("PTR", 12);
    ("MX", 15); ("TXT", 16); ("AAAA", 28); ("SRV", 33) ]%Z.

Definition label : Regex.regex :=
  Regex.Cat (Regex.Class is_alnum)
    (Regex.Opt (Regex.Cat
       (Regex.upto 61 (Regex.Class (fun c => is_alnum c || Ascii.eqb c "-")))
       (Regex.Class is_alnum))).

Definition domainRegex : Regex.regex :=
  Regex.Cat (Regex.Star (Regex.Cat label (Regex.Class (fun c => Ascii.eqb c "."))))
            label.

(** The knobs with setters ([setTimeout], [setMaxRetries]) and the retry
    delay. *)
Record Config : Type := {
  timeout : Z;
  maxRetries : nat;
  retryDelay : Z
}.

Definition defaultConfig : Config :=
  {| timeout := 10000; maxRetries := 3; retryDelay := 1000 |}.

Definition maxCacheSize : nat := 50.
Definition defaultCacheTTL : Z := 300000.

(** *** validateDomain *)

(** [domain.replace(/\.$/, '')] *)
Definition stripTrailingDot (s : string) : string :=
  match rev (chars s) with
  | "."%char :: t => str (rev t)
  | _ => s
  end.

Definition validateDomain (domain : string) : bool :=
  if String.eqb domain "" then false
  else
    let cleanDomain := stripTrailingDot domain in
    if ((String.length cleanDomain =? 0) || (253 <? String.length cleanDomain))%nat then false
    else
      let labels := split "." cleanDomain in
      if existsb (fun l => ((String.length l =? 0) || (63 <? String.length l))%nat) labels
      then false
      else Regex.test domainRegex cleanDomain.

(** *** Cache *)

Definition getFromCache (key : string) (now : Z) (c : Cache) : option RecordSet * Cache :=
  match lookup key c with
  | None => (None, c)
  | Some entry =>
      if (expiresAt entry <? now)%Z then (None, remove key c)
      else (Some (entry_data entry), c)
  end.

Definition calculateCacheTTL (d : RecordSet) : Z :=
  let minTTL :=
    fold_left
      (fun minTTL (kv : string * QueryResult) =>
         fold_left
           (fun minTTL (r : DNSRecord) =>
              if (ttl r =? 0)%Z then minTTL else Z.min minTTL (ttl r * 1000))
           (records (snd kv)) minTTL)
      (entries d) defaultCacheTTL in
  Z.max 30000 (Z.min 600000 minTTL).

(** [setCache(key, data, ttl = null)]; [now] and [now'] are the two
    readings of the clock, for [expiresAt] and for [cachedAt]. *)
Definition setCache (key : string) (d : RecordSet) (ttl : option Z) (now now' : Z)
    (c : Cache) : Cache :=
  let cacheTTL :=
    match ttl with
    | Some t => if (t =? 0)%Z then calculateCacheTTL d else t
    | None => calculateCacheTTL d
    end in
  let c1 :=
    if (maxCacheSize <=? List.length c)%nat then
      match c with
      | (firstKey, _) :: _ => remove firstKey c
      | [] => c
      end
    else c in
  assign key {| entry_data := d; expiresAt := (now + cacheTTL)%Z; cachedAt := now' |} c1.

Definition clearCache (s : State) : State :=
  {| cache := []; cacheStats := {| hits := 0; misses := 0 |} |}.

(** *** parseDoHResponse *)

Definition getRecordTypeName (typeNumber : Z) : string :=
  match find (fun kv : string * Z => (snd kv =? typeNumber)%Z) recordTypes with
  | Some kv => fst kv
  | None => "TYPE" ++ string_of_Z typeNumber
  end.

Definition statusMessage (status : Z) : string :=
  match status with
  | 1 => "Format Error"
  | 2 => "Server Failure"
  | 3 => "Name Error (NXDOMAIN)"
  | 4 => "Not Implemented"
  | 5 => "Refused"
  | _ => "DNS Error (Status: " ++ string_of_Z status ++ ")"
  end%Z.

Definition parseDoHResponse (response : DoHResponse) (domain recordType provider : string)
    : QueryResult :=
  let result := {| domain := domain; recordType := recordType; records := [];
                   source := provider; error := None; originalError := None;
                   failedProviders := None; retryable := None;
                   authority := None; additional := None |} in
  if negb (Status response =? 0)%Z then
    {| domain := domain; recordType := recordType; records := [];
       source := provider; error := Some (statusMessage (Status response));
       originalError := None; failedProviders := None; retryable := None;
       authority := None; additional := None |}
  else
    let named (r : RawRecord) :=
      {| name := raw_name r; type := getRecordTypeName (raw_type r);
         ttl := raw_TTL r; data := raw_data r |} in
    {| domain := domain; recordType := recordType;
       records :=
         match Answer response with
         | Some answer =>
             map (fun r => {| name := raw_name r; type := recordType;
                              ttl := raw_TTL r; data := raw_data r |})
               (filter (fun r => match lookup recordType recordTypes with
                                 | Some code => (raw_type r =? code)%Z
                                 | None => false
                                 end) answer)
         | None => records result
         end;
       source := provider; error := None; originalError := None;
       failedProviders := None; retryable := None;
       authority := option_map (map named) (Authority response);
       additional := option_map (map named) (Additional response) |}.

(** *** performQuery *)

Definition responseOk (status : nat) : bool := ((200 <=? status) && (status <=? 299))%nat.

(** The [catch] block of [performQuery]. *)
Definition performQueryCatch (cfg : Config) (provider : string) (e : JsError) : JsError :=
  if String.eqb (ename e) "AbortError" then
    mkError ("DNS query timeout after " ++ string_of_Z (timeout cfg) ++ "ms")
  else if String.eqb (ename e) "TypeError" && includes (message e) "fetch" then
    mkError ("Network error: Unable to reach " ++ provider ++ " DoH API")
  else e.

(** [new URL(this.dohProviders[provider])] succeeds: [provider] is a key
    of [dohProviders], whose values are URLs.  For any other name the
    argument is [undefined], a function or an object, none of which reads
    as a URL. *)
Definition hasEndpoint (provider : string) : bool :=
  match lookup provider dohProviders with
  | Some _ => true
  | None => false
  end.

(** The TypeError of [new URL].  The wording of its message differs from
    engine to engine (here that of Node.js); none contains a phrase that
    the retry test of [queryWithRetry] looks for. *)
Definition invalidURL : JsError :=
  {| ename := "TypeError"; message := "Invalid URL" |}.

(** [new URL] stands before the [try]: without an endpoint nothing is
    fetched and the TypeError leaves [performQuery] as it is. *)
Definition performQuery (cfg : Config) (net : Network)
    (domain recordType provider : string) (attempt : nat) : result JsError QueryResult :=
  if negb (hasEndpoint provider) then Throw invalidURL else
  match net domain recordType provider attempt with
  | Rejected e => Throw (performQueryCatch cfg provider e)
  | Responded status statusText body =>
      if negb (responseOk status) then
        Throw (performQueryCatch cfg provider
                 (mkError ("DoH API request failed: " ++ string_of_nat status
                           ++ " " ++ statusText)))
      else match body with
           | inl e => Throw (performQueryCatch cfg provider e)
           | inr response => Return (parseDoHResponse response domain recordType provider)
           end
  end.

(** *** queryWithRetry *)

(** The test that stops the retries: validation errors or client errors. *)
Definition noRetry (msg : string) : bool :=
  includes msg "Invalid domain" || includes msg "Unsupported" ||
  (includes msg "DoH API request failed" && includes msg "4").

(** The request that one [performQuery] sends: none without an
    endpoint. *)
Definition request (provider recordType : string) (attempt : nat) : list Event :=
  if hasEndpoint provider then [Fetch provider recordType attempt] else [].

(** The [for] loop of [queryWithRetry] from [attempt] on, with [fuel]
    iterations left ([attempt + fuel = maxRetries + 1]); a [null]
    [lastError] is [None].  The events are the requests made and the
    delays slept, in order. *)
Fixpoint retryLoop (cfg : Config) (net : Network) (domain recordType provider : string)
    (fuel attempt : nat) (lastError : option JsError)
    : list Event * result (option JsError) QueryResult :=
  match fuel with
  | O => ([], Throw lastError)
  | S fuel' =>
      match performQuery cfg net domain recordType provider attempt with
      | Return r => (request provider recordType attempt, Return r)
      | Throw e =>
          if noRetry (message e) then (request provider recordType attempt, Throw (Some e))
          else if (attempt =? maxRetries cfg)%nat then
            (request provider recordType attempt, Throw (Some e))
          else
            let delay := (retryDelay cfg * 2 ^ (Z.of_nat attempt - 1))%Z in
            let '(evs, r) := retryLoop cfg net domain recordType provider
                               fuel' (S attempt) (Some e) in
            ((request provider recordType attempt ++ Sleep delay :: evs)%list, r)
      end
  end.

Definition queryWithRetry (cfg : Config) (net : Network)
    (domain recordType provider : string)
    : list Event * result (option JsError) QueryResult :=
  retryLoop cfg net domain recordType provider (maxRetries cfg) 1 None.

(** *** queryDNS *)

(** Reading [error.message] of a caught [null] inside the [catch] block. *)
Definition nullMessageError : JsError :=
  {| ename := "TypeError";
     message := "Cannot read properties of null (reading 'message')" |}.

Definition truthy (s : string) : bool := negb (String.eqb s "").

Fixpoint tryProviders (cfg : Config) (net : Network) (domain recordType : string)
    (providerOrder : list string) (lastError : option JsError)
    : list Event * result JsError QueryResult :=
  match providerOrder with
  | [] =>
      let last :=
        match lastError with
        | Some e => if truthy (message e) then message e else "Unknown error"
        | None => "Unknown error"
        end in
      ([], Throw (mkError ("All DNS providers failed. Last error: " ++ last)))
  | provider :: rest =>
      if negb (isSet provider dohProviders) then
        tryProviders cfg net domain recordType rest lastError
      else
        match queryWithRetry cfg net domain recordType provider with
        | (evs, Return r) => (evs, Return r)
        | (evs, Throw None) => (evs, Throw nullMessageError)
        | (evs, Throw (Some e)) =>
            let '(evs', r) := tryProviders cfg net domain recordType rest (Some e) in
            ((evs ++ evs')%list, r)
        end
  end.

Definition providerOrder (preferredProvider : string) : list string :=
  preferredProvider ::
  filter (fun p => negb (String.eqb p preferredProvider)) fallbackOrder.

Definition queryDNS (cfg : Config) (net : Network)
    (domain recordType preferredProvider : string)
    : list Event * result JsError QueryResult :=
  if negb (validateDomain domain) then
    ([], Throw (mkError ("Invalid domain name: " ++ domain)))
  else if negb (isSet recordType recordTypes) then
    ([], Throw (mkError ("Unsupported DNS record type: " ++ recordType)))
  else tryProviders cfg net domain recordType (providerOrder preferredProvider) None.

(** *** categorizeError, isRetryableError *)

Definition categorizeError (errorMessage : string) : string :=
  if includes errorMessage "timeout" then
    "Request timed out - DNS server may be slow or unreachable"
  else if includes errorMessage "Network error" then
    "Network connection failed - check your internet connection"
  else if includes errorMessage "Name Error" || includes errorMessage "NXDOMAIN" then
    "Domain not found - verify the domain name is correct"
  else if includes errorMessage "Server Failure" then
    "DNS server error - the authoritative server is having issues"
  else if includes errorMessage "Refused" then
    "DNS query refused - the server declined to answer"
  else if includes errorMessage "All DNS providers failed" then
    "All DNS providers unavailable - try again later"
  else errorMessage.

Definition isRetryableError (errorMessage : string) : bool :=
  existsb (fun e => includes errorMessage e)
    ["timeout"; "Network error"; "Server Failure"; "All DNS providers failed"].

(** *** queryAllRecords *)

(** The result object built in the [catch] of one record type's query. *)
Definition failedResult (domain recordType : string) (e : JsError) : QueryResult :=
  {| domain := domain; recordType := recordType; records := [];
     source := "failed";
     error := Some (categorizeError (message e));
     originalError := Some (message e);
     failedProviders := Some fallbackOrder;
     retryable := Some (isRetryableError (message e));
     authority := None; additional := None |}.

(** The slices [recordTypes.slice(i, i + batchSize)] for [i = 0, batchSize, ...]. *)
Definition batchesOf {A : Type} (batchSize : nat) (l : list A) : list (list A) :=
  map (fun k => firstn batchSize (skipn (k * batchSize) l))
      (seq 0 ((List.length l + batchSize - 1) / batchSize)).

(** The running variables of the miss path. *)
Record Gather : Type := {
  results : list (string * QueryResult);
  hasAnySuccess : bool;
  totalFailures : nat
}.

(** One batch: the mapped promises settle, each counting its outcome, then
    [forEach] stores the results.  The outcome of a query depends on the
    network only through its own record type, so the interleaving inside a
    batch is not observable. *)
Definition runBatch (cfg : Config) (net : Network) (domain preferredProvider : string)
    (g : Gather) (batch : list string) : Gather :=
  let batchResponses :=
    map (fun recordType =>
           match snd (queryDNS cfg net domain recordType preferredProvider) with
           | Return r => (recordType, r, true)
           | Throw e => (recordType, failedResult domain recordType e, false)
           end) batch in
  {| results :=
       fold_left (fun o '(recordType, r, _) => assign recordType r o)
                 batchResponses (results g);
     hasAnySuccess :=
       hasAnySuccess g || existsb (fun '(_, _, success) => success) batchResponses;
     totalFailures :=
       totalFailures g
       + List.length (filter (fun '(_, _, success) => negb success) batchResponses) |}.

(** [queryAllRecords(domain, preferredProvider)] in state [s]; [now] is the
    clock read by [getFromCache], [now1] and [now2] the readings of
    [setCache]. *)
Definition queryAllRecords (cfg : Config) (net : Network) (s : State)
    (domain preferredProvider : string) (now now1 now2 : Z)
    : State * result JsError RecordSet :=
  if negb (validateDomain domain) then
    (s, Throw (mkError ("Invalid domain name: " ++ domain)))
  else
    let cacheKey := toLowerCase domain ++ ":ALL" in
    match getFromCache cacheKey now (cache s) with
    | (Some cached, c) =>
        ({| cache := c;
            cacheStats := {| hits := S (hits (cacheStats s));
                             misses := misses (cacheStats s) |} |},
         Return {| entries := entries cached; fromCache := true |})
    | (None, c) =>
        let stats := {| hits := hits (cacheStats s);
                        misses := S (misses (cacheStats s)) |} in
        let recordTypeNames := map fst recordTypes in
        let g := fold_left (runBatch cfg net domain preferredProvider)
                   (batchesOf 3 recordTypeNames)
                   {| results := []; hasAnySuccess := false; totalFailures := 0 |} in
        if negb (hasAnySuccess g) && (totalFailures g =? List.length recordTypeNames)%nat then
          ({| cache := c; cacheStats := stats |},
           Throw (mkError ("Failed to retrieve any DNS records for " ++ domain
                           ++ ". All " ++ string_of_nat (totalFailures g)
                           ++ " record type queries failed.")))
        else
          let rs := {| entries := results g; fromCache := false |} in
          ({| cache := if hasAnySuccess g then setCache cacheKey rs None now1 now2 c
                       else c;
              cacheStats := stats |},
           Return rs)
    end.

(** *** querySpecificRecords *)

(** The result object built in the [catch] of [querySpecificRecords]; it
    carries no [failedProviders]. *)
Definition failedSpecific (domain recordType : string) (e : JsError) : QueryResult :=
  {| domain := domain; recordType := recordType; records := [];
     source := "failed";
     error := Some (categorizeError (message e));
     originalError := Some (message e);
     failedProviders := None;
     retryable := Some (isRetryableError (message e));
     authority := None; additional := None |}.

Definition supported (recordType : string) : bool := isSet recordType recordTypes.

(** [querySpecificRecords(domain, recordTypes, preferredProvider)] for an
    array argument; the queries run concurrently and their results are
    stored in the order of the array. *)
Definition querySpecificRecords (cfg : Config) (net : Network)
    (domain : string) (types : list string) (preferredProvider : string)
    : result JsError RecordSet :=
  if negb (validateDomain domain) then
    Throw (mkError ("Invalid domain name: " ++ domain))
  else if (List.length types =? 0)%nat then
    Throw (mkError "Record types must be a non-empty array")
  else
    match find (fun recordType => negb (supported recordType)) types with
    | Some recordType =>
        Throw (mkError ("Unsupported DNS record type: " ++ recordType))
    | None =>
        let responses :=
          map (fun recordType =>
                 match snd (queryDNS cfg net domain recordType preferredProvider) with
                 | Return r => (recordType, r)
                 | Throw e => (recordType, failedSpecific domain recordType e)
                 end) types in
        Return {| entries :=
                    fold_left (fun o '(recordType, r) => store recordType r o)
                              responses [];
                  fromCache := false |}
    end.

(** *** testProviders, getFastestProvider *)

Record ProviderTest : Type := {
  status : string;
  responseTime : option Z;
  test_error : option string
}.

(** [testProviders()]; [elapsed provider] is the difference of the two
    clock readings around the request to [provider]. *)
Definition testProviders (cfg : Config) (net : Network) (elapsed : string -> Z)
    : list (string * ProviderTest) :=
  fold_left
    (fun results provider =>
       assign provider
         match performQuery cfg net "example.com" "A" provider 1 with
         | Return _ => {| status := "available";
                          responseTime := Some (elapsed provider);
                          test_error := None |}
         | Throw e => {| status := "unavailable";
                         responseTime := None;
                         test_error := Some (message e) |}
         end results)
    fallbackOrder [].

(** [Array.prototype.sort] with a comparator: the sort is stable, so its
    result is that of inserting each element, from the last to the first,
    before the first element that it does not exceed. *)
Fixpoint insertBy {A : Type} (le : A -> A -> bool) (x : A) (l : list A) : list A :=
  match l with
  | [] => [x]
  | y :: t => if le x y then x :: l else y :: insertBy le x t
  end.

Definition sortBy {A : Type} (le : A -> A -> bool) (l : list A) : list A :=
  fold_right (insertBy le) [] l.

Definition timeOf (t : ProviderTest) : Z :=
  match responseTime t with
  | Some ms => ms
  | None => 0
  end.

Definition getFastestProvider (cfg : Config) (net : Network) (elapsed : string -> Z)
    : result JsError string :=
  let providerTests := testProviders cfg net elapsed in
  let availableProviders :=
    sortBy (fun a b : string * ProviderTest => (timeOf (snd a) <=? timeOf (snd b))%Z)
      (filter (fun kv : string * ProviderTest => String.eqb (status (snd kv)) "available")
              providerTests) in
  match availableProviders with
  | [] => Throw (mkError "No DoH providers are currently available")
  | (provider, _) :: _ => Return provider
  end.

(** *** setTimeout, setMaxRetries, getSupportedRecordTypes,
    getAvailableProviders (for integer arguments) *)

Definition setTimeout (cfg : Config) (timeoutMs : Z) : result JsError Config :=
  if (timeoutMs <? 1000)%Z || (30000 <? timeoutMs)%Z then
    Throw (mkError "Timeout must be between 1000ms and 30000ms")
  else Return {| timeout := timeoutMs; maxRetries := maxRetries cfg;
                 retryDelay := retryDelay cfg |}.

Definition setMaxRetries (cfg : Config) (n : Z) : result JsError Config :=
  if (n <? 0)%Z || (10 <? n)%Z then
    Throw (mkError "Max retries must be between 0 and 10")
  else Return {| timeout := timeout cfg; maxRetries := Z.to_nat n;
                 retryDelay := retryDelay cfg |}.

Definition getSupportedRecordTypes : list string := map fst recordTypes.

Definition getAvailableProviders : list string := map fst dohProviders.

(** [recordData.records && recordData.records.length > 0] *)
Definition nonEmptyRecords (recordData : QueryResult) : bool :=
  match records recordData with
  | [] => false
  | _ :: _ => true
  end.

End Engine.

(* ===================================================================== *)
(** ** The error detector ([DNSErrorDetector]) *)
(* ===================================================================== *)

Module Detector.
Import JS.
Import Engine.

Inductive ErrorType : Type :=
| MISSING_RECORD | INVALID_TTL | CIRCULAR_CNAME | INVALID_MX
| MISSING_SECURITY | PROPAGATION_ISSUE | CONFIGURATION_ERROR.

Inductive Severity : Type := CRITICAL | WARNING | INFO.

Definition severity_eqb (a b : Severity) : bool :=
  match a, b with
  | CRITICAL, CRITICAL | WARNING, WARNING | INFO, INFO => true
  | _, _ => false
  end.

(** An issue object.  The constant [description] and [recommendation]
    texts and the rule-specific extras other than [recordName] are not
    carried. *)
Record Issue : Type := {
  type : ErrorType;
  severity : Severity;
  message : string;
  affectedRecords : list string;
  recordName : option string
}.

Definition ttl_VERY_LOW : Z := 60.
Definition ttl_MIN_RECOMMENDED : Z := 300.
Definition ttl_MAX_RECOMMENDED : Z := 86400.
Definition ttl_VERY_HIGH : Z := 604800.

(** [dnsRecords.T && dnsRecords.T.records], an absent sequence read as empty. *)
Definition recordsOf (dnsRecords : RecordSet) (t : string) : list DNSRecord :=
  match lookup t (entries dnsRecords) with
  | Some q => records q
  | None => []
  end.

Definition nonEmpty {A : Type} (l : list A) : bool :=
  match l with [] => false | _ => true end.

(** *** detectMissingRecords *)

Definition detectMissingRecords (dnsRecords : RecordSet) (domain : string) : list Issue :=
  let hasA := nonEmpty (recordsOf dnsRecords "A") in
  let hasAAAA := nonEmpty (recordsOf dnsRecords "AAAA") in
  let '(errors, warnings) :=
    if negb hasA && negb hasAAAA then
      ([ {| type := MISSING_RECORD; severity := CRITICAL;
            message := "No A or AAAA records found";
            affectedRecords := ["A"; "AAAA"]; recordName := None |} ], [])
    else if negb hasA then
      ([], [ {| type := MISSING_RECORD; severity := WARNING;
                message := "No A records found";
                affectedRecords := ["A"]; recordName := None |} ])
    else if negb hasAAAA then
      ([], [ {| type := MISSING_RECORD; severity := INFO;
                message := "No AAAA records found";
                affectedRecords := ["AAAA"]; recordName := None |} ])
    else ([], []) in
  let hasMX := nonEmpty (recordsOf dnsRecords "MX") in
  let warnings :=
    if negb hasMX then
      (warnings ++ [ {| type := MISSING_RECORD; severity := WARNING;
                        message := "No MX records found";
                        affectedRecords := ["MX"]; recordName := None |} ])%list
    else warnings in
  let hasNS := nonEmpty (recordsOf dnsRecords "NS") in
  let errors :=
    if negb hasNS then
      (errors ++ [ {| type := MISSING_RECORD; severity := CRITICAL;
                      message := "No NS records found";
                      affectedRecords := ["NS"]; recordName := None |} ])%list
    else errors in
  (errors ++ warnings)%list.

(** *** analyzeTTL *)

Definition ttlIssues (recordType : string) (record : DNSRecord) : list Issue :=
  let t := ttl record in
  ((if (t <? ttl_VERY_LOW)%Z then
      [ {| type := INVALID_TTL; severity := WARNING;
           message := "Very low TTL value (" ++ string_of_Z t ++ "s) for "
                      ++ recordType ++ " record";
           affectedRecords := [recordType]; recordName := Some (name record) |} ]
    else if (t <? ttl_MIN_RECOMMENDED)%Z then
      [ {| type := INVALID_TTL; severity := INFO;
           message := "Low TTL value (" ++ string_of_Z t ++ "s) for "
                      ++ recordType ++ " record";
           affectedRecords := [recordType]; recordName := Some (name record) |} ]
    else [])
   ++
   (if (ttl_VERY_HIGH <? t)%Z then
      [ {| type := INVALID_TTL; severity := INFO;
           message := "Very high TTL value (" ++ string_of_Z t ++ "s) for "
                      ++ recordType ++ " record";
           affectedRecords := [recordType]; recordName := Some (name record) |} ]
    else []))%list.

Definition analyzeTTL (dnsRecords : RecordSet) : list Issue :=
  fold_left
    (fun issues (kv : string * QueryResult) =>
       fold_left (fun issues record => (issues ++ ttlIssues (fst kv) record)%list)
                 (records (snd kv)) issues)
    (entries dnsRecords) [].

(** *** detectCircularCNAME *)

Definition setHas (s : list string) (x : string) : bool :=
  existsb (String.eqb x) s.

Definition setAdd (x : string) (s : list string) : list string :=
  if setHas s x then s else (s ++ [x])%list.

(** The loop [for (depth = 0; depth < 10; depth++)] with [fuel = 10 - depth]
    iterations left.  [Some n] is the issue pushed, with its [chainLength]. *)
Fixpoint followChain (cnames : list DNSRecord) (fuel depth : nat)
    (cnameChain : list string) (currentTarget : string) : option nat :=
  match fuel with
  | O => None
  | S fuel' =>
      if setHas cnameChain currentTarget then Some (depth + 1)
      else
        match find (fun record => String.eqb (toLowerCase (name record)) currentTarget)
                   cnames with
        | None => None
        | Some nextCname =>
            followChain cnames fuel' (S depth) (setAdd currentTarget cnameChain)
                        (toLowerCase (data nextCname))
        end
  end.

Definition selfReferenceIssue (recordName_ : string) : Issue :=
  {| type := CIRCULAR_CNAME; severity := CRITICAL;
     message := "CNAME record points to itself: " ++ recordName_;
     affectedRecords := ["CNAME"]; recordName := Some recordName_ |}.

Definition circularChainIssue (recordName_ : string) : Issue :=
  {| type := CIRCULAR_CNAME; severity := CRITICAL;
     message := "Circular CNAME reference detected in chain starting from "
                ++ recordName_;
     affectedRecords := ["CNAME"]; recordName := Some recordName_ |}.

(** The body of the loop over the CNAME records, for one record. *)
Definition cnameIssues (cnames : list DNSRecord) (cnameRecord : DNSRecord) : list Issue :=
  let recordName_ := toLowerCase (name cnameRecord) in
  let targetName := toLowerCase (data cnameRecord) in
  if String.eqb recordName_ targetName then [selfReferenceIssue recordName_]
  else
    match followChain cnames 10 0 (setAdd recordName_ []) targetName with
    | Some _ => [circularChainIssue recordName_]
    | None => []
    end.

Definition detectCircularCNAME (dnsRecords : RecordSet) (domain : string) : list Issue :=
  let cnames := recordsOf dnsRecords "CNAME" in
  fold_left (fun errors cnameRecord => (errors ++ cnameIssues cnames cnameRecord)%list)
            cnames [].

(** *** validateMXRecords *)

(** [isNaN(priority) || priority < 0 || priority > 65535] *)
Definition invalidPriority (priority : number) : bool :=
  match priority with
  | NaN => true
  | Finite p => (p <? 0)%Z || (65535 <? p)%Z
  | Infinite _ => true
  end.

Definition mxFormatIssue (mxRecord : DNSRecord) : Issue :=
  {| type := CONFIGURATION_ERROR; severity := CRITICAL;
     message := "Invalid MX record format: " ++ data mxRecord;
     affectedRecords := ["MX"]; recordName := Some (name mxRecord) |}.

Definition mxPriorityIssue (mxRecord : DNSRecord) (token0 : string) : Issue :=
  {| type := CONFIGURATION_ERROR; severity := CRITICAL;
     message := "Invalid MX priority: " ++ token0;
     affectedRecords := ["MX"]; recordName := Some (name mxRecord) |}.

Definition mxDuplicateIssue (mxRecord : DNSRecord) (priority : number) : Issue :=
  {| type := CONFIGURATION_ERROR; severity := WARNING;
     message := "Duplicate MX priority: " ++ string_of_number priority;
     affectedRecords := ["MX"]; recordName := Some (name mxRecord) |}.

(** One iteration of the loop over the MX records: the issues pushed and
    the set of priorities afterwards. *)
Definition mxStep (st : list Issue * list number) (mxRecord : DNSRecord)
    : list Issue * list number :=
  let '(errors, priorities) := st in
  let mxData := split " " (data mxRecord) in
  match mxData with
  | token0 :: _ :: _ =>
      let priority := parseInt token0 in
      let errors :=
        if invalidPriority priority
        then (errors ++ [mxPriorityIssue mxRecord token0])%list
        else errors in
      let errors :=
        if existsb (number_eqb priority) priorities
        then (errors ++ [mxDuplicateIssue mxRecord priority])%list
        else errors in
      (errors,
       if existsb (number_eqb priority) priorities then priorities
       else (priorities ++ [priority])%list)
  | _ => ((errors ++ [mxFormatIssue mxRecord])%list, priorities)
  end.

Definition validateMXRecords (dnsRecords : RecordSet) : list Issue :=
  fst (fold_left mxStep (recordsOf dnsRecords "MX") ([], [])).

(** *** validateSPFRecord *)

Definition lookupAlternatives : list string :=
  ["include:"; "a:"; "mx:"; "exists:"; "redirect="].

(** Number of matches of [/\b(include:|a:|mx:|exists:|redirect=)/g]: the
    scan restarts after each match; every alternative begins with a word
    character, so [\b] holds at a position exactly when the character
    before it is not a word character.  [prevWord] tells whether the
    previous character is one, [skip] how many characters of the current
    match remain. *)
Fixpoint countLookups (prevWord : bool) (skip : nat) (s : string) : nat :=
  match s with
  | EmptyString => 0
  | String c t =>
      match skip with
      | S k => countLookups (is_word c) k t
      | O =>
          if prevWord then countLookups (is_word c) 0 t
          else match find (fun alt => String.prefix alt s) lookupAlternatives with
               | Some alt => S (countLookups (is_word c) (String.length alt - 1) t)
               | None => countLookups (is_word c) 0 t
               end
      end
  end.

Definition lookupMechanisms (spfData : string) : nat := countLookups false 0 spfData.

Definition validateSPFRecord (spfRecord : DNSRecord) : list Issue :=
  let spfData := data spfRecord in
  let normalizedSPF := trim (toLowerCase spfData) in
  let terminators := ["all"; "~all"; "-all"; "?all"] in
  let hasTerminator := existsb (fun term => includes spfData term) terminators in
  ((if negb (includes normalizedSPF "v=spf1") then
      [ {| type := CONFIGURATION_ERROR; severity := CRITICAL;
           message := "Invalid SPF record format";
           affectedRecords := ["TXT"]; recordName := Some (name spfRecord) |} ]
    else [])
   ++
   (if negb hasTerminator then
      [ {| type := CONFIGURATION_ERROR; severity := WARNING;
           message := "SPF record lacks proper termination";
           affectedRecords := ["TXT"]; recordName := Some (name spfRecord) |} ]
    else [])
   ++
   (if (10 <? lookupMechanisms spfData)%nat then
      [ {| type := CONFIGURATION_ERROR; severity := CRITICAL;
           message := "SPF record exceeds DNS lookup limit ("
                      ++ string_of_nat (lookupMechanisms spfData) ++ "/10)";
           affectedRecords := ["TXT"]; recordName := Some (name spfRecord) |} ]
    else []))%list.

(** *** validateDMARCRecord, validateDKIMRecord *)

(** The [key=value;...] pairs object: each [;]-separated piece is trimmed
    and split on [=]; the first two trimmed parts are stored when both are
    non-empty. *)
Definition parsePairs (recordData : string) : list (string * string) :=
  fold_left
    (fun pairs pair =>
       match map trim (split "=" pair) with
       | key :: value :: _ =>
           if truthy key && truthy value then store key value pairs else pairs
       | _ => pairs
       end)
    (map trim (split ";" recordData)) [].

Definition validateDMARCRecord (dmarcRecord : DNSRecord) : list Issue :=
  let dmarcPairs := parsePairs (data dmarcRecord) in
  let issue sev msg :=
    {| type := CONFIGURATION_ERROR; severity := sev; message := msg;
       affectedRecords := ["TXT"]; recordName := Some (name dmarcRecord) |} in
  ((match lookup "v" dmarcPairs with
    | Some v => if String.eqb (toLowerCase v) "dmarc1" then []
                else [issue CRITICAL "Invalid DMARC version"]
    | None => [issue CRITICAL "Invalid DMARC version"]
    end)
   ++
   (match lookup "p" dmarcPairs with
    | Some p => if existsb (String.eqb p) ["none"; "quarantine"; "reject"] then []
                else [issue CRITICAL "Invalid or missing DMARC policy"]
    | None => [issue CRITICAL "Invalid or missing DMARC policy"]
    end)
   ++
   (match lookup "p" dmarcPairs with
    | Some p => if String.eqb p "none"
                then [issue INFO ("DMARC policy set to " ++ dquote ++ "none" ++ dquote)%string]
                else []
    | None => []
    end)
   ++
   (match lookup "rua" dmarcPairs, lookup "ruf" dmarcPairs with
    | None, None => [issue WARNING "No DMARC reporting addresses configured"]
    | _, _ => []
    end))%list.

Definition validateDKIMRecord (dkimRecord : DNSRecord) : list Issue :=
  let dkimPairs := parsePairs (data dkimRecord) in
  let issue sev msg :=
    {| type := CONFIGURATION_ERROR; severity := sev; message := msg;
       affectedRecords := ["TXT"]; recordName := Some (name dkimRecord) |} in
  ((match lookup "v" dkimPairs with
    | Some v => if String.eqb (toLowerCase v) "dkim1" then []
                else [issue CRITICAL "Invalid DKIM version"]
    | None => [issue CRITICAL "Invalid DKIM version"]
    end)
   ++
   (match lookup "p" dkimPairs with
    | None => [issue CRITICAL "Missing DKIM public key"]
    | Some p => if (String.length p <? 100)%nat
                then [issue WARNING "DKIM public key appears too short"]
                else []
    end))%list.

(** *** validateSecurityRecords *)

Definition securityIssue (sev : Severity) (msg : string) : Issue :=
  {| type := MISSING_SECURITY; severity := sev; message := msg;
     affectedRecords := ["TXT"]; recordName := None |}.

Definition validateSecurityRecords (dnsRecords : RecordSet) (domain : string) : list Issue :=
  let txtRecords := recordsOf dnsRecords "TXT" in
  if negb (nonEmpty txtRecords) then [securityIssue WARNING "No TXT records found"]
  else
    let spfRecords :=
      filter (fun record => includes (toLowerCase (data record)) "v=spf1") txtRecords in
    let hasSPF := nonEmpty spfRecords in
    let spfPart :=
      if negb hasSPF then [securityIssue WARNING "No SPF record found"]
      else
        (flat_map validateSPFRecord spfRecords
         ++ (if (1 <? List.length spfRecords)%nat then
               [ {| type := CONFIGURATION_ERROR; severity := CRITICAL;
                    message := "Multiple SPF records found ("
                               ++ string_of_nat (List.length spfRecords) ++ ")";
                    affectedRecords := ["TXT"]; recordName := None |} ]
             else []))%list in
    let dmarcRecords :=
      filter (fun record => includes (toLowerCase (data record)) "v=dmarc1") txtRecords in
    let hasDMARC := nonEmpty dmarcRecords in
    let dmarcPart :=
      if negb hasDMARC then [securityIssue INFO "DMARC record location note"]
      else flat_map validateDMARCRecord dmarcRecords in
    let dkimRecords :=
      filter (fun record => includes (toLowerCase (name record)) "_domainkey"
                            || includes (toLowerCase (data record)) "v=dkim1")
             txtRecords in
    let hasDKIM := nonEmpty dkimRecords in
    let dkimPart :=
      if hasDKIM then flat_map validateDKIMRecord dkimRecords
      else
        let domainKeyRecords :=
          filter (fun record => includes (toLowerCase (name record)) "_domainkey")
                 txtRecords in
        if negb (nonEmpty domainKeyRecords)
        then [securityIssue INFO "No DKIM records found in current query"]
        else [] in
    let overall :=
      if hasSPF && hasDMARC && hasDKIM
      then [securityIssue INFO "Complete email security configuration detected"]
      else [] in
    (spfPart ++ dmarcPart ++ dkimPart ++ overall)%list.

(** *** analyzeConfiguration *)

Module Summary.
Record t : Type := {
  totalIssues : nat;
  criticalErrors : nat;
  warnings : nat;
  infoItems : nat
}.
End Summary.

Record AnalysisReport : Type := {
  domain : string;
  errors : list Issue;
  warnings : list Issue;
  info : list Issue;
  summary : Summary.t
}.

(** One iteration of the [switch] over [issue.severity]. *)
Definition categorize (analysis : AnalysisReport) (issue : Issue) : AnalysisReport :=
  let s := summary analysis in
  match severity issue with
  | CRITICAL =>
      {| domain := domain analysis;
         errors := (errors analysis ++ [issue])%list;
         warnings := warnings analysis; info := info analysis;
         summary := {| Summary.totalIssues := Summary.totalIssues s;
                       Summary.criticalErrors := S (Summary.criticalErrors s);
                       Summary.warnings := Summary.warnings s;
                       Summary.infoItems := Summary.infoItems s |} |}
  | WARNING =>
      {| domain := domain analysis;
         errors := errors analysis;
         warnings := (warnings analysis ++ [issue])%list; info := info analysis;
         summary := {| Summary.totalIssues := Summary.totalIssues s;
                       Summary.criticalErrors := Summary.criticalErrors s;
                       Summary.warnings := S (Summary.warnings s);
                       Summary.infoItems := Summary.infoItems s |} |}
  | INFO =>
      {| domain := domain analysis;
         errors := errors analysis;
         warnings := warnings analysis; info := (info analysis ++ [issue])%list;
         summary := {| Summary.totalIssues := Summary.totalIssues s;
                       Summary.criticalErrors := Summary.criticalErrors s;
                       Summary.warnings := Summary.warnings s;
                       Summary.infoItems := S (Summary.infoItems s) |} |}
  end.

Definition allIssues (dnsRecords : RecordSet) (domain : string) : list Issue :=
  (detectMissingRecords dnsRecords domain
   ++ analyzeTTL dnsRecords
   ++ detectCircularCNAME dnsRecords domain
   ++ validateMXRecords dnsRecords
   ++ validateSecurityRecords dnsRecords domain)%list.

Definition analyzeConfiguration (dnsRecords : RecordSet) (domain : string) : AnalysisReport :=
  let analysis :=
    {| domain := domain; errors := []; warnings := []; info := [];
       summary := {| Summary.totalIssues := 0; Summary.criticalErrors := 0;
                     Summary.warnings := 0; Summary.infoItems := 0 |} |} in
  let analysis := fold_left categorize (allIssues dnsRecords domain) analysis in
  {| domain := domain; errors := errors analysis;
     warnings := warnings analysis; info := info analysis;
     summary := {| Summary.totalIssues := List.length (allIssues dnsRecords domain);
                   Summary.criticalErrors := Summary.criticalErrors (summary analysis);
                   Summary.warnings := Summary.warnings (summary analysis);
                   Summary.infoItems := Summary.infoItems (summary analysis) |} |}.

(** *** validateSecurityRecords, with the [securityType] of each issue *)

(** The issues of [validateSecurityRecords], each paired with its
    [securityType] property ([None] where the source sets none: the issues
    of the SPF, DMARC and DKIM record validators and the note for an
    absent TXT set). *)
Definition taggedSecurityIssues (dnsRecords : RecordSet) (domain : string)
    : list (Issue * option string) :=
  let untagged := map (fun i : Issue => (i, @None string)) in
  let txtRecords := recordsOf dnsRecords "TXT" in
  if negb (nonEmpty txtRecords) then [(securityIssue WARNING "No TXT records found", None)]
  else
    let spfRecords :=
      filter (fun record => includes (toLowerCase (data record)) "v=spf1") txtRecords in
    let hasSPF := nonEmpty spfRecords in
    let spfPart :=
      if negb hasSPF then [(securityIssue WARNING "No SPF record found", Some "SPF")]
      else
        (untagged (flat_map validateSPFRecord spfRecords)
         ++ (if (1 <? List.length spfRecords)%nat then
               [ ({| type := CONFIGURATION_ERROR; severity := CRITICAL;
                     message := "Multiple SPF records found ("
                                ++ string_of_nat (List.length spfRecords) ++ ")";
                     affectedRecords := ["TXT"]; recordName := None |}, Some "SPF") ]
             else []))%list in
    let dmarcRecords :=
      filter (fun record => includes (toLowerCase (data record)) "v=dmarc1") txtRecords in
    let hasDMARC := nonEmpty dmarcRecords in
    let dmarcPart :=
      if negb hasDMARC then [(securityIssue INFO "DMARC record location note", Some "DMARC")]
      else untagged (flat_map validateDMARCRecord dmarcRecords) in
    let dkimRecords :=
      filter (fun record => includes (toLowerCase (name record)) "_domainkey"
                            || includes (toLowerCase (data record)) "v=dkim1")
             txtRecords in
    let hasDKIM := nonEmpty dkimRecords in
    let dkimPart :=
      if hasDKIM then untagged (flat_map validateDKIMRecord dkimRecords)
      else
        let domainKeyRecords :=
          filter (fun record => includes (toLowerCase (name record)) "_domainkey")
                 txtRecords in
        if negb (nonEmpty domainKeyRecords)
        then [(securityIssue INFO "No DKIM records found in current query", Some "DKIM")]
        else [] in
    let overall :=
      if hasSPF && hasDMARC && hasDKIM
      then [(securityIssue INFO "Complete email security configuration detected",
             Some "COMPLETE")]
      else [] in
    (spfPart ++ dmarcPart ++ dkimPart ++ overall)%list.

(** *** analyzeSecurityConfiguration *)

Record Mechanism : Type := {
  configured : bool;
  issues : list Issue
}.

Record Recommendation : Type := {
  rec_priority : string;
  rec_category : string;
  rec_title : string
}.

Record SecurityAnalysis : Type := {
  spf : Mechanism;
  dmarc : Mechanism;
  dkim : Mechanism;
  recommendations : list Recommendation;
  overallScore : nat;
  maxScore : nat
}.

Definition isMissingSecurity (i : Issue) : bool :=
  match type i with
  | MISSING_SECURITY => true
  | _ => false
  end.

(** One [case] of the [switch] over [issue.securityType]. *)
Definition noteIssue (m : Mechanism) (i : Issue) : Mechanism :=
  {| configured := if negb (isMissingSecurity i) then true else configured m;
     issues := (issues m ++ [i])%list |}.

Definition analyzeSecurityConfiguration (dnsRecords : RecordSet) (domain : string)
    : SecurityAnalysis :=
  let empty := {| configured := false; issues := [] |} in
  let '(s, d, k) :=
    fold_left
      (fun (acc : Mechanism * Mechanism * Mechanism) (tagged : Issue * option string) =>
         let '(s, d, k) := acc in
         let '(issue, securityType) := tagged in
         match securityType with
         | Some tag =>
             if String.eqb tag "SPF" then (noteIssue s issue, d, k)
             else if String.eqb tag "DMARC" then (s, noteIssue d issue, k)
             else if String.eqb tag "DKIM" then (s, d, noteIssue k issue)
             else acc
         | None => acc
         end)
      (taggedSecurityIssues dnsRecords domain) (empty, empty, empty) in
  let score :=
    (if configured s then 40 else 0) + (if configured d then 40 else 0)
    + (if configured k then 20 else 0) in
  {| spf := s; dmarc := d; dkim := k;
     recommendations :=
       ((if negb (configured s)
         then [ {| rec_priority := "high"; rec_category := "email_security";
                   rec_title := "Configure SPF Record" |} ] else [])
        ++ (if negb (configured d)
            then [ {| rec_priority := "high"; rec_category := "email_security";
                      rec_title := "Configure DMARC Record" |} ] else [])
        ++ (if negb (configured k)
            then [ {| rec_priority := "medium"; rec_category := "email_security";
                      rec_title := "Configure DKIM Record" |} ] else []))%list;
     overallScore := score;
     maxScore := 100 |}.

(** *** getIssueSummary *)

Definition errorType_eqb (a b : ErrorType) : bool :=
  match a, b with
  | MISSING_RECORD, MISSING_RECORD | INVALID_TTL, INVALID_TTL
  | CIRCULAR_CNAME, CIRCULAR_CNAME | INVALID_MX, INVALID_MX
  | MISSING_SECURITY, MISSING_SECURITY | PROPAGATION_ISSUE, PROPAGATION_ISSUE
  | CONFIGURATION_ERROR, CONFIGURATION_ERROR => true
  | _, _ => false
  end.

(** An object keyed by issue type, in insertion order:
    [if (!o[k]) o[k] = []; o[k].push(issue)]. *)
Fixpoint pushInto (k : ErrorType) (i : Issue) (o : list (ErrorType * list Issue))
    : list (ErrorType * list Issue) :=
  match o with
  | [] => [(k, [i])]
  | (k', l) :: t =>
      if errorType_eqb k' k then (k', (l ++ [i])%list) :: t
      else (k', l) :: pushInto k i t
  end.

Record SeverityGroup : Type := {
  count : nat;
  categories : list (ErrorType * list Issue)
}.

(** The object of [getIssueSummary]; its keys are [critical], [warnings]
    and [info]. *)
Record IssueSummary : Type := {
  sum_critical : SeverityGroup;
  sum_warnings : SeverityGroup;
  sum_info : SeverityGroup
}.

(** Reading [summary[severity].categories] when [summary[severity]] is
    undefined. *)
Definition undefinedCategoriesError : JsError :=
  {| ename := "TypeError";
     Engine.message := "Cannot read properties of undefined (reading 'categories')" |}.

(** One iteration of the loop of [getIssueSummary]: [summary[severity]]
    is looked up under the severity string of the issue, [critical],
    [warning] or [info]. *)
Definition summaryStep (s : result JsError IssueSummary) (issue : Issue)
    : result JsError IssueSummary :=
  match s with
  | Throw e => Throw e
  | Return s =>
      match severity issue with
      | CRITICAL =>
          Return {| sum_critical :=
                      {| count := count (sum_critical s);
                         categories := pushInto (type issue) issue
                                         (categories (sum_critical s)) |};
                    sum_warnings := sum_warnings s; sum_info := sum_info s |}
      | WARNING => Throw undefinedCategoriesError
      | INFO =>
          Return {| sum_critical := sum_critical s; sum_warnings := sum_warnings s;
                    sum_info :=
                      {| count := count (sum_info s);
                         categories := pushInto (type issue) issue
                                         (categories (sum_info s)) |} |}
      end
  end.

Definition getIssueSummary (analysisResult : AnalysisReport)
    : result JsError IssueSummary :=
  let s := summary analysisResult in
  fold_left summaryStep
    (errors analysisResult ++ warnings analysisResult ++ info analysisResult)%list
    (Return {| sum_critical := {| count := Summary.criticalErrors s; categories := [] |};
               sum_warnings := {| count := Summary.warnings s; categories := [] |};
               sum_info := {| count := Summary.infoItems s; categories := [] |} |}).

(** *** generateRecommendations *)

Inductive Priority : Type := high | medium | low.

Definition priorityOrder (p : Priority) : Z :=
  match p with
  | high => 3
  | medium => 2
  | low => 1
  end.

Definition getRecommendationTitle (issueType : ErrorType) : string :=
  match issueType with
  | MISSING_RECORD => "Add Missing DNS Records"
  | INVALID_TTL => "Optimize TTL Values"
  | CIRCULAR_CNAME => "Fix CNAME Configuration"
  | INVALID_MX => "Fix Mail Exchange Records"
  | MISSING_SECURITY => "Improve Email Security"
  | PROPAGATION_ISSUE => "Check DNS Propagation"
  | CONFIGURATION_ERROR => "Fix Configuration Errors"
  end.

Definition getRecommendationDescription (issueType : ErrorType) (l : list Issue) : string :=
  let n := string_of_nat (List.length l) in
  match issueType with
  | MISSING_RECORD =>
      n ++ " critical DNS record(s) are missing, which may affect domain functionality"
  | INVALID_TTL =>
      n ++ " DNS record(s) have suboptimal TTL values that may impact performance"
  | CIRCULAR_CNAME =>
      n ++ " CNAME record(s) create circular references that prevent resolution"
  | INVALID_MX => n ++ " mail exchange record(s) have configuration issues"
  | MISSING_SECURITY =>
      n ++ " email security feature(s) are not configured, leaving the domain vulnerable"
  | PROPAGATION_ISSUE =>
      n ++ " DNS propagation issue(s) detected across different servers"
  | CONFIGURATION_ERROR => n ++ " DNS configuration error(s) need to be corrected"
  end.

(** A recommendation; of each issue it lists, the message is carried. *)
Record Advice : Type := {
  priority : Priority;
  category : ErrorType;
  title : string;
  description : string;
  affectedCount : nat;
  advice_issues : list string
}.

Definition adviceFor (group : ErrorType * list Issue) : Advice :=
  let '(issueType, l) := group in
  {| priority :=
       match l with
       | firstIssue :: _ =>
           match severity firstIssue with
           | CRITICAL => high
           | INFO => low
           | WARNING => medium
           end
       | [] => medium
       end;
     category := issueType;
     title := getRecommendationTitle issueType;
     description := getRecommendationDescription issueType l;
     affectedCount := List.length l;
     advice_issues := map message l |}.

Definition issuesByType (l : list Issue) : list (ErrorType * list Issue) :=
  fold_left (fun o issue => pushInto (type issue) issue o) l [].

Definition generateRecommendations (analysisResult : AnalysisReport) : list Advice :=
  let allIssues :=
    (errors analysisResult ++ warnings analysisResult ++ info analysisResult)%list in
  sortBy (fun a b => (priorityOrder (priority b) <=? priorityOrder (priority a))%Z)
         (map adviceFor (issuesByType allIssues)).

End Detector.

(* ===================================================================== *)
(** ** The callers in the page controller ([ui-controller.js]) *)
(* ===================================================================== *)

Module UI.
Import JS.
Import Engine.

(** *** analyzeRecordStats *)

Record RecordStats : Type := {
  successCount : nat;
  failureCount : nat;
  emptyCount : nat;
  totalCount : nat;
  hasAnySuccess : bool;
  hasAnyFailures : bool;
  hasAnyEmpty : bool
}.

Inductive RecordClass : Type := Succeeded | Failed | Empty.

(** The branch taken for one key of [dnsData] that holds a query result. *)
Definition classify (recordData : QueryResult) : RecordClass :=
  match error recordData with
  | Some msg =>
      if truthy msg then Failed
      else if nonEmptyRecords recordData then Succeeded else Empty
  | None => if nonEmptyRecords recordData then Succeeded else Empty
  end.

(** The loop over [Object.keys(dnsData)]: the keys are the record types
    stored and, on a record set served from the cache, [fromCache], whose
    value [true] has neither [error] nor [records]. *)
Definition analyzeRecordStats (dnsData : RecordSet) : RecordStats :=
  let classes :=
    (map (fun kv : string * QueryResult => classify (snd kv)) (entries dnsData)
     ++ (if fromCache dnsData then [Empty] else []))%list in
  let '(successes, failures, empties) :=
    fold_left
      (fun (counts : nat * nat * nat) (c : RecordClass) =>
         let '(successes, failures, empties) := counts in
         match c with
         | Failed => (successes, S failures, empties)
         | Succeeded => (S successes, failures, empties)
         | Empty => (successes, failures, S empties)
         end)
      classes (0, 0, 0) in
  {| successCount := successes;
     failureCount := failures;
     emptyCount := empties;
     totalCount := List.length classes;
     hasAnySuccess := (0 <? successes)%nat;
     hasAnyFailures := (0 <? failures)%nat;
     hasAnyEmpty := (0 <? empties)%nat |}.

(** *** isSubdomain *)

Definition isSubdomain (domain : string) : bool :=
  if String.eqb domain "" then false
  else (2 <? List.length (split "." (stripTrailingDot domain)))%nat.

(** *** performDNSAnalysisWithRetry *)

(** [Object.values(dnsData).some(d => d && d.records && d.records.length > 0)] *)
Definition hasAnyResults (dnsData : RecordSet) : bool :=
  existsb (fun kv : string * QueryResult => nonEmptyRecords (snd kv)) (entries dnsData).

(** The clock readings of one [queryAllRecords] call. *)
Record Clock : Type := { at_get : Z; at_set : Z; at_set' : Z }.

(** [performDNSAnalysisWithRetry(domain)]: two attempts at most, the
    second after a pause of one second; [c1] and [c2] are the clock
    readings of the two [queryAllRecords] calls.  The result comes with
    the engine state and the number of calls made. *)
Definition performDNSAnalysisWithRetry (cfg : Config) (net1 net2 : Network) (s : State)
    (domain : string) (c1 c2 : Clock) : State * nat * result JsError RecordSet :=
  let second (s1 : State) :=
    let '(s2, r2) := queryAllRecords cfg net2 s1 domain "cloudflare"
                       (at_get c2) (at_set c2) (at_set' c2) in
    (s2, 2, r2) in
  match queryAllRecords cfg net1 s domain "cloudflare"
          (at_get c1) (at_set c1) (at_set' c1) with
  | (s1, Return dnsData) =>
      if hasAnyResults dnsData then (s1, 1, Return dnsData) else second s1
  | (s1, Throw _) => second s1
  end.

End UI.

(* ===================================================================== *)
(** ** The properties, as the specification words them *)
(* ===================================================================== *)

Module Spec.
Import JS Engine Detector.

(** What the spec says makes a domain invalid: empty, longer than 253
    characters after the trailing dot is stripped, or with a label that is
    empty, longer than 63 characters, or begins or ends with a hyphen. *)
Definition startsWithHyphen (l : string) : bool :=
  match chars l with
  | "-"%char :: _ => true
  | _ => false
  end.

Definition endsWithHyphen (l : string) : bool :=
  match rev (chars l) with
  | "-"%char :: _ => true
  | _ => false
  end.

Definition badLabel (l : string) : bool :=
  String.eqb l "" || (63 <? String.length l)%nat
  || startsWithHyphen l || endsWithHyphen l.

Definition badDomain (s : string) : bool :=
  String.eqb s ""
  || (253 <? String.length (stripTrailingDot s))%nat
  || existsb badLabel (split "." (stripTrailingDot s)).


(** The shape of a label that [domainRegex] accepts: it begins and ends
    with an alphanumeric character and holds no dot. *)
Definition noDot (w : list ascii) : Prop :=
  Forall (fun x => Ascii.eqb x "." = false) w.

Definition wellFormedLabel (w : list ascii) : Prop :=
  (exists c t, w = c :: t /\ is_alnum c = true)
  /\ (exists d t, rev w = d :: t /\ is_alnum d = true)
  /\ noDot w.

(** The per-record TTLs of a record set that the cache looks at, in
    milliseconds: those of the records with a non-zero [ttl]. *)
Definition recordTTLs (v : RecordSet) : list Z :=
  flat_map (fun kv : string * QueryResult =>
              map (fun r => (ttl r * 1000)%Z)
                  (filter (fun r => negb (ttl r =? 0)%Z) (records (snd kv))))
           (entries v).

(** The entry TTL as the specification words it: the minimum per-record
    TTL, the default when there is none, clamped to [30 s, 600 s]. *)
Definition claimedCacheTTL (v : RecordSet) : Z :=
  let minTTL :=
    match recordTTLs v with
    | [] => defaultCacheTTL
    | t :: ts => fold_left Z.min ts t
    end in
  Z.max 30000 (Z.min 600000 minTTL).

(** The caches that the operations of the engine can produce. *)
Inductive reachable : Cache -> Prop :=
| reachable_empty : reachable []
| reachable_set c k v ttl now now' :
    reachable c -> reachable (setCache k v ttl now now' c)
| reachable_get c k now :
    reachable c -> reachable (snd (getFromCache k now c)).

Fixpoint distinct (l : list string) : bool :=
  match l with
  | [] => true
  | x :: t => negb (existsb (String.eqb x) t) && distinct t
  end.

(** Successive [setCache(key, data)] calls, each with its clock reading. *)
Definition insertAll (items : list (string * RecordSet * Z)) (c : Cache) : Cache :=
  fold_left (fun c '(k, v, now) => setCache k v None now now c) items c.

Definition keysOf (items : list (string * RecordSet * Z)) : list string :=
  map (fun '(k, _, _) => k) items.

(** Builders for example inputs. *)
Definition record (n : string) (t : string) (seconds : Z) (d : string) : DNSRecord :=
  {| name := n; Engine.type := t; ttl := seconds; data := d |}.

Definition answer (dom t : string) (rs : list DNSRecord) : string * QueryResult :=
  (t, {| Engine.domain := dom; recordType := t; records := rs; source := "cloudflare";
         error := None; originalError := None; failedProviders := None;
         retryable := None; authority := None; additional := None |}).

Definition recordSet (l : list (string * QueryResult)) : RecordSet :=
  {| entries := l; fromCache := false |}.

(** 51 distinct keys [k0 ... k50], each with an empty record set. *)
Definition keys51 : list (string * RecordSet * Z) :=
  map (fun n => ("k" ++ string_of_nat n, recordSet [], Z.of_nat n)) (seq 0 51).

(** The providers contacted, one per request, in order. *)
Definition providersOf (evs : list Event) : list string :=
  flat_map (fun e => match e with
                     | Fetch p _ _ => [p]
                     | Sleep _ => []
                     end) evs.

(** The delays slept, in order. *)
Definition delaysOf (evs : list Event) : list Z :=
  flat_map (fun e => match e with
                     | Fetch _ _ _ => []
                     | Sleep ms => [ms]
                     end) evs.

(** The events of [n] attempts at one provider with exponential backoff
    between them; an attempt sends its request when the provider has an
    endpoint. *)
Fixpoint backoffTrace (cfg : Config) (provider recordType : string) (attempt n : nat)
    : list Event :=
  match n with
  | O => []
  | S O => request provider recordType attempt
  | S n' =>
      (request provider recordType attempt
       ++ Sleep (retryDelay cfg * 2 ^ (Z.of_nat attempt - 1))%Z
          :: backoffTrace cfg provider recordType (S attempt) n')%list
  end.

(** The text that the combined error of [queryDNS] quotes. *)
Definition lastMessage (e : option JsError) : string :=
  match e with
  | Some err =>
      if String.eqb (Engine.message err) "" then "Unknown error" else Engine.message err
  | None => "Unknown error"
  end.

Definition threw {E A : Type} (r : result E A) : bool :=
  match r with
  | Throw _ => true
  | Return _ => false
  end.

(** A provider answer with status 0 and one A record. *)
Definition okBody : DoHResponse :=
  {| Status := 0;
     Answer := Some [ {| raw_name := "example.com"; raw_type := 1; raw_TTL := 3600;
                         raw_data := "93.184.216.34" |} ];
     Authority := None; Additional := None |}.

(** A network whose first request for each query is answered with the
    given HTTP error status and whose later requests succeed. *)
Definition failsOnce (status : nat) (statusText : string) : Network :=
  fun _ _ _ attempt =>
    if (attempt =? 1)%nat
    then Responded status statusText (inl (mkError "unread body"))
    else Responded 200 "OK" (inr okBody).

Definition fetchFailed : JsError :=
  {| ename := "TypeError"; Engine.message := "Failed to fetch" |}.

(** A network that is down: every [fetch] rejects. *)
Definition netDown : Network :=
  fun _ _ _ _ => Rejected fetchFailed.

(** A network where every request succeeds. *)
Definition netUp : Network :=
  fun _ _ _ _ => Responded 200 "OK" (inr okBody).

(** A network where google is down and the other providers answer. *)
Definition googleDown : Network :=
  fun _ _ provider _ =>
    if String.eqb provider "google"
    then Rejected fetchFailed
    else Responded 200 "OK" (inr okBody).

(** The record types queried by [queryAllRecords], in the key order of
    [recordTypes]. *)
Definition supportedTypes : list string := map fst recordTypes.

(** Whether [queryDNS] raises for one record type (no provider returned
    an answer; an answer with a DNS status other than 0 is returned, not
    raised), and the entry stored for the type by [queryAllRecords]. *)
Definition queryRaises (cfg : Config) (net : Network) (domain preferredProvider : string)
    (recordType : string) : bool :=
  threw (snd (queryDNS cfg net domain recordType preferredProvider)).

Definition outcome (cfg : Config) (net : Network) (domain preferredProvider : string)
    (recordType : string) : QueryResult :=
  match snd (queryDNS cfg net domain recordType preferredProvider) with
  | Return r => r
  | Throw e => failedResult domain recordType e
  end.

(** The running variables after the queries for [types] have settled. *)
Definition gathered (cfg : Config) (net : Network) (domain preferredProvider : string)
    (types : list string) (g : Gather) : Gather :=
  {| results := fold_left (fun o rt => assign rt (outcome cfg net domain preferredProvider rt) o)
                          types (results g);
     hasAnySuccess :=
       hasAnySuccess g
       || existsb (fun rt => negb (queryRaises cfg net domain preferredProvider rt)) types;
     totalFailures :=
       totalFailures g
       + List.length (filter (queryRaises cfg net domain preferredProvider) types) |}.

Definition emptyState : State :=
  {| cache := []; cacheStats := {| hits := 0; misses := 0 |} |}.

(** A configuration set by [setMaxRetries(0)]. *)
Definition zeroRetries : Config :=
  {| timeout := 10000; maxRetries := 0; retryDelay := 1000 |}.

(** The engine after one successful [queryAllRecords("example.com")] at
    clock 0 on a fresh engine. *)
Definition warmState : State :=
  fst (queryAllRecords defaultConfig netUp emptyState "example.com" "cloudflare" 0 0 0).

(** *** CNAME chains *)

(** The target of the first CNAME record named [t], lower-cased. *)
Definition nextTarget (cnames : list DNSRecord) (t : string) : option string :=
  option_map (fun r => toLowerCase (data r))
    (find (fun r => String.eqb (toLowerCase (name r)) t) cnames).

(** The name reached from [t] after [d] hops through the CNAME set. *)
Fixpoint hop (cnames : list DNSRecord) (t : string) (d : nat) : option string :=
  match d with
  | O => Some t
  | S d' =>
      match nextTarget cnames t with
      | Some t' => hop cnames t' d'
      | None => None
      end
  end.

(** The names passed before hop [d]. *)
Fixpoint hopsBefore (cnames : list DNSRecord) (t : string) (d : nat) : list string :=
  match d with
  | O => []
  | S d' =>
      t :: match nextTarget cnames t with
           | Some t' => hopsBefore cnames t' d'
           | None => []
           end
  end.

Definition selfReference (r : DNSRecord) : bool :=
  String.eqb (toLowerCase (name r)) (toLowerCase (data r)).

(** Following the target of [r] through the CNAME set, a name already
    visited (the record's own name or an earlier hop) comes up again
    within [n] hops. *)
Definition revisitsWithin (cnames : list DNSRecord) (r : DNSRecord) (n : nat) : Prop :=
  exists d u,
    d < n
    /\ hop cnames (toLowerCase (data r)) d = Some u
    /\ In u (toLowerCase (name r) :: hopsBefore cnames (toLowerCase (data r)) d).

Definition isCritical (i : Issue) : bool := severity_eqb (severity i) CRITICAL.
Definition isWarning (i : Issue) : bool := severity_eqb (severity i) WARNING.
Definition isInfo (i : Issue) : bool := severity_eqb (severity i) INFO.

Definition cnameSet (l : list (string * string)) : RecordSet :=
  recordSet [answer "example.com" "CNAME"
               (map (fun '(n, d) => record n "CNAME" 300 d) l)].

(** *** MX records *)

(** The parsed priority of an MX record whose data has at least two
    space-separated tokens. *)
Definition mxPriority (r : DNSRecord) : option number :=
  match split " " (data r) with
  | token0 :: _ :: _ => Some (parseInt token0)
  | _ => None
  end.

Definition mxToken0 (r : DNSRecord) : string :=
  match split " " (data r) with
  | token0 :: _ => token0
  | [] => ""
  end.

(** Malformed as the code sees it: fewer than two tokens, or a first token
    that [parseInt] does not read as an integer in [0, 65535]. *)
Definition mxMalformed (r : DNSRecord) : bool :=
  match mxPriority r with
  | None => true
  | Some p => invalidPriority p
  end.

(** The priority [p] is that of one of the [earlier] records. *)
Definition seenIn (earlier : list DNSRecord) (p : number) : bool :=
  existsb (fun r' => match mxPriority r' with
                     | Some p' => number_eqb p p'
                     | None => false
                     end) earlier.

(** The priority of [r] is that of one of the [earlier] records. *)
Definition duplicatesEarlier (earlier : list DNSRecord) (r : DNSRecord) : bool :=
  match mxPriority r with
  | Some p => seenIn earlier p
  | None => false
  end.

Definition mxIssuesFor (earlier : list DNSRecord) (r : DNSRecord) : list Issue :=
  match mxPriority r with
  | None => [mxFormatIssue r]
  | Some p =>
      ((if invalidPriority p then [mxPriorityIssue r (mxToken0 r)] else [])
       ++ (if duplicatesEarlier earlier r then [mxDuplicateIssue r p] else []))%list
  end.

Fixpoint mxExpected (earlier rs : list DNSRecord) : list Issue :=
  match rs with
  | [] => []
  | r :: rest => (mxIssuesFor earlier r ++ mxExpected (earlier ++ [r]) rest)%list
  end.

Definition isDecimal (s : string) : bool :=
  negb (String.eqb s "") && forallb is_digit (chars s).

(** Well-formed as the specification words it: the data splits into
    exactly two tokens, a decimal priority in [0, 65535] and a hostname. *)
Definition wellFormedMX (d : string) : bool :=
  match split " " d with
  | [p; h] =>
      isDecimal p
      && match parseInt p with
         | Finite v => (0 <=? v)%Z && (v <=? 65535)%Z
         | _ => false
         end
      && negb (String.eqb h "")
  | _ => false
  end.

Definition mxSet (l : list string) : RecordSet :=
  recordSet [answer "example.com" "MX"
               (map (fun d => record "example.com" "MX" 300 d) l)].

(** *** SPF records *)

(** The record ends with an [all] mechanism: its last non-empty
    space-separated term is one of the four. *)
Definition hasTerminatingAll (d : string) : bool :=
  match rev (filter (fun t => negb (String.eqb t "")) (split " " d)) with
  | last :: _ => existsb (String.eqb last) ["all"; "~all"; "-all"; "?all"]
  | [] => false
  end.

Definition spfTerminationWarning (r : DNSRecord) : Issue :=
  {| Detector.type := CONFIGURATION_ERROR; severity := WARNING;
     Detector.message := "SPF record lacks proper termination";
     affectedRecords := ["TXT"]; recordName := Some (name r) |}.

Definition txtSet (l : list string) : RecordSet :=
  recordSet [answer "example.com" "TXT"
               (map (fun d => record "example.com" "TXT" 300 d) l)].

(** *** Domain names, positively *)

Definition labelChar (c : ascii) : bool := is_alnum c || Ascii.eqb c "-".

(** A label of 1 to 63 letters, digits and hyphens that begins and ends
    with a letter or a digit. *)
Definition goodLabelChars (w : list ascii) : bool :=
  (1 <=? List.length w)%nat && (List.length w <=? 63)%nat
  && forallb labelChar w
  && match w with c :: _ => is_alnum c | [] => false end
  && match rev w with d :: _ => is_alnum d | [] => false end.

Definition goodLabel (l : string) : bool := goodLabelChars (chars l).

(** A non-empty string that, without one trailing dot, has 1 to 253
    characters and only good labels between its dots. *)
Definition goodDomain (s : string) : bool :=
  negb (String.eqb s "")
  && (1 <=? String.length (stripTrailingDot s))%nat
  && (String.length (stripTrailingDot s) <=? 253)%nat
  && forallb goodLabel (split "." (stripTrailingDot s)).

Definition endsWithDot (s : string) : bool :=
  match rev (chars s) with
  | "."%char :: _ => true
  | _ => false
  end.

(** [Array.prototype.join] with a one-character separator. *)
Fixpoint join (sep : ascii) (ls : list (list ascii)) : list ascii :=
  match ls with
  | [] => []
  | [l] => l
  | l :: rest => (l ++ sep :: join sep rest)%list
  end.

(** *** Retries, attempt by attempt *)

(** Attempt [i] fails with an error that the retry test lets through. *)
Definition retryableFailure (cfg : Config) (net : Network)
    (domain recordType provider : string) (i : nat) : Prop :=
  exists e, performQuery cfg net domain recordType provider i = Throw e
            /\ noRetry (Engine.message e) = false.

(** Attempt [a] ends the query: it returns, fails with an error that the
    retry test stops on, or is the last attempt allowed. *)
Definition decisive (cfg : Config) (net : Network)
    (domain recordType provider : string) (a : nat) : Prop :=
  match performQuery cfg net domain recordType provider a with
  | Return _ => True
  | Throw e => noRetry (Engine.message e) = true \/ a = maxRetries cfg
  end.

Definition outcomeAt (cfg : Config) (net : Network)
    (domain recordType provider : string) (a : nat)
    : result (option JsError) QueryResult :=
  match performQuery cfg net domain recordType provider a with
  | Return r => Return r
  | Throw e => Throw (Some e)
  end.

(** The number of requests among the events. *)
Definition requests (evs : list Event) : nat := List.length (providersOf evs).

(** A network whose first [n] requests of each query abort on the
    timeout and whose later requests are answered. *)
Definition timesOut (n : nat) : Network :=
  fun _ _ _ attempt =>
    if (attempt <=? n)%nat
    then Rejected {| ename := "AbortError"; Engine.message := "The user aborted a request." |}
    else Responded 200 "OK" (inr okBody).

(** *** Providers and error categories *)

Definition knownProvider (p : string) : bool :=
  match lookup p dohProviders with
  | Some _ => true
  | None => false
  end.

(** The texts that [categorizeError] substitutes. *)
Definition categories : list string :=
  [ "Request timed out - DNS server may be slow or unreachable";
    "Network connection failed - check your internet connection";
    "Domain not found - verify the domain name is correct";
    "DNS server error - the authoritative server is having issues";
    "DNS query refused - the server declined to answer";
    "All DNS providers unavailable - try again later" ].

(** The lifetime that [setCache] gives an entry. *)
Definition effectiveTTL (v : RecordSet) (ttl : option Z) : Z :=
  match ttl with
  | Some t => if (t =? 0)%Z then calculateCacheTTL v else t
  | None => calculateCacheTTL v
  end.

(** A network that fails every request for A records and answers the
    others. *)
Definition blocksA : Network :=
  fun _ recordType _ _ =>
    if String.eqb recordType "A" then Rejected fetchFailed
    else Responded 200 "OK" (inr okBody).

(** *** Provider probes *)

(** The request of [testProviders] to one provider succeeds. *)
Definition probeOk (cfg : Config) (net : Network) (provider : string) : bool :=
  match performQuery cfg net "example.com" "A" provider 1 with
  | Return _ => true
  | Throw _ => false
  end.

(** A network on which only google answers. *)
Definition onlyGoogle : Network :=
  fun _ _ provider _ =>
    if String.eqb provider "google" then Responded 200 "OK" (inr okBody)
    else Rejected fetchFailed.

(** *** The rule evaluators *)

(** The record set holds at least one record of type [t]. *)
Definition has (dnsRecords : RecordSet) (t : string) : bool :=
  nonEmpty (recordsOf dnsRecords t).

(** Every record of the set, type by type. *)
Definition allRecords (dnsRecords : RecordSet) : list DNSRecord :=
  flat_map (fun kv : string * QueryResult => records (snd kv)) (entries dnsRecords).

Definition ttlOutOfRange (r : DNSRecord) : bool :=
  (ttl r <? 300)%Z || (604800 <? ttl r)%Z.

(** The TXT records that bear [v=spf1]. *)
Definition spfBearing (dnsRecords : RecordSet) : list DNSRecord :=
  filter (fun record => includes (toLowerCase (data record)) "v=spf1")
         (recordsOf dnsRecords "TXT").

(** The TXT records that [validateSecurityRecords] takes for DKIM records. *)
Definition dkimBearing (dnsRecords : RecordSet) : list DNSRecord :=
  filter (fun record => includes (toLowerCase (name record)) "_domainkey"
                        || includes (toLowerCase (data record)) "v=dkim1")
         (recordsOf dnsRecords "TXT").

(** A tagged issue that sets the [configured] flag of mechanism [tag]. *)
Definition configures (tag : string) (t : Issue * option string) : bool :=
  match snd t with
  | Some g => String.eqb g tag && negb (isMissingSecurity (fst t))
  | None => false
  end.

(** *** Reports *)

Definition reportIssues (r : AnalysisReport) : list Issue :=
  (errors r ++ warnings r ++ info r)%list.

Definition hasType (ty : ErrorType) (i : Issue) : bool := errorType_eqb (Detector.type i) ty.

Definition priorityOf (s : Severity) : Priority :=
  match s with
  | CRITICAL => high
  | WARNING => medium
  | INFO => low
  end.

Definition total (l : list nat) : nat := fold_right Nat.add 0 l.

(** A list in which each element is in the order [le] before all the
    later ones. *)
Fixpoint sortedBy {A : Type} (le : A -> A -> bool) (l : list A) : Prop :=
  match l with
  | [] => True
  | a :: rest => (forall b, In b rest -> le a b = true) /\ sortedBy le rest
  end.

(** The order in which [generateRecommendations] sorts. *)
Definition byPriority (a b : Advice) : bool :=
  (priorityOrder (priority b) <=? priorityOrder (priority a))%Z.

(** [o[ty]], an absent key read as the empty list, and [ty in o]. *)
Definition groupOf (ty : ErrorType) (o : list (ErrorType * list Issue)) : list Issue :=
  match find (fun g : ErrorType * list Issue => errorType_eqb (fst g) ty) o with
  | Some g => snd g
  | None => []
  end.

Definition keyIn (ty : ErrorType) (o : list (ErrorType * list Issue)) : bool :=
  existsb (fun g : ErrorType * list Issue => errorType_eqb (fst g) ty) o.

(** A record set with one A record and nothing else. *)
Definition onlyA : RecordSet :=
  recordSet [answer "example.com" "A" [record "example.com" "A" 3600 "192.0.2.1"]].

(** *** The page controller *)

Definition isClass (c c' : UI.RecordClass) : bool :=
  match c, c' with
  | UI.Succeeded, UI.Succeeded | UI.Failed, UI.Failed | UI.Empty, UI.Empty => true
  | _, _ => false
  end.

(** The class of each stored record type. *)
Definition classesOf (dnsData : RecordSet) : list UI.RecordClass :=
  map (fun kv : string * QueryResult => UI.classify (snd kv)) (entries dnsData).

Definition countOf (c : UI.RecordClass) (l : list UI.RecordClass) : nat :=
  List.length (filter (isClass c) l).

(** The same record set as the cache serves it. *)
Definition served (dnsData : RecordSet) : RecordSet :=
  {| entries := entries dnsData; fromCache := true |}.

(** A network that answers every request with no records. *)
Definition netEmpty : Network :=
  fun _ _ _ _ =>
    Responded 200 "OK"
      (inr {| Status := 0; Answer := None; Authority := None; Additional := None |}).

(** *** The engine over a session *)

(** The states that an engine reaches from its construction by calls of
    [queryAllRecords] and [clearCache], with the number of
    [queryAllRecords] calls for a valid domain since the construction or
    the last [clearCache]. *)
Inductive runs : nat -> State -> Prop :=
| runs_new : runs 0 emptyState
| runs_query n s cfg net domain preferredProvider now now1 now2 :
    runs n s ->
    runs (if validateDomain domain then S n else n)
         (fst (queryAllRecords cfg net s domain preferredProvider now now1 now2))
| runs_clear n s : runs n s -> runs 0 (clearCache s).

(** A cache entry that holds one result per supported record type and is
    not tagged [fromCache]. *)
Definition wholeEntry (kv : string * CacheEntry) : Prop :=
  map fst (entries (entry_data (snd kv))) = supportedTypes
  /\ fromCache (entry_data (snd kv)) = false.

(** *** Answered queries *)

(** [r] is the reading of a body that a provider with an endpoint sent,
    with an HTTP success status, in answer to a request for [recordType]. *)
Definition answered (net : Network) (domain recordType : string) (r : QueryResult)
    : Prop :=
  exists provider attempt status statusText response,
    In provider fallbackOrder
    /\ net domain recordType provider attempt
       = Responded status statusText (inr response)
    /\ responseOk status = true
    /\ r = parseDoHResponse response domain recordType provider.

(** A network on which every provider answers every request with the DNS
    status 3 (NXDOMAIN) and no records. *)
Definition netNXDOMAIN : Network :=
  fun _ _ _ _ =>
    Responded 200 "OK"
      (inr {| Status := 3; Answer := None; Authority := None; Additional := None |}).

(** The entries of a returned record set, none for a raised error. *)
Definition returned (r : result JsError RecordSet) : list (string * QueryResult) :=
  match r with
  | Return rs => entries rs
  | Throw _ => []
  end.

End Spec.

(* ===================================================================== *)
(** * Properties *)
(* ===================================================================== *)

(** ** The matcher decides the language of a regular expression *)

Ltac inv H := inversion H; subst; clear H.

Section RegexFacts.
Import Regex.

Lemma nullable_matches (r : regex) : nullable r = true <-> matches r [].
Proof.
  induction r as [| | p | r1 IH1 r2 IH2 | r1 IH1 r2 IH2 | r IH]; simpl.
  - split; [discriminate | intro H; inversion H].
  - split; [constructor | reflexivity].
  - split; [discriminate | intro H; inversion H].
  - rewrite andb_true_iff, IH1, IH2. split.
    + intros [M1 M2]. change (@nil ascii) with (@nil ascii ++ [])%list.
      constructor; assumption.
    + intro H. inv H.
      match goal with E : (_ ++ _)%list = [] |- _ => apply app_eq_nil in E as [-> ->] end.
      split; assumption.
  - rewrite orb_true_iff, IH1, IH2. split.
    + intros [M | M]; [apply MAltL | apply MAltR]; assumption.
    + intro H. inv H; [left | right]; assumption.
  - split; [constructor | reflexivity].
Qed.

Lemma matches_Void (s : list ascii) : ~ matches Void s.
Proof. intro H; inversion H. Qed.

Lemma cat_matches (r1 r2 : regex) (s : list ascii) :
  matches (cat r1 r2) s <-> matches (Cat r1 r2) s.
Proof.
  assert (V1 : forall r, matches (Cat Void r) s -> False).
  { intros r H; inversion H; subst. eapply matches_Void; eassumption. }
  assert (V2 : forall r, matches (Cat r Void) s -> False).
  { intros r H; inversion H; subst. eapply matches_Void; eassumption. }
  assert (E1 : forall r, matches r s <-> matches (Cat Eps r) s).
  { intros r; split; intro H.
    - change s with ([] ++ s)%list. constructor; [constructor | assumption].
    - inv H. match goal with M : matches Eps _ |- _ => inv M end. assumption. }
  destruct r1; destruct r2; simpl; try reflexivity; try apply E1;
    (split; intro H; exfalso;
     first [exact (matches_Void H) | exact (V1 _ H) | exact (V2 _ H)]).
Qed.

Lemma alt_matches (r1 r2 : regex) (s : list ascii) :
  matches (alt r1 r2) s <-> matches (Alt r1 r2) s.
Proof.
  assert (L : forall r, matches (Alt Void r) s <-> matches r s).
  { intros r; split; intro H; [| apply MAltR; assumption].
    inversion H; subst; [exfalso; eapply matches_Void; eassumption | assumption]. }
  assert (R : forall r, matches (Alt r Void) s <-> matches r s).
  { intros r; split; intro H; [| apply MAltL; assumption].
    inversion H; subst; [assumption | exfalso; eapply matches_Void; eassumption]. }
  destruct r1; destruct r2; simpl; try reflexivity;
    first [symmetry; apply L | symmetry; apply R].
Qed.

Lemma deriv_sound (c : ascii) (r : regex) :
  forall s, matches (deriv c r) s -> matches r (c :: s).
Proof.
  induction r; simpl; intros s H.
  - inversion H.
  - inversion H.
  - destruct (b c) eqn:E; inversion H; subst. constructor; assumption.
  - assert (K : matches (Cat (deriv c r1) r2) s -> matches (Cat r1 r2) (c :: s)).
    { intro M. inv M.
      match goal with |- matches _ (c :: ?s1 ++ ?s2)%list =>
        change (c :: s1 ++ s2)%list with ((c :: s1) ++ s2)%list end.
      constructor; [apply IHr1 |]; assumption. }
    destruct (nullable r1) eqn:N.
    + apply alt_matches in H. inversion H; subst.
      * apply K, cat_matches; assumption.
      * change (c :: s) with ([] ++ c :: s)%list.
        constructor; [apply nullable_matches; assumption | apply IHr2; assumption].
    + apply K, cat_matches; assumption.
  - apply alt_matches in H.
    inversion H; subst; [apply MAltL, IHr1 | apply MAltR, IHr2]; assumption.
  - apply cat_matches in H.
    inv H.
    match goal with |- matches _ (c :: ?s1 ++ ?s2)%list =>
      change (c :: s1 ++ s2)%list with ((c :: s1) ++ s2)%list end.
    constructor; [apply IHr |]; assumption.
Qed.

Lemma deriv_complete (c : ascii) (r : regex) (s : list ascii) :
  matches r (c :: s) -> matches (deriv c r) s.
Proof.
  intro H. remember (c :: s) as w eqn:W.
  revert s W.
  induction H as [| p a P | r1 r2 s1 s2 M1 IH1 M2 IH2 | r1 r2 w M IH | r1 r2 w M IH
                  | r | r s1 s2 M1 IH1 M2 IH2];
    intros s W; simpl.
  - discriminate.
  - injection W as -> <-. rewrite P. constructor.
  - destruct s1 as [| a s1'].
    + simpl in W. subst s2.
      assert (N : nullable r1 = true) by (apply nullable_matches; assumption).
      rewrite N. apply alt_matches, MAltR. apply IH2; reflexivity.
    + simpl in W. injection W as -> <-.
      assert (K : matches (cat (deriv c r1) r2) (s1' ++ s2)).
      { apply cat_matches. constructor; [apply IH1; reflexivity | assumption]. }
      destruct (nullable r1); [apply alt_matches, MAltL |]; assumption.
  - apply alt_matches, MAltL, IH; assumption.
  - apply alt_matches, MAltR, IH; assumption.
  - discriminate.
  - destruct s1 as [| a s1'].
    + simpl in W. apply IH2; assumption.
    + simpl in W. injection W as -> <-.
      apply cat_matches. constructor; [apply IH1; reflexivity | assumption].
Qed.

Lemma matchb_matches (r : regex) (s : list ascii) :
  matchb r s = true <-> matches r s.
Proof.
  revert r; induction s as [| c s IH]; intro r; simpl.
  - apply nullable_matches.
  - rewrite IH. split; [apply deriv_sound | apply deriv_complete].
Qed.

End RegexFacts.

(** ** validateDomain *)

Section DomainFacts.
Import JS Regex Engine Spec.

Lemma label_char_not_dot (c : ascii) :
  is_alnum c || Ascii.eqb c "-" = true -> Ascii.eqb c "." = false.
Proof.
  intro H. destruct (Ascii.eqb c ".") eqn:E; [| reflexivity].
  apply Ascii.eqb_eq in E. subst c. vm_compute in H. discriminate.
Qed.

Lemma alnum_not_hyphen (c : ascii) : is_alnum c = true -> c <> "-"%char.
Proof. intros H ->. vm_compute in H. discriminate. Qed.

Lemma upto_Forall (n : nat) (p : ascii -> bool) :
  forall w, matches (upto n (Class p)) w -> Forall (fun c => p c = true) w.
Proof.
  induction n as [| n IH]; simpl; intros w H.
  - inv H. constructor.
  - inv H.
    + match goal with M : matches Eps _ |- _ => inv M end. constructor.
    + match goal with M : matches (Cat _ _) _ |- _ => inv M end.
      match goal with M : matches (Class _) _ |- _ => inv M end.
      simpl. constructor; [assumption | apply IH; assumption].
Qed.

Lemma label_shape (n : nat) (w : list ascii) :
  matches (Cat (Class is_alnum)
             (Opt (Cat (upto n (Class (fun c => is_alnum c || Ascii.eqb c "-")))
                       (Class is_alnum)))) w ->
  wellFormedLabel w.
Proof.
  intro H. inv H.
  match goal with M : matches (Class _) _ |- _ => inv M end.
  match goal with M : matches (Opt _) _ |- _ => inv M end.
  - match goal with M : matches Eps _ |- _ => inv M end.
    match goal with K : is_alnum ?c = true |- _ =>
      split; [exists c, [] | split; [exists c, [] |]]; simpl; auto;
      constructor; [apply label_char_not_dot; rewrite K; reflexivity | constructor]
    end.
  - match goal with M : matches (Cat _ _) _ |- _ => inv M end.
    match goal with M : matches (Class _) _ |- _ => inv M end.
    match goal with M : matches (upto _ _) ?m |- _ =>
      rename m into middle; apply upto_Forall in M; rename M into Mid end.
    match goal with |- wellFormedLabel ([?c] ++ _ ++ [?d])%list =>
      rename c into first; rename d into last end.
    assert (Hf : is_alnum first = true) by assumption.
    assert (Hl : is_alnum last = true) by assumption.
    split; [| split].
    + exists first, (middle ++ [last])%list. simpl; auto.
    + exists last, (rev middle ++ [first])%list. simpl.
      rewrite rev_app_distr. simpl. auto.
    + constructor.
      * apply label_char_not_dot. rewrite Hf. reflexivity.
      * apply Forall_app. split.
        -- eapply Forall_impl; [| exact Mid]. intros a Ha.
           apply label_char_not_dot. exact Ha.
        -- constructor; [| constructor].
           apply label_char_not_dot. rewrite Hl. reflexivity.
Qed.

Lemma label_wellFormed (w : list ascii) : matches label w -> wellFormedLabel w.
Proof. exact (@label_shape 61 w). Qed.

Lemma split_on_noDot (sep : ascii) (w : list ascii) :
  Forall (fun x => Ascii.eqb x sep = false) w -> split_on sep w = [w].
Proof.
  induction 1 as [| c w Hc Hw IH]; simpl; [reflexivity |].
  rewrite Hc, IH. reflexivity.
Qed.

Lemma split_on_app (sep : ascii) (w rest : list ascii) :
  Forall (fun x => Ascii.eqb x sep = false) w ->
  split_on sep (w ++ sep :: rest) = w :: split_on sep rest.
Proof.
  induction 1 as [| c w Hc Hw IH]; simpl.
  - rewrite Ascii.eqb_refl. reflexivity.
  - rewrite Hc, IH. reflexivity.
Qed.

Lemma star_labels (s : list ascii) (w : list ascii) :
  matches (Star (Cat label (Class (fun c => Ascii.eqb c ".")))) s ->
  noDot w ->
  exists ls, Forall wellFormedLabel ls /\ split_on "." (s ++ w) = (ls ++ [w])%list.
Proof.
  intros H Hw.
  remember (Star (Cat label (Class (fun c => Ascii.eqb c ".")))) as r eqn:R.
  induction H as [| | | | | r0 | r0 s1 s2 M1 IH1 M2 IH2]; try discriminate.
  - exists []. split; [constructor |]. simpl. apply split_on_noDot. exact Hw.
  - injection R as ->. destruct (IH2 eq_refl) as [ls [F E]].
    inv M1.
    match goal with M : matches (Class _) _ |- _ => inv M end.
    match goal with K : Ascii.eqb _ _ = true |- _ => apply Ascii.eqb_eq in K; subst end.
    match goal with M : matches label ?l |- _ =>
      pose proof (label_wellFormed M) as WF; exists (l :: ls) end.
    split; [constructor; assumption |].
    rewrite <- !app_assoc. simpl.
    rewrite split_on_app by apply WF. rewrite E. reflexivity.
Qed.

Lemma domainRegex_labels (s : list ascii) :
  matches domainRegex s -> Forall wellFormedLabel (split_on "." s).
Proof.
  unfold domainRegex. intro H. inv H.
  match goal with M : matches label ?l |- _ => pose proof (label_wellFormed M) as WF end.
  match goal with M : matches (Star _) _ |- _ =>
    destruct (star_labels M (proj2 (proj2 WF))) as [ls [F E]] end.
  rewrite E. apply Forall_app. split; [assumption | constructor; [assumption | constructor]].
Qed.

Lemma chars_str (w : list ascii) : chars (str w) = w.
Proof. apply list_ascii_of_string_of_list_ascii. Qed.

Lemma wellFormed_not_bad (w : list ascii) :
  wellFormedLabel w -> startsWithHyphen (str w) = false /\ endsWithHyphen (str w) = false.
Proof.
  intros [[c [t [E1 A1]]] [[d [t' [E2 A2]]] _]].
  unfold startsWithHyphen, endsWithHyphen. rewrite chars_str, E2.
  rewrite E1. split.
  - destruct (Ascii.eqb_spec c "-"%char) as [-> | N]; [discriminate A1 |].
    destruct c as [[] [] [] [] [] [] [] []]; try reflexivity; congruence.
  - destruct (Ascii.eqb_spec d "-"%char) as [-> | N]; [discriminate A2 |].
    destruct d as [[] [] [] [] [] [] [] []]; try reflexivity; congruence.
Qed.

(** Every domain that [validateDomain] accepts has none of the defects. *)
Lemma validateDomain_not_bad (s : string) :
  validateDomain s = true -> badDomain s = false.
Proof.
  unfold validateDomain, badDomain.
  destruct (String.eqb s "") eqn:E0; [discriminate |].
  destruct (String.length (stripTrailingDot s) =? 0)%nat eqn:E1; [discriminate |].
  destruct (253 <? String.length (stripTrailingDot s))%nat eqn:E2; [discriminate |].
  simpl.
  destruct (existsb _ (split "." (stripTrailingDot s))) eqn:E3; [discriminate |].
  intro T. unfold Regex.test in T. apply matchb_matches, domainRegex_labels in T.
  destruct (existsb badLabel _) eqn:E4; [| reflexivity].
  exfalso. apply existsb_exists in E4 as [l [Hin Hbad]].
  assert (G : forallb (fun l => negb ((String.length l =? 0)%nat
                                      || (63 <? String.length l)%nat))
                      (split "." (stripTrailingDot s)) = true).
  { apply forallb_forall. intros x Hx. apply negb_true_iff.
    destruct ((String.length x =? 0)%nat || (63 <? String.length x)%nat) eqn:K;
      [| reflexivity].
    assert (existsb (fun l => (String.length l =? 0)%nat || (63 <? String.length l)%nat)
                    (split "." (stripTrailingDot s)) = true)
      by (apply existsb_exists; eauto).
    congruence. }
  rewrite forallb_forall in G. specialize (G l Hin).
  apply negb_true_iff, orb_false_iff in G as [G1 G2].
  unfold split in Hin. apply in_map_iff in Hin as [w [<- Hw]].
  rewrite Forall_forall in T. specialize (T w Hw).
  destruct (wellFormed_not_bad T) as [S1 S2].
  unfold badLabel in Hbad. rewrite G2, S1, S2 in Hbad.
  rewrite !orb_false_r in Hbad. apply String.eqb_eq in Hbad.
  rewrite Hbad in G1. discriminate.
Qed.

End DomainFacts.

(** C4. [validateDomain] returns false for every string that is empty, is
    longer than 253 characters once one trailing dot is stripped, or has a
    dot-separated label that is empty, longer than 63 characters, or starts
    or ends with a hyphen; it accepts [example.com] and rejects [a..b] and
    [-bad.com]. *)
Theorem validateDomain_rejects_malformed :
  forall s : string,
    (Spec.badDomain s = true -> Engine.validateDomain s = false)
    /\ Engine.validateDomain "example.com" = true
    /\ Engine.validateDomain "a..b" = false
    /\ Engine.validateDomain "-bad.com" = false.
Proof.
  intro s. split; [| repeat split; vm_compute; reflexivity].
  intro B. destruct (Engine.validateDomain s) eqn:V; [| reflexivity].
  apply validateDomain_not_bad in V. congruence.
Qed.

Lemma validateDomain_rejects_malformed_witness :
  Spec.badDomain "mail.shop-.example" = true
  /\ Engine.validateDomain "mail.shop-.example" = false.
Proof.
  split; [vm_compute; reflexivity |].
  apply (proj1 (validateDomain_rejects_malformed "mail.shop-.example")).
  vm_compute; reflexivity.
Defined.

(** ** The cache *)

Section CacheFacts.
Import JS Engine Spec.

Lemma lookup_assign_same {A : Type} (k : string) (v : A) (c : list (string * A)) :
  lookup k (assign k v c) = Some v.
Proof.
  induction c as [| [k' v'] c IH]; simpl.
  - rewrite String.eqb_refl. reflexivity.
  - destruct (String.eqb k' k) eqn:E; simpl.
    + rewrite String.eqb_refl. reflexivity.
    + rewrite E. exact IH.
Qed.

Lemma lookup_assign_other {A : Type} (k k' : string) (v : A) (c : list (string * A)) :
  k' <> k -> lookup k' (assign k v c) = lookup k' c.
Proof.
  intro N. induction c as [| [k1 v1] c IH]; simpl.
  - destruct (String.eqb_spec k k'); [congruence | reflexivity].
  - destruct (String.eqb_spec k1 k) as [-> | N1]; simpl.
    + destruct (String.eqb_spec k k'); [congruence | reflexivity].
    + destruct (String.eqb k1 k'); [reflexivity | exact IH].
Qed.

Lemma lookup_None_keys {A : Type} (k : string) (c : list (string * A)) :
  lookup k c = None <-> existsb (String.eqb k) (map fst c) = false.
Proof.
  induction c as [| [k' v'] c IH]; simpl; [tauto |].
  rewrite (String.eqb_sym k k').
  destruct (String.eqb k' k); simpl; [split; discriminate | exact IH].
Qed.

Lemma keys_assign_new {A : Type} (k : string) (v : A) (c : list (string * A)) :
  lookup k c = None -> map fst (assign k v c) = (map fst c ++ [k])%list.
Proof.
  induction c as [| [k' v'] c IH]; simpl; [reflexivity |].
  destruct (String.eqb k' k); [discriminate |].
  intro H. simpl. rewrite IH by exact H. reflexivity.
Qed.

Lemma length_assign {A : Type} (k : string) (v : A) (c : list (string * A)) :
  List.length (assign k v c) <= S (List.length c).
Proof.
  induction c as [| [k' v'] c IH]; simpl; [lia |].
  destruct (String.eqb k' k); simpl; lia.
Qed.

Lemma length_remove {A : Type} (k : string) (c : list (string * A)) :
  List.length (remove k c) <= List.length c.
Proof.
  induction c as [| [k' v'] c IH]; simpl; [lia |].
  destruct (String.eqb k' k); simpl; lia.
Qed.

(** At capacity [setCache] drops the head of the map, the entry inserted
    earliest, and then stores the key; below capacity it only stores. *)
Lemma setCache_at_capacity (k : string) (v : RecordSet) (ttl : option Z) (now now' : Z)
    (c : Cache) :
  maxCacheSize <= List.length c ->
  exists e, entry_data e = v /\ setCache k v ttl now now' c = assign k e (tl c).
Proof.
  intro H. unfold setCache.
  destruct (Nat.leb_spec maxCacheSize (List.length c)) as [_ | L]; [| lia].
  eexists. split; [| destruct c as [| [k0 e0] rest]; simpl;
                      [reflexivity | rewrite String.eqb_refl; reflexivity]].
  reflexivity.
Qed.

Lemma setCache_below_capacity (k : string) (v : RecordSet) (ttl : option Z) (now now' : Z)
    (c : Cache) :
  List.length c < maxCacheSize ->
  exists e, entry_data e = v /\ setCache k v ttl now now' c = assign k e c.
Proof.
  intro H. unfold setCache.
  destruct (Nat.leb_spec maxCacheSize (List.length c)) as [L | _]; [lia |].
  eexists. split; [| reflexivity]. reflexivity.
Qed.

Lemma setCache_bounded (k : string) (v : RecordSet) (ttl : option Z) (now now' : Z)
    (c : Cache) :
  List.length c <= maxCacheSize ->
  List.length (setCache k v ttl now now' c) <= maxCacheSize.
Proof.
  intro H.
  destruct (Nat.lt_ge_cases (List.length c) maxCacheSize) as [L | G].
  - destruct (setCache_below_capacity k v ttl now now' c L) as [e [_ ->]].
    pose proof (length_assign k e c). lia.
  - destruct (setCache_at_capacity k v ttl now now' c G) as [e [_ ->]].
    pose proof (length_assign k e (tl c)).
    destruct c; simpl in *; [unfold maxCacheSize in *; lia | lia].
Qed.

Lemma getFromCache_bounded (k : string) (now : Z) (c : Cache) :
  List.length (snd (getFromCache k now c)) <= List.length c.
Proof.
  unfold getFromCache. destruct (lookup k c) as [e |]; simpl; [| lia].
  destruct (expiresAt e <? now)%Z; simpl; [apply length_remove | lia].
Qed.

Lemma reachable_bounded (c : Cache) : reachable c -> List.length c <= maxCacheSize.
Proof.
  induction 1 as [| c k v ttl now now' R IH | c k now R IH].
  - unfold maxCacheSize; simpl; lia.
  - apply setCache_bounded; exact IH.
  - pose proof (getFromCache_bounded k now c). lia.
Qed.

Lemma distinct_app_single (l : list string) (k : string) :
  distinct (l ++ [k]) = distinct l && negb (existsb (String.eqb k) l).
Proof.
  induction l as [| x l IH]; simpl; [reflexivity |].
  rewrite IH, existsb_app. simpl. rewrite orb_false_r, (String.eqb_sym k x).
  destruct (existsb (String.eqb x) l), (String.eqb x k), (distinct l),
    (existsb (String.eqb k) l); reflexivity.
Qed.

Lemma distinct_middle (l r : list string) (k : string) :
  distinct (l ++ k :: r) = true -> existsb (String.eqb k) l = false.
Proof.
  induction l as [| x l IH]; simpl; [reflexivity |].
  intro D. apply andb_true_iff in D as [N D]. apply negb_true_iff in N.
  rewrite existsb_app in N. simpl in N.
  apply orb_false_iff in N as [_ N]. apply orb_false_iff in N as [N _].
  rewrite (String.eqb_sym k x), N. simpl. apply IH. exact D.
Qed.

(** Distinct keys stored below capacity line up in insertion order. *)
Lemma insertAll_below (items : list (string * RecordSet * Z)) :
  forall c : Cache,
    List.length c + List.length items <= maxCacheSize ->
    distinct (map fst c ++ keysOf items) = true ->
    map fst (insertAll items c) = (map fst c ++ keysOf items)%list.
Proof.
  induction items as [| [[k v] now] items IH]; intros c L D; simpl.
  - rewrite app_nil_r. reflexivity.
  - simpl in L.
    destruct (setCache_below_capacity k v None now now c) as [e [_ E]]; [lia |].
    unfold insertAll in *. simpl. rewrite E.
    assert (N : lookup k c = None).
    { apply lookup_None_keys. exact (distinct_middle _ _ _ D). }
    assert (D' : distinct ((map fst c ++ [k]) ++ keysOf items) = true).
    { rewrite <- app_assoc. exact D. }
    rewrite IH.
    + rewrite keys_assign_new by exact N. rewrite <- app_assoc. reflexivity.
    + pose proof (length_assign k e c). lia.
    + rewrite keys_assign_new by exact N. exact D'.
Qed.

(** After 51 distinct keys the first one is gone and the other 50 are
    there, in insertion order. *)
Lemma eviction_of_first (k0 : string) (v0 : RecordSet) (n0 : Z)
    (rest : list (string * RecordSet * Z)) :
  List.length rest = maxCacheSize ->
  distinct (k0 :: keysOf rest) = true ->
  map fst (insertAll ((k0, v0, n0) :: rest) []) = keysOf rest
  /\ forall t, fst (getFromCache k0 t (insertAll ((k0, v0, n0) :: rest) [])) = None.
Proof.
  intros L D.
  assert (K : map fst (insertAll ((k0, v0, n0) :: rest) []) = keysOf rest).
  { destruct (@exists_last _ rest) as [init [[[k v] now] ->]];
      [intros ->; discriminate L |].
    rewrite length_app in L. simpl in L.
    assert (KA : keysOf (init ++ [(k, v, now)]) = (keysOf init ++ [k])%list)
      by (unfold keysOf; rewrite map_app; reflexivity).
    rewrite KA in D |- *.
    change (k0 :: keysOf init ++ [k])%list
      with ((k0 :: keysOf init) ++ [k])%list in D.
    rewrite distinct_app_single in D. apply andb_true_iff in D as [D1 D2].
    apply negb_true_iff in D2.
    change ((k0, v0, n0) :: init ++ [(k, v, now)])%list
      with (((k0, v0, n0) :: init) ++ [(k, v, now)])%list.
    unfold insertAll at 1. rewrite fold_left_app.
    fold (insertAll ((k0, v0, n0) :: init) []).
    assert (Kpre : map fst (insertAll ((k0, v0, n0) :: init) [])
                   = (k0 :: keysOf init)%list).
    { rewrite insertAll_below.
      - reflexivity.
      - simpl. unfold maxCacheSize in *. lia.
      - exact D1. }
    cbn [fold_left].
    destruct (setCache_at_capacity k v None now now
                (insertAll ((k0, v0, n0) :: init) [])) as [e [_ E]].
    { rewrite <- (length_map fst), Kpre. simpl. unfold keysOf.
      rewrite length_map. unfold maxCacheSize in *. lia. }
    rewrite E.
    destruct (insertAll ((k0, v0, n0) :: init) []) as [| [k1 e1] c1];
      [discriminate Kpre |].
    cbn [map fst] in Kpre. injection Kpre as -> Kc. cbn [tl].
    rewrite keys_assign_new, Kc; [reflexivity |].
    apply lookup_None_keys. rewrite Kc.
    cbn [existsb] in D2. apply orb_false_iff in D2 as [_ D2]. exact D2. }
  split; [exact K |].
  intro t. unfold getFromCache.
  assert (N : lookup k0 (insertAll ((k0, v0, n0) :: rest) []) = None).
  { apply lookup_None_keys. rewrite K. cbn [distinct] in D.
    apply andb_true_iff in D as [D _]. apply negb_true_iff in D. exact D. }
  rewrite N. reflexivity.
Qed.

End CacheFacts.

Section CacheTTL.
Import JS Engine Spec.

Lemma fold_min_le (l : list Z) (m : Z) : (fold_left Z.min l m <= m)%Z.
Proof.
  revert m; induction l as [| x l IH]; intro m; simpl; [lia |].
  specialize (IH (Z.min m x)). lia.
Qed.

Lemma fold_record_ttls (rs : list DNSRecord) (m : Z) :
  fold_left (fun minTTL (r : DNSRecord) =>
               if (ttl r =? 0)%Z then minTTL else Z.min minTTL (ttl r * 1000)) rs m
  = fold_left Z.min
      (map (fun r => (ttl r * 1000)%Z) (filter (fun r => negb (ttl r =? 0)%Z) rs)) m.
Proof.
  revert m; induction rs as [| r rs IH]; intro m; simpl; [reflexivity |].
  destruct (ttl r =? 0)%Z; simpl; apply IH.
Qed.

Lemma calculateCacheTTL_min (v : RecordSet) :
  calculateCacheTTL v
  = Z.max 30000 (fold_left Z.min (recordTTLs v) defaultCacheTTL).
Proof.
  unfold calculateCacheTTL, recordTTLs.
  assert (F : forall es m,
             fold_left
               (fun minTTL (kv : string * QueryResult) =>
                  fold_left
                    (fun minTTL (r : DNSRecord) =>
                       if (ttl r =? 0)%Z then minTTL else Z.min minTTL (ttl r * 1000))
                    (records (snd kv)) minTTL) es m
             = fold_left Z.min
                 (flat_map (fun kv : string * QueryResult =>
                              map (fun r => (ttl r * 1000)%Z)
                                  (filter (fun r => negb (ttl r =? 0)%Z)
                                          (records (snd kv)))) es) m).
  { induction es as [| kv es IH]; intro m; simpl; [reflexivity |].
    rewrite fold_left_app, <- fold_record_ttls. apply IH. }
  rewrite F.
  pose proof (fold_min_le
                (flat_map (fun kv : string * QueryResult =>
                             map (fun r => (ttl r * 1000)%Z)
                                 (filter (fun r => negb (ttl r =? 0)%Z)
                                         (records (snd kv)))) (entries v))
                defaultCacheTTL) as B.
  unfold defaultCacheTTL in *. lia.
Qed.

End CacheTTL.

(** C5 (as the code has it). [setCache(k, v)] followed by [getFromCache(k)]
    no later than 30 s after the write returns [v] and leaves the cache as
    it is.  The entry TTL is the smaller of the 300 s default and the
    minimum non-zero per-record TTL of [v], raised to at least 30 s: it
    lies between 30 s and 300 s, so the entry is not expired at that read. *)
Theorem cache_set_then_get_hits
    (k : string) (v : Engine.RecordSet) (c : Engine.Cache) (now now' t : Z) :
  (t <= now + 30000)%Z ->
  Engine.getFromCache k t (Engine.setCache k v None now now' c)
    = (Some v, Engine.setCache k v None now now' c)
  /\ Engine.calculateCacheTTL v
     = Z.max 30000 (fold_left Z.min (Spec.recordTTLs v) Engine.defaultCacheTTL)
  /\ (30000 <= Engine.calculateCacheTTL v <= 300000)%Z.
Proof.
  intro T.
  assert (B : (30000 <= Engine.calculateCacheTTL v <= 300000)%Z).
  { rewrite calculateCacheTTL_min.
    pose proof (fold_min_le (Spec.recordTTLs v) Engine.defaultCacheTTL).
    unfold Engine.defaultCacheTTL in *. lia. }
  split; [| split; [apply calculateCacheTTL_min | exact B]].
  unfold Engine.getFromCache, Engine.setCache.
  rewrite lookup_assign_same. cbn [Engine.expiresAt Engine.entry_data].
  destruct (Z.ltb_spec (now + Engine.calculateCacheTTL v) t) as [L | _]; [lia |].
  reflexivity.
Qed.

Lemma cache_set_then_get_hits_witness :
  Engine.getFromCache "example.com:ALL" 1020
    (Engine.setCache "example.com:ALL"
       (Spec.recordSet [Spec.answer "example.com" "A"
                          [Spec.record "example.com" "A" 20 "93.184.216.34"]])
       None 1000 1001 [])
  = (Some (Spec.recordSet [Spec.answer "example.com" "A"
                             [Spec.record "example.com" "A" 20 "93.184.216.34"]]),
     Engine.setCache "example.com:ALL"
       (Spec.recordSet [Spec.answer "example.com" "A"
                          [Spec.record "example.com" "A" 20 "93.184.216.34"]])
       None 1000 1001 []).
Proof.
  refine (proj1 (@cache_set_then_get_hits "example.com:ALL" _ [] 1000 1001 1020 _)).
  vm_compute. discriminate.
Defined.

(** C5, the claim as worded fails: a record set whose only record has a
    TTL of 400 s gets the 300 s default as entry TTL, not 400 s. *)
Lemma cacheTTL_is_capped_by_default :
  Engine.calculateCacheTTL
    (Spec.recordSet [Spec.answer "example.com" "A"
                       [Spec.record "example.com" "A" 400 "93.184.216.34"]])
  <> Spec.claimedCacheTTL
       (Spec.recordSet [Spec.answer "example.com" "A"
                          [Spec.record "example.com" "A" 400 "93.184.216.34"]]).
Proof. vm_compute. discriminate. Qed.

(** C6. A cache that the engine can reach never holds more than 50
    entries; a [setCache] at capacity stores the key into the map without
    its first entry, the one inserted earliest; and after 51 distinct keys
    have been stored into an empty cache the first key is absent and the
    other 50 are present in insertion order. *)
Theorem cache_capacity_and_eviction :
  (forall c, Spec.reachable c -> List.length c <= 50)
  /\ (forall k v ttl now now' c,
        50 <= List.length c ->
        exists e, Engine.entry_data e = v
                  /\ Engine.setCache k v ttl now now' c = Engine.assign k e (tl c))
  /\ (forall k0 v0 n0 rest,
        List.length rest = 50 ->
        Spec.distinct (k0 :: Spec.keysOf rest) = true ->
        map fst (Spec.insertAll ((k0, v0, n0) :: rest) []) = Spec.keysOf rest
        /\ forall t,
             fst (Engine.getFromCache k0 t (Spec.insertAll ((k0, v0, n0) :: rest) []))
             = None).
Proof.
  split; [exact reachable_bounded |].
  split; [intros; apply setCache_at_capacity; assumption |].
  intros; apply eviction_of_first; assumption.
Qed.

Lemma cache_capacity_and_eviction_witness :
  fst (Engine.getFromCache "k0" 0 (Spec.insertAll Spec.keys51 [])) = None
  /\ List.length (Spec.insertAll Spec.keys51 []) <= 50.
Proof.
  split.
  - refine (proj2 (proj2 (proj2 cache_capacity_and_eviction)
                     "k0" (Spec.recordSet []) 0%Z (tl Spec.keys51) _ _) 0%Z).
    + vm_compute. reflexivity.
    + vm_compute. reflexivity.
  - apply (proj1 cache_capacity_and_eviction).
    unfold Spec.insertAll.
    generalize (@nil (string * Engine.CacheEntry)) Spec.reachable_empty.
    induction Spec.keys51 as [| [[k v] n] l IH]; intros c R; simpl.
    + exact R.
    + apply IH. constructor. exact R.
Defined.

(** ** Retry and provider fallback *)

Section RetryFacts.
Import JS Engine Spec.

Variables (cfg : Config) (net : Network) (domain recordType provider : string).

Lemma providersOf_app (a b : list Event) :
  providersOf (a ++ b) = (providersOf a ++ providersOf b)%list.
Proof. unfold providersOf. apply flat_map_app. Qed.

(** One attempt sends one request, or none without an endpoint. *)
Lemma providersOf_request (attempt : nat) :
  providersOf (request provider recordType attempt)
  = if hasEndpoint provider then [provider] else [].
Proof. unfold request. destruct (hasEndpoint provider); reflexivity. Qed.

Lemma request_providers (attempt : nat) :
  exists n, n <= 1 /\ (hasEndpoint provider = true -> n = 1)
    /\ providersOf (request provider recordType attempt) = repeat provider n.
Proof.
  rewrite providersOf_request. destruct (hasEndpoint provider).
  - exists 1. repeat split. lia.
  - exists 0. repeat split; [lia | discriminate].
Qed.

(** The loop makes at most [fuel] requests, all at [provider]. *)
Lemma retryLoop_providers (fuel : nat) :
  forall attempt lastError,
    exists n, n <= fuel
      /\ providersOf (fst (retryLoop cfg net domain recordType provider
                             fuel attempt lastError))
         = repeat provider n.
Proof.
  induction fuel as [| fuel IH]; intros attempt lastError; cbn [retryLoop].
  - exists 0. split; [lia | reflexivity].
  - destruct (request_providers attempt) as [k [K [_ Q]]].
    destruct (performQuery cfg net domain recordType provider attempt) as [r | e].
    + exists k. split; [lia | exact Q].
    + destruct (noRetry (Engine.message e)); [exists k; split; [lia | exact Q] |].
      destruct (attempt =? maxRetries cfg)%nat; [exists k; split; [lia | exact Q] |].
      destruct (IH (S attempt) (Some e)) as [n [L P]].
      destruct (retryLoop cfg net domain recordType provider fuel (S attempt) (Some e))
        as [evs r] eqn:R.
      exists (k + n). split; [lia |]. cbn [fst] in *.
      rewrite providersOf_app, Q. cbn [providersOf flat_map app].
      fold (providersOf evs). rewrite P. symmetry. apply repeat_app.
Qed.

(** With at least one iteration the loop makes at least one request at a
    provider that has an endpoint. *)
Lemma retryLoop_attempts_positive (fuel attempt : nat) (lastError : option JsError) :
  1 <= fuel ->
  hasEndpoint provider = true ->
  1 <= List.length (providersOf (fst (retryLoop cfg net domain recordType provider
                                        fuel attempt lastError))).
Proof.
  destruct fuel as [| fuel]; [lia |]. intros _ H. cbn [retryLoop].
  pose proof (providersOf_request attempt) as Q. rewrite H in Q.
  destruct (performQuery cfg net domain recordType provider attempt) as [r | e];
    [cbn [fst]; rewrite Q; simpl; lia |].
  destruct (noRetry (Engine.message e)); [cbn [fst]; rewrite Q; simpl; lia |].
  destruct (attempt =? maxRetries cfg)%nat; [cbn [fst]; rewrite Q; simpl; lia |].
  destruct (retryLoop cfg net domain recordType provider fuel (S attempt) (Some e)).
  cbn [fst]. rewrite providersOf_app, Q, length_app. simpl. lia.
Qed.

(** Without an endpoint no request is made. *)
Lemma retryLoop_no_endpoint (fuel : nat) :
  hasEndpoint provider = false ->
  forall attempt lastError,
    providersOf (fst (retryLoop cfg net domain recordType provider
                        fuel attempt lastError)) = [].
Proof.
  intro H. pose proof providersOf_request as Q. rewrite H in Q.
  induction fuel as [| fuel IH]; intros attempt lastError; cbn [retryLoop];
    [reflexivity |].
  destruct (performQuery cfg net domain recordType provider attempt) as [r | e];
    [apply Q |].
  destruct (noRetry (Engine.message e)); [apply Q |].
  destruct (attempt =? maxRetries cfg)%nat; [apply Q |].
  specialize (IH (S attempt) (Some e)).
  destruct (retryLoop cfg net domain recordType provider fuel (S attempt) (Some e)).
  cbn [fst] in *. rewrite providersOf_app, Q. cbn [providersOf flat_map app].
  exact IH.
Qed.

(** What the loop throws is the last error it caught. *)
Lemma retryLoop_throws_caught (fuel : nat) :
  forall attempt lastError x,
    snd (retryLoop cfg net domain recordType provider fuel attempt lastError) = Throw x ->
    (fuel = 0 /\ x = lastError) \/ exists e, x = Some e.
Proof.
  induction fuel as [| fuel IH]; intros attempt lastError x; simpl.
  - intro H. injection H as <-. left; split; reflexivity.
  - destruct (performQuery cfg net domain recordType provider attempt) as [r | e];
      [discriminate |].
    destruct (noRetry (Engine.message e));
      [simpl; intro H; injection H as <-; eauto |].
    destruct (attempt =? maxRetries cfg)%nat;
      [simpl; intro H; injection H as <-; eauto |].
    specialize (IH (S attempt) (Some e) x).
    destruct (retryLoop cfg net domain recordType provider fuel (S attempt) (Some e)).
    simpl in *. intro H. destruct (IH H) as [[_ ->] | K]; eauto.
Qed.

Lemma queryWithRetry_throws_error (x : option JsError) :
  1 <= maxRetries cfg ->
  snd (queryWithRetry cfg net domain recordType provider) = Throw x ->
  exists e, x = Some e.
Proof.
  unfold queryWithRetry. intros M H.
  apply retryLoop_throws_caught in H as [[Z _] | K]; [lia | exact K].
Qed.

(** The requests of one [queryWithRetry]: at most [maxRetries], all at
    [provider], and at least one when [maxRetries] is positive and the
    provider has an endpoint. *)
Lemma queryWithRetry_attempts :
  exists n, n <= maxRetries cfg
    /\ (1 <= maxRetries cfg -> hasEndpoint provider = true -> 1 <= n)
    /\ providersOf (fst (queryWithRetry cfg net domain recordType provider))
       = repeat provider n.
Proof.
  unfold queryWithRetry.
  destruct (retryLoop_providers (maxRetries cfg) 1 None) as [n [L P]].
  exists n. split; [exact L |]. split; [| exact P].
  intros H E. pose proof (retryLoop_attempts_positive 1 None H E) as Q.
  rewrite P, repeat_length in Q. exact Q.
Qed.

(** A failure that the retry test recognises ends the query at once. *)
Lemma queryWithRetry_no_retry (e : JsError) :
  1 <= maxRetries cfg ->
  performQuery cfg net domain recordType provider 1 = Throw e ->
  noRetry (Engine.message e) = true ->
  queryWithRetry cfg net domain recordType provider
  = (request provider recordType 1, Throw (Some e)).
Proof.
  unfold queryWithRetry. destruct (maxRetries cfg) as [| m]; [lia |].
  intros _ P N. cbn [retryLoop]. rewrite P, N. reflexivity.
Qed.

(** The events of a query are those of [n] attempts numbered from
    [attempt], with the delay [retryDelay * 2^(attempt-1)] slept after each
    but the last. *)
Lemma retryLoop_backoff (fuel : nat) :
  forall attempt lastError,
    attempt + fuel = S (maxRetries cfg) ->
    exists n, n <= fuel /\ (1 <= fuel -> 1 <= n)
      /\ fst (retryLoop cfg net domain recordType provider fuel attempt lastError)
         = backoffTrace cfg provider recordType attempt n.
Proof.
  induction fuel as [| fuel IH]; intros attempt lastError I; cbn [retryLoop].
  - exists 0. split; [lia | split; [lia | reflexivity]].
  - destruct (performQuery cfg net domain recordType provider attempt) as [r | e].
    + exists 1. split; [lia | split; [lia | reflexivity]].
    + destruct (noRetry (Engine.message e));
        [exists 1; split; [lia | split; [lia | reflexivity]] |].
      destruct (Nat.eqb_spec attempt (maxRetries cfg)) as [A | A];
        [exists 1; split; [lia | split; [lia | reflexivity]] |].
      destruct (IH (S attempt) (Some e)) as [n [L [P T]]]; [lia |].
      destruct (retryLoop cfg net domain recordType provider fuel (S attempt) (Some e))
        as [evs r] eqn:R.
      exists (S n). split; [lia |]. split; [lia |].
      cbn [fst] in T |- *. subst evs.
      destruct n as [| n']; [lia |]. reflexivity.
Qed.

Lemma queryWithRetry_backoff :
  exists n, n <= maxRetries cfg
    /\ fst (queryWithRetry cfg net domain recordType provider)
       = backoffTrace cfg provider recordType 1 n.
Proof.
  unfold queryWithRetry.
  destruct (retryLoop_backoff (maxRetries cfg) 1 None) as [n [L [_ T]]]; [lia |].
  exists n. split; assumption.
Qed.

End RetryFacts.

Section HttpFailures.
Import JS Engine Spec.

Lemma prefix_app (sub : string) :
  forall s t, String.prefix sub s = true -> String.prefix sub (s ++ t) = true.
Proof.
  induction sub as [| a sub IH]; intros s t; [destruct (s ++ t); reflexivity |].
  destruct s as [| b s]; simpl; [discriminate |].
  destruct (Ascii.ascii_dec a b); [apply IH | discriminate].
Qed.

Lemma includes_app_l (sub t : string) :
  forall s, includes s sub = true -> includes (s ++ t) sub = true.
Proof.
  induction s as [| a s IH]; simpl; intro H.
  - rewrite orb_false_r in H. destruct sub; [| discriminate H].
    destruct t; reflexivity.
  - apply orb_true_iff in H as [H | H]; apply orb_true_iff.
    + left. exact (prefix_app _ (String a s) t H).
    + right. apply IH. exact H.
Qed.

Lemma includes_app_r (sub t : string) :
  forall s, includes t sub = true -> includes (s ++ t) sub = true.
Proof.
  induction s as [| a s IH]; simpl; intro H; [exact H |].
  rewrite (IH H). apply orb_true_r.
Qed.

Lemma status_4xx_has_4 (status : nat) :
  400 <= status <= 499 -> includes (string_of_nat status) "4" = true.
Proof.
  intro H.
  assert (A : forallb (fun n => includes (string_of_nat n) "4") (seq 400 100) = true)
    by (vm_compute; reflexivity).
  rewrite forallb_forall in A. apply A. apply in_seq. lia.
Qed.

(** A 4xx answer to the first request ends the query at once: one request,
    no delay, and the HTTP failure is what surfaces. *)
Lemma http_4xx_not_retried (cfg : Config) (net : Network)
    (domain recordType provider : string)
    (status : nat) (statusText : string) (body : JsError + DoHResponse) :
  1 <= maxRetries cfg ->
  hasEndpoint provider = true ->
  net domain recordType provider 1 = Responded status statusText body ->
  400 <= status <= 499 ->
  queryWithRetry cfg net domain recordType provider
  = ([Fetch provider recordType 1],
     Throw (Some (mkError ("DoH API request failed: " ++ string_of_nat status
                           ++ " " ++ statusText)))).
Proof.
  intros M E N S.
  replace [Fetch provider recordType 1] with (request provider recordType 1)
    by (unfold request; rewrite E; reflexivity).
  apply queryWithRetry_no_retry; [exact M | |].
  - unfold performQuery. rewrite E, N. cbn [negb].
    assert (K : responseOk status = false).
    { unfold responseOk. destruct (Nat.leb_spec status 299) as [L | _]; [lia |].
      apply andb_false_r. }
    rewrite K. reflexivity.
  - unfold noRetry. cbn [Engine.message mkError].
    assert (A : includes ("DoH API request failed: " ++ string_of_nat status
                          ++ " " ++ statusText) "DoH API request failed" = true)
      by reflexivity.
    assert (B : includes ("DoH API request failed: " ++ string_of_nat status
                          ++ " " ++ statusText) "4" = true).
    { apply includes_app_r, includes_app_l, status_4xx_has_4. exact S. }
    rewrite A, B. apply orb_true_r.
Qed.

End HttpFailures.

Section FallbackFacts.
Import JS Engine Spec.

Variables (cfg : Config) (net : Network) (domain recordType : string).

(** With at least one attempt per provider, [queryDNS] with the preferred
    provider [google] runs [queryWithRetry] at google, then cloudflare,
    then quad9, stops at the first that returns, and when all three throw
    raises the combined error quoting the message of the last one. *)
Lemma queryDNS_google_fallback :
  validateDomain domain = true ->
  isSet recordType recordTypes = true ->
  1 <= maxRetries cfg ->
  providerOrder "google" = ["google"; "cloudflare"; "quad9"]
  /\ queryDNS cfg net domain recordType "google"
     = let run := queryWithRetry cfg net domain recordType in
       match snd (run "google") with
       | Return r => (fst (run "google"), Return r)
       | Throw _ =>
           match snd (run "cloudflare") with
           | Return r => ((fst (run "google") ++ fst (run "cloudflare"))%list, Return r)
           | Throw _ =>
               match snd (run "quad9") with
               | Return r =>
                   ((fst (run "google") ++ fst (run "cloudflare")
                     ++ fst (run "quad9"))%list, Return r)
               | Throw e =>
                   ((fst (run "google") ++ fst (run "cloudflare")
                     ++ fst (run "quad9"))%list,
                    Throw (mkError ("All DNS providers failed. Last error: "
                                    ++ lastMessage e)))
               end
           end
       end.
Proof.
  intros V T M. split; [reflexivity |].
  unfold queryDNS. rewrite V, T. change (negb true) with false. cbv iota.
  change (providerOrder "google") with ["google"; "cloudflare"; "quad9"].
  cbn [tryProviders].
  change (isSet "google" dohProviders) with true.
  change (isSet "cloudflare" dohProviders) with true.
  change (isSet "quad9" dohProviders) with true.
  change (negb true) with false. cbv iota beta zeta.
  pose proof (@queryWithRetry_throws_error cfg net domain recordType "google") as G.
  pose proof (@queryWithRetry_throws_error cfg net domain recordType "cloudflare") as C.
  pose proof (@queryWithRetry_throws_error cfg net domain recordType "quad9") as Q.
  destruct (queryWithRetry cfg net domain recordType "google") as [eg [rg | xg]];
    [reflexivity |].
  destruct (G xg M eq_refl) as [e1 ->].
  destruct (queryWithRetry cfg net domain recordType "cloudflare") as [ec [rc | xc]];
    [reflexivity |].
  destruct (C xc M eq_refl) as [e2 ->].
  destruct (queryWithRetry cfg net domain recordType "quad9") as [eq [rq | xq]];
    [simpl; rewrite app_nil_r || reflexivity; reflexivity |].
  destruct (Q xq M eq_refl) as [e3 ->].
  simpl. rewrite app_nil_r. unfold truthy.
  destruct (String.eqb (Engine.message e3) ""); reflexivity.
Qed.

End FallbackFacts.

(** C2, evaluated. A first attempt answered with HTTP 504 is not retried
    (one request, no delay, the error surfaces) although the second
    request would succeed, whereas a first attempt answered with HTTP 500
    is retried after [retryDelay] and succeeds: the retry test looks for
    the character [4] anywhere in the message of an HTTP failure. *)
Theorem queryWithRetry_gives_up_on_504 :
  Engine.queryWithRetry Engine.defaultConfig (Spec.failsOnce 504 "Gateway Timeout")
    "example.com" "A" "cloudflare"
  = ([Engine.Fetch "cloudflare" "A" 1],
     Engine.Throw (Some (Engine.mkError "DoH API request failed: 504 Gateway Timeout")))
  /\ fst (Engine.queryWithRetry Engine.defaultConfig
            (Spec.failsOnce 500 "Internal Server Error") "example.com" "A" "cloudflare")
     = [Engine.Fetch "cloudflare" "A" 1; Engine.Sleep 1000; Engine.Fetch "cloudflare" "A" 2]
  /\ Spec.threw (snd (Engine.queryWithRetry Engine.defaultConfig
                        (Spec.failsOnce 500 "Internal Server Error")
                        "example.com" "A" "cloudflare")) = false.
Proof. repeat split; vm_compute; reflexivity. Qed.

(** C3, evaluated. With [maxRetries] set to 0 and every provider
    answering, [queryDNS] with the preferred provider [google] makes no
    request at all and fails with the TypeError raised by reading the
    message of the [null] that [queryWithRetry] threw for google:
    cloudflare and quad9 are never visited. *)
Theorem queryDNS_zero_retries_stops_at_google :
  Engine.queryDNS Spec.zeroRetries Spec.netUp "example.com" "A" "google"
  = ([], Engine.Throw Engine.nullMessageError)
  /\ Engine.queryWithRetry Spec.zeroRetries Spec.netUp "example.com" "A" "google"
     = ([], Engine.Throw None)
  /\ Spec.threw (snd (Engine.queryDNS Engine.defaultConfig Spec.netUp
                        "example.com" "A" "google")) = false.
Proof. repeat split; vm_compute; reflexivity. Qed.

(** ** queryAllRecords *)

Section GatherFacts.
Import JS Engine Spec.

Variables (cfg : Config) (net : Network) (domain preferredProvider : string).

Lemma gathered_app (a b : list string) (g : Gather) :
  gathered cfg net domain preferredProvider (a ++ b) g
  = gathered cfg net domain preferredProvider b
      (gathered cfg net domain preferredProvider a g).
Proof.
  unfold gathered. cbn [results hasAnySuccess totalFailures].
  rewrite fold_left_app, existsb_app, filter_app, length_app, orb_assoc, Nat.add_assoc.
  reflexivity.
Qed.

Lemma gathered_nil (g : Gather) :
  gathered cfg net domain preferredProvider [] g = g.
Proof.
  destruct g as [r h t]. unfold gathered. simpl.
  rewrite orb_false_r, Nat.add_0_r. reflexivity.
Qed.

(** A batch leaves the running variables as its queries, taken one after
    the other, leave them. *)
Lemma runBatch_gathered (batch : list string) (g : Gather) :
  runBatch cfg net domain preferredProvider g batch
  = gathered cfg net domain preferredProvider batch g.
Proof.
  unfold runBatch, gathered. cbv zeta.
  f_equal.
  - generalize (results g) as o.
    induction batch as [| rt batch IH]; intro o; simpl; [reflexivity |].
    rewrite <- IH. unfold outcome.
    destruct (snd (queryDNS cfg net domain rt preferredProvider)); reflexivity.
  - f_equal. induction batch as [| rt batch IH]; simpl; [reflexivity |].
    rewrite IH. unfold queryRaises.
    destruct (snd (queryDNS cfg net domain rt preferredProvider)); reflexivity.
  - f_equal. induction batch as [| rt batch IH]; simpl; [reflexivity |].
    unfold queryRaises at 1.
    destruct (snd (queryDNS cfg net domain rt preferredProvider)); simpl;
      rewrite IH; reflexivity.
Qed.

Lemma batches_gathered (batches : list (list string)) :
  forall g,
    fold_left (runBatch cfg net domain preferredProvider) batches g
    = gathered cfg net domain preferredProvider (concat batches) g.
Proof.
  induction batches as [| b bs IH]; intro g; simpl.
  - symmetry. apply gathered_nil.
  - rewrite IH, runBatch_gathered, gathered_app. reflexivity.
Qed.

Lemma all_fail_count (f : string -> bool) (l : list string) :
  negb (existsb (fun x => negb (f x)) l) = true ->
  List.length (filter f l) = List.length l.
Proof.
  induction l as [| x l IH]; simpl; [reflexivity |].
  destruct (f x); simpl; [intro H; rewrite IH by exact H; reflexivity | discriminate].
Qed.


(** The miss path of [queryAllRecords], after the cache lookup. *)
Lemma queryAllRecords_miss (s : State) (now now1 now2 : Z) :
  validateDomain domain = true ->
  fst (getFromCache (toLowerCase domain ++ ":ALL") now (cache s)) = None ->
  let all_fail :=
    negb (existsb (fun rt => negb (queryRaises cfg net domain preferredProvider rt))
                  supportedTypes) in
  snd (queryAllRecords cfg net s domain preferredProvider now now1 now2)
  = if all_fail
    then Throw (mkError ("Failed to retrieve any DNS records for " ++ domain
                         ++ ". All 9 record type queries failed."))
    else Return {| entries :=
                     map (fun rt => (rt, outcome cfg net domain preferredProvider rt))
                         supportedTypes;
                   fromCache := false |}.
Proof.
  intros V C. cbv zeta. unfold queryAllRecords. rewrite V.
  change (negb true) with false. cbv iota.
  destruct (getFromCache (toLowerCase domain ++ ":ALL") now (cache s)) as [[cached |] c];
    [discriminate C |].
  rewrite batches_gathered.
  change (concat (batchesOf 3 (map fst recordTypes))) with supportedTypes.
  assert (R : fold_left
                (fun o rt => assign rt (outcome cfg net domain preferredProvider rt) o)
                supportedTypes []
              = map (fun rt => (rt, outcome cfg net domain preferredProvider rt))
                    supportedTypes).
  { generalize (outcome cfg net domain preferredProvider). intro f. reflexivity. }
  unfold gathered. cbn [results hasAnySuccess totalFailures]. rewrite R.
  set (E := existsb (fun rt => negb (queryRaises cfg net domain preferredProvider rt))
                    supportedTypes).
  change (false || E) with E.
  change (0 + List.length (filter (queryRaises cfg net domain preferredProvider)
                                  supportedTypes))
    with (List.length (filter (queryRaises cfg net domain preferredProvider)
                              supportedTypes)).
  destruct (negb E) eqn:A.
  - rewrite (all_fail_count _ _ A).
    change (List.length (map fst recordTypes)) with 9.
    change (List.length supportedTypes) with 9.
    reflexivity.
  - reflexivity.
Qed.

(** The hit path: the cached record set comes back tagged [fromCache],
    whatever the network does. *)
Lemma queryAllRecords_hit (s : State) (now now1 now2 : Z) (cached : RecordSet) :
  validateDomain domain = true ->
  fst (getFromCache (toLowerCase domain ++ ":ALL") now (cache s)) = Some cached ->
  snd (queryAllRecords cfg net s domain preferredProvider now now1 now2)
  = Return {| entries := entries cached; fromCache := true |}.
Proof.
  intros V C. unfold queryAllRecords. rewrite V.
  change (negb true) with false. cbv iota.
  destruct (getFromCache (toLowerCase domain ++ ":ALL") now (cache s)) as [[x |] c];
    [| discriminate C].
  simpl in C. injection C as ->. reflexivity.
Qed.


End GatherFacts.

(** ** What a query returns *)

Section AnsweredFacts.
Import JS Engine Spec.

Variables (cfg : Config) (net : Network) (domain recordType : string).

Lemma hasEndpoint_fallback (p : string) :
  hasEndpoint p = true -> In p fallbackOrder.
Proof.
  unfold hasEndpoint, dohProviders, fallbackOrder. cbn [lookup].
  repeat match goal with
         | |- context [String.eqb ?k p] =>
             destruct (String.eqb_spec k p); [subst; simpl; tauto |]
         end.
  discriminate.
Qed.

(** [performQuery] returns only the reading of an answer. *)
Lemma performQuery_return (provider : string) (attempt : nat) (r : QueryResult) :
  performQuery cfg net domain recordType provider attempt = Return r ->
  answered net domain recordType r.
Proof.
  unfold performQuery. destruct (hasEndpoint provider) eqn:E; cbn [negb];
    [| discriminate].
  destruct (net domain recordType provider attempt) as [status statusText body | e] eqn:N;
    [| discriminate].
  destruct (responseOk status) eqn:O; cbn [negb]; [| discriminate].
  destruct body as [e | response]; [discriminate |].
  intro H. injection H as <-.
  exists provider, attempt, status, statusText, response.
  split; [apply hasEndpoint_fallback; exact E |]. repeat split; assumption.
Qed.

Lemma retryLoop_return (provider : string) (fuel : nat) :
  forall attempt lastError r,
    snd (retryLoop cfg net domain recordType provider fuel attempt lastError) = Return r ->
    answered net domain recordType r.
Proof.
  induction fuel as [| fuel IH]; intros attempt lastError r; cbn [retryLoop];
    [discriminate |].
  destruct (performQuery cfg net domain recordType provider attempt) as [r' | e] eqn:P.
  - cbn [snd]. intro H. injection H as <-. exact (performQuery_return _ _ P).
  - destruct (noRetry (Engine.message e)); [discriminate |].
    destruct (attempt =? maxRetries cfg)%nat; [discriminate |].
    specialize (IH (S attempt) (Some e) r).
    destruct (retryLoop cfg net domain recordType provider fuel (S attempt) (Some e)).
    exact IH.
Qed.

Lemma tryProviders_return (ps : list string) :
  forall lastError r,
    snd (tryProviders cfg net domain recordType ps lastError) = Return r ->
    answered net domain recordType r.
Proof.
  induction ps as [| p ps IH]; intros lastError r; cbn [tryProviders];
    [discriminate |].
  destruct (isSet p dohProviders); cbn [negb]; [| apply IH].
  pose proof (@retryLoop_return p (maxRetries cfg) 1 None) as R.
  fold (queryWithRetry cfg net domain recordType p) in R.
  destruct (queryWithRetry cfg net domain recordType p) as [evs [r' | [e |]]].
  - cbn [snd]. intro H. injection H as <-. apply R. reflexivity.
  - specialize (IH (Some e) r).
    destruct (tryProviders cfg net domain recordType ps (Some e)). exact IH.
  - discriminate.
Qed.

(** What [queryDNS] returns is the reading of an answer. *)
Lemma queryDNS_return (preferredProvider : string) (r : QueryResult) :
  snd (queryDNS cfg net domain recordType preferredProvider) = Return r ->
  answered net domain recordType r.
Proof.
  unfold queryDNS. destruct (validateDomain domain); cbn [negb]; [| discriminate].
  destruct (isSet recordType recordTypes); cbn [negb]; [| discriminate].
  apply tryProviders_return.
Qed.

(** The reading of an answer has no retryable flag; with a DNS status
    other than 0 it has no records and the status text as its error, with
    the status 0 it has no error. *)
Lemma answered_entry (r : QueryResult) :
  answered net domain recordType r ->
  retryable r = None /\ originalError r = None /\ failedProviders r = None
  /\ exists provider response,
       In provider fallbackOrder
       /\ source r = provider
       /\ r = parseDoHResponse response domain recordType provider
       /\ (Status response <> 0%Z ->
           records r = [] /\ error r = Some (statusMessage (Status response)))
       /\ (Status response = 0%Z -> error r = None).
Proof.
  intros [provider [attempt [status [statusText [response [I [_ [_ ->]]]]]]]].
  assert (F : retryable (parseDoHResponse response domain recordType provider) = None
              /\ originalError (parseDoHResponse response domain recordType provider) = None
              /\ failedProviders (parseDoHResponse response domain recordType provider)
                 = None
              /\ source (parseDoHResponse response domain recordType provider) = provider).
  { unfold parseDoHResponse. cbv zeta.
    destruct (negb (Status response =? 0)%Z); repeat split. }
  destruct F as [F1 [F2 [F3 F4]]].
  split; [exact F1 |]. split; [exact F2 |]. split; [exact F3 |].
  exists provider, response.
  split; [exact I |]. split; [exact F4 |]. split; [reflexivity |].
  unfold parseDoHResponse. cbv zeta.
  destruct (Z.eqb_spec (Status response) 0) as [Z | N]; cbn [negb].
  - split; [intro N; contradiction | intros _; reflexivity].
  - split; [intros _; split; reflexivity | intro Z; contradiction].
Qed.

End AnsweredFacts.

Section AllRecordsFacts.
Import JS Engine Spec.

Lemma lookup_supported {A : Type} (f : string -> A) (rt : string) :
  In rt supportedTypes ->
  lookup rt (map (fun rt => (rt, f rt)) supportedTypes) = Some (f rt).
Proof.
  intro H. repeat (destruct H as [<- | H]; [reflexivity |]). destruct H.
Qed.

End AllRecordsFacts.




(** C1, the other way in which the claim as worded fails: when every
    provider answers every one of the 9 queries with NXDOMAIN, no query
    raises, so that [queryAllRecords] returns and caches a set in which
    every entry has no records, the uncategorized status text as its error
    and no retryable flag. *)
Lemma queryAllRecords_returns_when_all_answer_nxdomain :
  map (fun kv : string * Engine.QueryResult =>
         (fst kv, Engine.records (snd kv), Engine.error (snd kv),
          Engine.retryable (snd kv)))
      (Spec.returned
         (snd (Engine.queryAllRecords Engine.defaultConfig Spec.netNXDOMAIN
                 Spec.emptyState "nosuch.example" "cloudflare" 0 0 0)))
  = map (fun rt => (rt, [], Some "Name Error (NXDOMAIN)", None)) Spec.supportedTypes
  /\ map fst (Engine.cache
                (fst (Engine.queryAllRecords Engine.defaultConfig Spec.netNXDOMAIN
                        Spec.emptyState "nosuch.example" "cloudflare" 0 0 0)))
     = ["nosuch.example:ALL"]
  /\ Engine.categorizeError "Name Error (NXDOMAIN)"
     = "Domain not found - verify the domain name is correct".
Proof. repeat split; vm_compute; reflexivity. Qed.

(** ** CNAME cycle detection *)

Section CnameFacts.
Import JS Engine Detector Spec.

Variable cnames : list DNSRecord.

Lemma setHas_setAdd (s : list string) (t u : string) :
  setHas (setAdd t s) u = setHas s u || String.eqb u t.
Proof.
  unfold setAdd. destruct (setHas s t) eqn:H.
  - destruct (String.eqb_spec u t) as [-> | N].
    + rewrite H. reflexivity.
    + rewrite orb_false_r. reflexivity.
  - unfold setHas. rewrite existsb_app. simpl. rewrite orb_false_r. reflexivity.
Qed.

Lemma setHas_In (s : list string) (u : string) : setHas s u = true <-> In u s.
Proof.
  unfold setHas. rewrite existsb_exists. split.
  - intros [x [Hx E]]. apply String.eqb_eq in E. subst. exact Hx.
  - intro H. exists u. split; [exact H | apply String.eqb_refl].
Qed.

(** The loop reports exactly when some hop within the remaining depth
    lands on a name of the chain so far or on an earlier hop. *)
Lemma followChain_revisit (fuel : nat) :
  forall depth cnameChain t,
    followChain cnames fuel depth cnameChain t <> None
    <-> exists d u, d < fuel /\ hop cnames t d = Some u
                    /\ In u (cnameChain ++ hopsBefore cnames t d).
Proof.
  induction fuel as [| fuel IH]; intros depth cnameChain t; simpl.
  - split; [congruence | intros [d [u [L _]]]; lia].
  - destruct (setHas cnameChain t) eqn:H.
    + split; [intros _ | discriminate].
      exists 0, t. split; [lia |]. split; [reflexivity |].
      simpl. rewrite app_nil_r. apply setHas_In. exact H.
    + assert (NotIn : ~ In t cnameChain).
      { intro K. apply setHas_In in K. congruence. }
      destruct (find (fun record => String.eqb (toLowerCase (name record)) t) cnames)
        as [nextCname |] eqn:E.
      * rewrite IH. split.
        -- intros [d [u [L [Hh Hin]]]]. exists (S d), u.
           split; [lia |]. simpl. unfold nextTarget. rewrite E. simpl.
           split; [exact Hh |].
           apply in_app_iff in Hin as [Hin | Hin].
           ++ apply setHas_In in Hin. rewrite setHas_setAdd in Hin.
              apply orb_true_iff in Hin as [Hin | Hin].
              ** apply in_app_iff. left. apply setHas_In. exact Hin.
              ** apply String.eqb_eq in Hin. subst u.
                 apply in_app_iff. right. left. reflexivity.
           ++ apply in_app_iff. right. right. exact Hin.
        -- intros [d [u [L [Hh Hin]]]]. destruct d as [| d].
           ++ simpl in Hh, Hin. injection Hh as <-. rewrite app_nil_r in Hin.
              contradiction.
           ++ simpl in Hh, Hin. unfold nextTarget in Hh, Hin. rewrite E in Hh, Hin.
              simpl in Hh, Hin.
              exists d, u. split; [lia |]. split; [exact Hh |].
              apply in_app_iff in Hin as [Hin | [Hin | Hin]].
              ** apply in_app_iff. left. apply setHas_In. rewrite setHas_setAdd.
                 apply setHas_In in Hin. rewrite Hin. reflexivity.
              ** subst u. apply in_app_iff. left. apply setHas_In.
                 rewrite setHas_setAdd, String.eqb_refl. apply orb_true_r.
              ** apply in_app_iff. right. exact Hin.
      * split; [congruence |].
        intros [d [u [L [Hh Hin]]]]. exfalso. destruct d as [| d].
        -- simpl in Hh, Hin. injection Hh as <-. rewrite app_nil_r in Hin.
           contradiction.
        -- simpl in Hh. unfold nextTarget in Hh. rewrite E in Hh. discriminate Hh.
Qed.

(** One record: a self-reference gives one issue; otherwise there is one
    issue exactly when a visited name comes up again within 10 hops. *)
Lemma cnameIssues_spec (r : DNSRecord) :
  (selfReference r = true ->
   cnameIssues cnames r = [selfReferenceIssue (toLowerCase (name r))])
  /\ (selfReference r = false -> revisitsWithin cnames r 10 ->
      cnameIssues cnames r = [circularChainIssue (toLowerCase (name r))])
  /\ (selfReference r = false -> ~ revisitsWithin cnames r 10 ->
      cnameIssues cnames r = []).
Proof.
  unfold selfReference, cnameIssues, revisitsWithin.
  pose proof (followChain_revisit 10 0 (setAdd (toLowerCase (name r)) [])
                (toLowerCase (data r))) as F.
  change (setAdd (toLowerCase (name r)) []) with [toLowerCase (name r)] in *.
  destruct (String.eqb (toLowerCase (name r)) (toLowerCase (data r))).
  - split; [reflexivity | split; discriminate].
  - split; [discriminate |].
    destruct (followChain cnames 10 0 [toLowerCase (name r)] (toLowerCase (data r)))
      as [n |].
    + split; [reflexivity |]. intros _ N. exfalso. apply N.
      apply F. discriminate.
    + split; [| reflexivity]. intros _ R. exfalso.
      apply (proj2 F); [exact R | reflexivity].
Qed.

End CnameFacts.

Section FoldFlatMap.

Lemma fold_app_flat_map {A B : Type} (f : A -> list B) (l : list A) :
  forall acc, fold_left (fun acc x => (acc ++ f x)%list) l acc
              = (acc ++ flat_map f l)%list.
Proof.
  induction l as [| x l IH]; intro acc; simpl.
  - rewrite app_nil_r. reflexivity.
  - rewrite IH, app_assoc. reflexivity.
Qed.

End FoldFlatMap.

(** C7. [detectCircularCNAME] emits, record by record: for a record whose
    name equals its target ignoring case, one critical issue; otherwise one
    critical issue exactly when, following the target through the same
    CNAME set with a visited set that starts afresh with the record's own
    name, a visited name comes up again within 10 hops, and nothing when it
    does not (the chain ends or stays fresh).  The set
    [a.example.com -> b.example.com, b.example.com -> a.example.com] yields
    a critical issue and [a -> b, b -> c] yields none. *)
Theorem detectCircularCNAME_spec (dnsRecords : Engine.RecordSet) (domain : string) :
  let cnames := Detector.recordsOf dnsRecords "CNAME" in
  Detector.detectCircularCNAME dnsRecords domain
  = flat_map (Detector.cnameIssues cnames) cnames
  /\ (forall r,
        (Spec.selfReference r = true ->
         Detector.cnameIssues cnames r
         = [Detector.selfReferenceIssue (JS.toLowerCase (Engine.name r))])
        /\ (Spec.selfReference r = false -> Spec.revisitsWithin cnames r 10 ->
            Detector.cnameIssues cnames r
            = [Detector.circularChainIssue (JS.toLowerCase (Engine.name r))])
        /\ (Spec.selfReference r = false -> ~ Spec.revisitsWithin cnames r 10 ->
            Detector.cnameIssues cnames r = []))
  /\ (forall n, Detector.severity (Detector.selfReferenceIssue n) = Detector.CRITICAL
                /\ Detector.severity (Detector.circularChainIssue n) = Detector.CRITICAL)
  /\ existsb Spec.isCritical
       (Detector.detectCircularCNAME
          (Spec.cnameSet [("a.example.com", "b.example.com");
                          ("b.example.com", "a.example.com")]) "example.com") = true
  /\ Detector.detectCircularCNAME
       (Spec.cnameSet [("a", "b"); ("b", "c")]) "example.com" = [].
Proof.
  intro cnames. split; [| split; [| split; [| split]]].
  - unfold Detector.detectCircularCNAME. fold cnames.
    rewrite fold_app_flat_map. reflexivity.
  - intro r. apply cnameIssues_spec.
  - intro n. split; reflexivity.
  - vm_compute. reflexivity.
  - vm_compute. reflexivity.
Qed.

Lemma detectCircularCNAME_spec_witness :
  Detector.cnameIssues
    [Spec.record "Loop.example.com" "CNAME" 300 "loop.EXAMPLE.com"]
    (Spec.record "Loop.example.com" "CNAME" 300 "loop.EXAMPLE.com")
  = [Detector.selfReferenceIssue "loop.example.com"].
Proof.
  refine (proj1 (proj1 (proj2 (@detectCircularCNAME_spec
            (Spec.cnameSet [("Loop.example.com", "loop.EXAMPLE.com")]) "example.com"))
            (Spec.record "Loop.example.com" "CNAME" 300 "loop.EXAMPLE.com")) _).
  vm_compute. reflexivity.
Defined.

(** The comparison ignores the case of the letters above the ASCII range
    too: a record from the name that begins with a capital E acute (code
    unit 201) to the same name with a small e acute (code unit 233) points
    to itself. *)
Lemma detectCircularCNAME_latin1_case :
  Detector.detectCircularCNAME
    (Spec.cnameSet [(String (ascii_of_nat 201) ".example.com",
                     String (ascii_of_nat 233) ".example.com")]) "example.com"
  = [Detector.selfReferenceIssue (String (ascii_of_nat 233) ".example.com")].
Proof. vm_compute. reflexivity. Qed.

(** ** MX validation *)

Section MxFacts.
Import JS Engine Detector Spec.

Lemma number_eqb_eq (a b : number) : number_eqb a b = true <-> a = b.
Proof.
  destruct a as [| x | x], b as [| y | y]; simpl; split; intro H;
    try discriminate; try reflexivity.
  - apply Z.eqb_eq in H. congruence.
  - injection H as ->. apply Z.eqb_refl.
  - apply Bool.eqb_prop in H. congruence.
  - injection H as ->. apply Bool.eqb_reflx.
Qed.

Lemma seenIn_snoc (earlier : list DNSRecord) (r : DNSRecord) (q : number) :
  seenIn (earlier ++ [r]) q
  = seenIn earlier q || match mxPriority r with
                        | Some p => number_eqb q p
                        | None => false
                        end.
Proof. unfold seenIn. rewrite existsb_app. simpl. rewrite orb_false_r. reflexivity. Qed.

(** One iteration, read through [mxPriority]. *)
Lemma mxStep_priority (errors : list Issue) (priorities : list number)
    (r : DNSRecord) :
  mxStep (errors, priorities) r
  = match mxPriority r with
    | None => ((errors ++ [mxFormatIssue r])%list, priorities)
    | Some p =>
        ((errors
          ++ (if invalidPriority p then [mxPriorityIssue r (mxToken0 r)] else [])
          ++ (if existsb (number_eqb p) priorities then [mxDuplicateIssue r p] else []))%list,
         if existsb (number_eqb p) priorities then priorities
         else (priorities ++ [p])%list)
    end.
Proof.
  unfold mxStep, mxPriority, mxToken0.
  destruct (split " " (data r)) as [| token0 [| token1 rest]]; try reflexivity.
  destruct (invalidPriority (parseInt token0)),
    (existsb (number_eqb (parseInt token0)) priorities); simpl;
    rewrite ?app_nil_r, <- ?app_assoc; reflexivity.
Qed.

(** The loop with its set of priorities emits what the record-by-record
    reading expects. *)
Lemma mxLoop_expected (rs : list DNSRecord) :
  forall earlier errors priorities,
    (forall q, existsb (number_eqb q) priorities = seenIn earlier q) ->
    fst (fold_left mxStep rs (errors, priorities))
    = (errors ++ mxExpected earlier rs)%list.
Proof.
  induction rs as [| r rs IH]; intros earlier errors priorities Inv;
    cbn [fold_left mxExpected].
  - rewrite app_nil_r. reflexivity.
  - rewrite mxStep_priority. unfold mxIssuesFor, duplicatesEarlier.
    destruct (mxPriority r) as [p |] eqn:P.
    + rewrite <- Inv.
      rewrite (IH (earlier ++ [r])%list); [rewrite <- !app_assoc; reflexivity |].
      intro q. rewrite seenIn_snoc, P, <- Inv.
      destruct (existsb (number_eqb p) priorities) eqn:D.
      * destruct (number_eqb q p) eqn:Q; [| rewrite orb_false_r; reflexivity].
        apply number_eqb_eq in Q. subst q. rewrite D. reflexivity.
      * rewrite existsb_app. simpl. rewrite orb_false_r. reflexivity.
    + rewrite (IH (earlier ++ [r])%list); [rewrite <- !app_assoc; reflexivity |].
      intro q. rewrite seenIn_snoc, P, orb_false_r. apply Inv.
Qed.

End MxFacts.

(** C8 (as the code has it). [validateMXRecords] emits, record by record:
    one critical issue when the data has fewer than two space-separated
    tokens; otherwise one critical issue when [parseInt] of the first token
    is not an integer in [0, 65535], and one warning issue when that parsed
    priority is the priority of an earlier record with at least two tokens.
    The priorities are compared as the Numbers that [parseInt] returns, so
    that two integers beyond [2^53] with the same nearest double are one
    priority.  Every issue has type configuration-error; the two records
    [10 mail.example.com] and [10 mail2.example.com] yield exactly one
    issue, a warning; and the priorities [9007199254740993] and
    [9007199254740992] yield, after the critical issue of each, the warning
    for the duplicate [9007199254740992]. *)
Theorem validateMXRecords_spec (dnsRecords : Engine.RecordSet) :
  Detector.validateMXRecords dnsRecords
  = Spec.mxExpected [] (Detector.recordsOf dnsRecords "MX")
  /\ (forall earlier r,
        List.length (filter Spec.isCritical (Spec.mxIssuesFor earlier r))
        = (if Spec.mxMalformed r then 1 else 0)
        /\ List.length (filter Spec.isWarning (Spec.mxIssuesFor earlier r))
           = (if Spec.duplicatesEarlier earlier r then 1 else 0)
        /\ Forall (fun i => Detector.type i = Detector.CONFIGURATION_ERROR)
                  (Spec.mxIssuesFor earlier r))
  /\ map (fun i => (Detector.type i, Detector.severity i))
         (Detector.validateMXRecords
            (Spec.mxSet ["10 mail.example.com"; "10 mail2.example.com"]))
     = [(Detector.CONFIGURATION_ERROR, Detector.WARNING)]
  /\ map (fun i => (Detector.severity i, Detector.message i))
         (Detector.validateMXRecords
            (Spec.mxSet ["9007199254740993 a.example.com";
                         "9007199254740992 b.example.com"]))
     = [(Detector.CRITICAL, "Invalid MX priority: 9007199254740993");
        (Detector.CRITICAL, "Invalid MX priority: 9007199254740992");
        (Detector.WARNING, "Duplicate MX priority: 9007199254740992")].
Proof.
  split; [| split; [| split]].
  - unfold Detector.validateMXRecords. rewrite (mxLoop_expected _ []); reflexivity.
  - intros earlier r.
    unfold Spec.mxIssuesFor, Spec.mxMalformed, Spec.duplicatesEarlier.
    destruct (Spec.mxPriority r) as [p |].
    + destruct (Detector.invalidPriority p), (Spec.seenIn earlier p);
        repeat split; repeat constructor.
    + repeat split; repeat constructor.
  - vm_compute. reflexivity.
  - vm_compute. reflexivity.
Qed.

(** C8, the claim as worded fails: a record whose data has a third token
    does not split into exactly a priority and a hostname, yet no issue is
    emitted for it. *)
Lemma validateMXRecords_accepts_extra_token :
  Spec.wellFormedMX "10 mail.example.com backup" = false
  /\ Detector.validateMXRecords (Spec.mxSet ["10 mail.example.com backup"]) = [].
Proof. split; vm_compute; reflexivity. Qed.

(** ** SPF validation *)

Section SpfFacts.
Import JS Engine Detector Spec.

Lemma prefix_includes (s sub : string) : String.prefix sub s = true -> includes s sub = true.
Proof. intro H. destruct s; simpl in *; rewrite H; reflexivity. Qed.

Lemma includes_cons (c : ascii) (s sub : string) :
  includes s sub = true -> includes (String c s) sub = true.
Proof. intro H. simpl. rewrite H. apply orb_true_r. Qed.

(** A string that contains [c :: sub] contains [sub]. *)
Lemma includes_tail (c : ascii) (sub : string) :
  forall s, includes s (String c sub) = true -> includes s sub = true.
Proof.
  induction s as [| a s IH]; simpl.
  - rewrite orb_false_r. discriminate.
  - intro H. apply orb_true_iff in H as [H | H].
    + destruct (Ascii.ascii_dec c a) as [E | N]; [| discriminate H].
      apply orb_true_iff. right. apply prefix_includes. exact H.
    + apply orb_true_iff. right. apply IH. exact H.
Qed.

(** A record without the substring [all] gets the termination warning. *)
Lemma spf_without_all_warns (r : DNSRecord) :
  includes (data r) "all" = false -> In (spfTerminationWarning r) (validateSPFRecord r).
Proof.
  intro H. unfold validateSPFRecord.
  assert (T : existsb (fun term => includes (data r) term)
                      ["all"; "~all"; "-all"; "?all"] = false).
  { simpl. rewrite H. simpl.
    repeat match goal with
           | |- context [includes (data r) (String ?c "all")] =>
               let E := fresh "E" in
               destruct (includes (data r) (String c "all")) eqn:E;
               [apply includes_tail in E; congruence |]
           end.
    reflexivity. }
  rewrite T. simpl. apply in_or_app. right. left. reflexivity.
Qed.

(** More than 10 lookup mechanisms give a critical issue. *)
Lemma spf_lookup_limit (r : DNSRecord) :
  10 < lookupMechanisms (data r) ->
  exists i, In i (validateSPFRecord r)
            /\ severity i = CRITICAL
            /\ message i = "SPF record exceeds DNS lookup limit ("
                           ++ string_of_nat (lookupMechanisms (data r)) ++ "/10)".
Proof.
  intro H. unfold validateSPFRecord.
  destruct (Nat.ltb_spec 10 (lookupMechanisms (data r))) as [_ | L]; [| lia].
  eexists. split.
  - apply in_or_app. right. apply in_or_app. right. left. reflexivity.
  - split; reflexivity.
Qed.

(** More than one TXT record bearing [v=spf1] gives the critical
    multiple-records issue. *)
Lemma spf_multiple_records (dnsRecords : RecordSet) (domain : string) :
  1 < List.length (filter (fun record => includes (toLowerCase (data record)) "v=spf1")
                          (recordsOf dnsRecords "TXT")) ->
  exists i, In i (validateSecurityRecords dnsRecords domain)
            /\ severity i = CRITICAL /\ type i = CONFIGURATION_ERROR
            /\ String.prefix "Multiple SPF records found" (message i) = true.
Proof.
  intro H. unfold validateSecurityRecords.
  set (spf := filter (fun record => includes (toLowerCase (data record)) "v=spf1")
                     (recordsOf dnsRecords "TXT")) in *.
  destruct (recordsOf dnsRecords "TXT") as [| t ts] eqn:T.
  - subst spf. simpl in H. lia.
  - cbn [nonEmpty negb]. cbv iota.
    destruct spf as [| s1 [| s2 rest]] eqn:S; simpl in H; try lia.
    cbn [nonEmpty negb]. cbv iota.
    eexists. split.
    + apply in_or_app. left. apply in_or_app. right.
      destruct (Nat.ltb_spec 1 (List.length (s1 :: s2 :: rest))) as [_ | L];
        [left; reflexivity | simpl in L; lia].
    + repeat split.
Qed.

End SpfFacts.

(** C9, evaluated. The TXT record [v=spf1 include:_spf.smallbiz.example]
    bears SPF and has no terminating [all] mechanism, yet SPF validation
    emits no issue for it: the termination test looks for the substring
    [all] anywhere in the record and finds it inside [smallbiz]. *)
Theorem validateSPFRecord_misses_absent_terminator :
  JS.includes (JS.toLowerCase "v=spf1 include:_spf.smallbiz.example") "v=spf1" = true
  /\ Spec.hasTerminatingAll "v=spf1 include:_spf.smallbiz.example" = false
  /\ Detector.validateSPFRecord
       (Spec.record "example.com" "TXT" 300 "v=spf1 include:_spf.smallbiz.example") = []
  /\ filter Spec.isWarning
       (Detector.validateSecurityRecords
          (Spec.txtSet ["v=spf1 include:_spf.smallbiz.example"]) "example.com") = []
  /\ Detector.validateSPFRecord
       (Spec.record "example.com" "TXT" 300 "v=spf1 include:_spf.example.net")
     = [Spec.spfTerminationWarning
          (Spec.record "example.com" "TXT" 300 "v=spf1 include:_spf.example.net")].
Proof. repeat split; vm_compute; reflexivity. Qed.

(** ** analyzeConfiguration *)

Section ReportFacts.
Import JS Engine Detector Spec.

(** The loop over the issues appends each one to the sequence of its
    severity and counts it there. *)
Lemma categorize_fold (l : list Issue) :
  forall a : AnalysisReport,
    let a' := fold_left categorize l a in
    errors a' = (errors a ++ filter isCritical l)%list
    /\ warnings a' = (warnings a ++ filter isWarning l)%list
    /\ info a' = (info a ++ filter isInfo l)%list
    /\ Summary.criticalErrors (summary a')
       = Summary.criticalErrors (summary a) + List.length (filter isCritical l)
    /\ Summary.warnings (summary a')
       = Summary.warnings (summary a) + List.length (filter isWarning l)
    /\ Summary.infoItems (summary a')
       = Summary.infoItems (summary a) + List.length (filter isInfo l).
Proof.
  induction l as [| i l IH]; intro a; cbn [fold_left filter].
  - cbv zeta. rewrite !app_nil_r, !Nat.add_0_r. repeat split.
  - specialize (IH (categorize a i)). cbv zeta in IH |- *.
    destruct IH as [E [W [I [CE [CW CI]]]]].
    rewrite E, W, I, CE, CW, CI.
    unfold categorize, isCritical, isWarning, isInfo.
    destruct (severity i); cbn [severity_eqb errors warnings info summary
                                  Summary.criticalErrors Summary.warnings
                                  Summary.infoItems List.length];
      rewrite <- ?app_assoc; cbn [app];
      repeat split; lia.
Qed.

Lemma severity_partition (l : list Issue) :
  List.length l
  = List.length (filter isCritical l) + List.length (filter isWarning l)
    + List.length (filter isInfo l).
Proof.
  induction l as [| i l IH]; simpl; [reflexivity |].
  unfold isCritical, isWarning, isInfo in *.
  destruct (severity i); simpl; lia.
Qed.

End ReportFacts.

(** C10. The report of [analyzeConfiguration] is consistent: each count of
    the summary is the length of its sequence, [totalIssues] is their sum,
    and the three sequences are the issues of the five evaluators with
    severity critical, warning and info respectively, in emission order. *)
Theorem analyzeConfiguration_consistent (dnsRecords : Engine.RecordSet) (domain : string) :
  let a := Detector.analyzeConfiguration dnsRecords domain in
  Detector.Summary.criticalErrors (Detector.summary a) = List.length (Detector.errors a)
  /\ Detector.Summary.warnings (Detector.summary a) = List.length (Detector.warnings a)
  /\ Detector.Summary.infoItems (Detector.summary a) = List.length (Detector.info a)
  /\ Detector.Summary.totalIssues (Detector.summary a)
     = List.length (Detector.errors a) + List.length (Detector.warnings a)
       + List.length (Detector.info a)
  /\ Detector.errors a = filter Spec.isCritical (Detector.allIssues dnsRecords domain)
  /\ Detector.warnings a = filter Spec.isWarning (Detector.allIssues dnsRecords domain)
  /\ Detector.info a = filter Spec.isInfo (Detector.allIssues dnsRecords domain).
Proof.
  intro a. subst a. unfold Detector.analyzeConfiguration.
  pose proof (categorize_fold (Detector.allIssues dnsRecords domain)
                {| Detector.domain := domain; Detector.errors := [];
                   Detector.warnings := []; Detector.info := [];
                   Detector.summary :=
                     {| Detector.Summary.totalIssues := 0;
                        Detector.Summary.criticalErrors := 0;
                        Detector.Summary.warnings := 0;
                        Detector.Summary.infoItems := 0 |} |}) as H.
  cbv zeta in H |- *.
  destruct H as [E [W [I [CE [CW CI]]]]].
  cbn [Detector.errors Detector.warnings Detector.info Detector.summary
       Detector.Summary.totalIssues Detector.Summary.criticalErrors
       Detector.Summary.warnings Detector.Summary.infoItems] in *.
  rewrite E, W, I, CE, CW, CI. cbn [app Nat.add].
  repeat split; try reflexivity.
  apply severity_partition.
Qed.

(** ** More on validateDomain *)

Section DomainCharacterisation.
Import JS Regex Engine Spec.

Lemma length_str (w : list ascii) : String.length (str w) = List.length w.
Proof. induction w as [| c w IH]; simpl; [reflexivity | rewrite IH; reflexivity]. Qed.

Lemma str_chars (s : string) : str (chars s) = s.
Proof. apply string_of_list_ascii_of_string. Qed.

Lemma length_chars (s : string) : List.length (chars s) = String.length s.
Proof. rewrite <- (str_chars s) at 2. symmetry. apply length_str. Qed.

Lemma split_on_nonempty (sep : ascii) (s : list ascii) : split_on sep s <> [].
Proof.
  destruct s as [| c s]; simpl; [discriminate |].
  destruct (Ascii.eqb c sep); [discriminate |].
  destruct (split_on sep s); discriminate.
Qed.

(** Splitting on a separator and joining with it gives the string back. *)
Lemma join_split_on (sep : ascii) (s : list ascii) : join sep (split_on sep s) = s.
Proof.
  induction s as [| c s IH]; simpl; [reflexivity |].
  pose proof (split_on_nonempty sep s) as NE.
  destruct (split_on sep s) as [| l ls]; [congruence |].
  rewrite <- IH.
  destruct (Ascii.eqb_spec c sep) as [-> | N]; [reflexivity |].
  destruct ls; reflexivity.
Qed.

Lemma existsb_map_str (f : string -> bool) (l : list (list ascii)) :
  existsb f (map str l) = existsb (fun w => f (str w)) l.
Proof. induction l as [| w l IH]; simpl; [| rewrite IH]; reflexivity. Qed.

Lemma forallb_map_str (f : string -> bool) (l : list (list ascii)) :
  forallb f (map str l) = forallb (fun w => f (str w)) l.
Proof. induction l as [| w l IH]; simpl; [| rewrite IH]; reflexivity. Qed.

Lemma upto_Forall_length (n : nat) (p : ascii -> bool) :
  forall w, matches (upto n (Class p)) w ->
            Forall (fun c => p c = true) w /\ List.length w <= n.
Proof.
  induction n as [| n IH]; simpl; intros w H.
  - inv H. split; [constructor | simpl; lia].
  - inv H.
    + match goal with M : matches Eps _ |- _ => inv M end.
      split; [constructor | simpl; lia].
    + match goal with M : matches (Cat _ _) _ |- _ => inv M end.
      match goal with M : matches (Class _) _ |- _ => inv M end.
      match goal with M : matches (upto _ _) _ |- _ => destruct (IH _ M) as [F L] end.
      simpl. split; [constructor; assumption | lia].
Qed.

Lemma upto_complete (p : ascii -> bool) (n : nat) :
  forall w, Forall (fun c => p c = true) w -> List.length w <= n ->
            matches (upto n (Class p)) w.
Proof.
  induction n as [| n IH]; intros w F L.
  - destruct w; [constructor | simpl in L; lia].
  - destruct w as [| c w]; [apply MAltL; constructor |].
    apply MAltR. change (c :: w) with ([c] ++ w)%list.
    inversion F; subst. constructor; [constructor; assumption |].
    apply IH; [assumption | simpl in L; lia].
Qed.

Lemma labelChar_alnum (c : ascii) : is_alnum c = true -> labelChar c = true.
Proof. intro H. unfold labelChar. rewrite H. reflexivity. Qed.

Lemma label_shape_good (n : nat) (w : list ascii) :
  n <= 61 ->
  matches (Cat (Class is_alnum)
             (Opt (Cat (upto n (Class labelChar)) (Class is_alnum)))) w ->
  goodLabelChars w = true.
Proof.
  intros Ln M. inv M.
  match goal with M : matches (Class _) _ |- _ => inv M end.
  match goal with M : matches (Opt _) _ |- _ => inv M end.
  - match goal with M : matches Eps _ |- _ => inv M end.
    unfold goodLabelChars. simpl.
    match goal with K : is_alnum ?c = true |- _ =>
      rewrite K, (labelChar_alnum _ K) end. reflexivity.
  - match goal with M : matches (Cat _ _) _ |- _ => inv M end.
    match goal with M : matches (Class _) _ |- _ => inv M end.
    match goal with M : matches (upto _ _) ?m |- _ =>
      destruct (@upto_Forall_length _ _ _ M) as [F Lm]; rename m into middle end.
    match goal with |- goodLabelChars ([?c] ++ _ ++ [?d])%list = true =>
      rename c into first; rename d into last end.
    assert (K1 : is_alnum first = true) by assumption.
    assert (K2 : is_alnum last = true) by assumption.
    unfold goodLabelChars. cbn [app List.length rev].
    rewrite length_app, rev_app_distr. cbn [List.length rev app Nat.add].
    rewrite K1, K2. cbn [forallb]. rewrite (labelChar_alnum _ K1), forallb_app.
    cbn [forallb]. rewrite (labelChar_alnum _ K2).
    rewrite (proj2 (forallb_forall _ _)) by (apply Forall_forall; exact F).
    destruct (Nat.leb_spec (S (List.length middle + 1)) 63); [reflexivity | lia].
Qed.

(** The strings of [label] are the good labels. *)
Lemma label_good (w : list ascii) : matches label w <-> goodLabelChars w = true.
Proof.
  split.
  - exact (@label_shape_good 61 w (le_n _)).
  - unfold goodLabelChars. intro H.
    apply andb_true_iff in H as [H Hlast].
    apply andb_true_iff in H as [H Hfirst].
    apply andb_true_iff in H as [H Hall].
    apply andb_true_iff in H as [_ Hlen].
    apply Nat.leb_le in Hlen.
    destruct w as [| c w]; [discriminate |].
    change (c :: w) with ([c] ++ w)%list.
    unfold label. constructor; [constructor; assumption |].
    destruct (list_eq_dec Ascii.ascii_dec w []) as [-> | NE];
      [apply MAltL; constructor |].
    destruct (@exists_last _ w NE) as [m [d ->]].
    apply MAltR. constructor.
    + simpl in Hall. apply andb_true_iff in Hall as [_ Hall].
      rewrite forallb_app in Hall. apply andb_true_iff in Hall as [Hall _].
      apply upto_complete.
      * apply Forall_forall. apply forallb_forall. exact Hall.
      * simpl in Hlen. rewrite length_app in Hlen. simpl in Hlen. lia.
    + constructor. cbn [rev] in Hlast. rewrite rev_app_distr in Hlast.
      simpl in Hlast. exact Hlast.
Qed.

Lemma matches_joined (ls : list (list ascii)) :
  ls <> [] -> Forall (fun w => goodLabelChars w = true) ls ->
  matches domainRegex (join "." ls).
Proof.
  intros NE F. unfold domainRegex.
  assert (G : forall ls, Forall (fun w => goodLabelChars w = true) ls ->
              forall l, goodLabelChars l = true ->
              exists pre, matches (Star (Cat label (Class (fun c => Ascii.eqb c "."))))
                            pre
                          /\ join "." (ls ++ [l]) = (pre ++ l)%list).
  { clear. induction ls as [| x xs IH]; intros Fx l Gl.
    - exists []. split; [constructor | reflexivity].
    - inversion Fx; subst. destruct (IH H2 l Gl) as [pre [Mp E]].
      exists ((x ++ ["."%char]) ++ pre)%list. split.
      + constructor; [| exact Mp].
        constructor; [apply label_good; assumption | constructor; reflexivity].
      + change ((x :: xs) ++ [l])%list with (x :: (xs ++ [l]))%list.
        destruct (xs ++ [l])%list as [| y ys] eqn:Y;
          [destruct xs; discriminate Y |].
        transitivity (x ++ "."%char :: join "." (y :: ys))%list; [reflexivity |].
        rewrite E, <- !app_assoc. reflexivity. }
  destruct (@exists_last _ ls NE) as [init [l ->]].
  apply Forall_app in F as [Fi Fl]. inversion Fl; subst.
  destruct (G init Fi l H1) as [pre [Mp ->]].
  constructor; [exact Mp | apply label_good; assumption].
Qed.

Lemma forallb_ext_chars (l : list (list ascii)) :
  forallb (fun w => goodLabelChars (chars (str w))) l = forallb goodLabelChars l.
Proof.
  induction l as [| w l IH]; simpl; [reflexivity |].
  rewrite IH, chars_str. reflexivity.
Qed.

Lemma star_good_labels (s w : list ascii) :
  matches (Star (Cat label (Class (fun c => Ascii.eqb c ".")))) s ->
  noDot w -> goodLabelChars w = true ->
  Forall (fun l => goodLabelChars l = true) (split_on "." (s ++ w)).
Proof.
  intros H Hw Gw.
  remember (Star (Cat label (Class (fun c => Ascii.eqb c ".")))) as r eqn:R.
  induction H as [| | | | | r0 | r0 s1 s2 M1 IH1 M2 IH2]; try discriminate.
  - simpl. rewrite split_on_noDot by exact Hw. constructor; [exact Gw | constructor].
  - injection R as ->. specialize (IH2 eq_refl).
    inv M1.
    match goal with M : matches (Class _) _ |- _ => inv M end.
    match goal with K : Ascii.eqb _ _ = true |- _ => apply Ascii.eqb_eq in K; subst end.
    match goal with M : matches label ?l |- _ =>
      pose proof (label_wellFormed M) as WF; apply label_good in M; rename M into G end.
    rewrite <- !app_assoc. simpl.
    rewrite split_on_app by apply WF. constructor; assumption.
Qed.

Lemma domainRegex_good_labels (s : list ascii) :
  matches domainRegex s ->
  Forall (fun l => goodLabelChars l = true) (split_on "." s).
Proof.
  unfold domainRegex. intro H. inv H.
  match goal with M : matches label ?l |- _ =>
    pose proof (label_wellFormed M) as WF; apply label_good in M; rename M into G end.
  match goal with M : matches (Star _) _ |- _ =>
    exact (star_good_labels M (proj2 (proj2 WF)) G) end.
Qed.

(** [validateDomain] accepts exactly the good domains. *)
Lemma validateDomain_good (s : string) : validateDomain s = goodDomain s.
Proof.
  unfold validateDomain, goodDomain.
  destruct (String.eqb s "") eqn:E0; [reflexivity |]. cbn [negb andb].
  set (clean := stripTrailingDot s).
  destruct (Nat.eqb_spec (String.length clean) 0) as [Z | NZ].
  - rewrite Z. reflexivity.
  - assert (H1 : (1 <=? String.length clean)%nat = true) by (apply Nat.leb_le; lia).
    rewrite H1. cbn [orb andb].
    destruct (Nat.ltb_spec 253 (String.length clean)) as [L | L].
    { destruct (Nat.leb_spec (String.length clean) 253); [lia | reflexivity]. }
    destruct (Nat.leb_spec (String.length clean) 253) as [_ | ?]; [| lia]. cbn [andb].
    unfold split, goodLabel. rewrite existsb_map_str, forallb_map_str.
    rewrite (forallb_ext_chars (split_on "." (chars clean))).
    destruct (existsb _ (split_on "." (chars clean))) eqn:Ex.
    + symmetry. apply not_true_is_false. intro F.
      apply existsb_exists in Ex as [w [Hw Bad]].
      rewrite forallb_forall in F. specialize (F w Hw).
      unfold goodLabelChars in F. rewrite length_str in Bad.
      destruct w as [| c w]; [discriminate F |].
      simpl in Bad. apply Nat.ltb_lt in Bad.
      apply andb_true_iff in F as [F _]. apply andb_true_iff in F as [F _].
      apply andb_true_iff in F as [F _]. apply andb_true_iff in F as [_ F].
      apply Nat.leb_le in F. simpl in F. lia.
    + unfold Regex.test.
      destruct (forallb goodLabelChars (split_on "." (chars clean))) eqn:All.
      * apply matchb_matches. rewrite <- (join_split_on "." (chars clean)).
        apply matches_joined; [apply split_on_nonempty |].
        apply Forall_forall. apply forallb_forall. exact All.
      * apply not_true_is_false. intro T.
        apply matchb_matches in T. 
        assert (F : Forall (fun w => goodLabelChars w = true)
                           (split_on "." (chars clean))).
        { apply domainRegex_good_labels. exact T. }
        rewrite Forall_forall, <- forallb_forall in F. congruence.
Qed.

End DomainCharacterisation.

(** X1. [validateDomain] accepts exactly the non-empty strings that,
    without one trailing dot, have 1 to 253 characters and split at the
    dots into labels of 1 to 63 letters, digits and hyphens, each beginning
    and ending with a letter or a digit. *)
Theorem validateDomain_accepts_exactly (s : string) :
  Engine.validateDomain s = Spec.goodDomain s.
Proof. apply validateDomain_good. Qed.

Section TrailingDot.
Import JS Engine Spec.

Lemma chars_append (s t : string) : chars (s ++ t) = (chars s ++ chars t)%list.
Proof. induction s as [| c s IH]; simpl; [reflexivity | rewrite IH; reflexivity]. Qed.

Lemma stripTrailingDot_dotted (s : string) : stripTrailingDot (s ++ ".") = s.
Proof.
  unfold stripTrailingDot. rewrite chars_append, rev_app_distr. simpl.
  rewrite rev_involutive. apply str_chars.
Qed.

Lemma stripTrailingDot_plain (s : string) :
  endsWithDot s = false -> stripTrailingDot s = s.
Proof.
  unfold endsWithDot, stripTrailingDot.
  destruct (rev (chars s)) as [| c t]; [reflexivity |].
  destruct (Ascii.eqb_spec c "."%char) as [-> | N]; [discriminate |].
  intros _. destruct c as [[] [] [] [] [] [] [] []]; try reflexivity.
  exfalso. apply N. reflexivity.
Qed.

End TrailingDot.

(** X2. A trailing dot does not change the verdict: for a string that
    does not end with a dot, [validateDomain] gives the same answer with
    and without a dot appended. *)
Theorem validateDomain_trailing_dot (s : string) :
  Spec.endsWithDot s = false ->
  Engine.validateDomain (s ++ ".") = Engine.validateDomain s.
Proof.
  intro H. unfold Engine.validateDomain.
  rewrite stripTrailingDot_dotted, (stripTrailingDot_plain _ H).
  destruct s as [| c s]; reflexivity.
Qed.

Lemma validateDomain_trailing_dot_witness :
  Engine.validateDomain ("www.example.com" ++ ".")
  = Engine.validateDomain "www.example.com".
Proof.
  apply (@validateDomain_trailing_dot "www.example.com"). vm_compute. reflexivity.
Defined.

(** ** More on the query engine *)

Section ParseFacts.
Import JS Engine Spec.

Lemma recordTypes_name_of_code (t : string) (c : Z) :
  lookup t recordTypes = Some c -> getRecordTypeName c = t.
Proof.
  unfold recordTypes. cbn [lookup].
  repeat match goal with
         | |- context [String.eqb ?k t] =>
             destruct (String.eqb_spec k t);
             [subst; intro H; injection H as <-; reflexivity |]
         end.
  discriminate.
Qed.

Lemma recordTypes_unknown_code (c : Z) :
  (forall t, lookup t recordTypes <> Some c) ->
  getRecordTypeName c = "TYPE" ++ string_of_Z c.
Proof.
  intro H. unfold getRecordTypeName.
  destruct (find (fun kv : string * Z => (snd kv =? c)%Z) recordTypes) as [[t c'] |] eqn:F;
    [| reflexivity].
  exfalso. apply find_some in F as [Hin E]. simpl in E. apply Z.eqb_eq in E. subst c'.
  apply (H t). unfold recordTypes in Hin.
  repeat (destruct Hin as [Hin | Hin]; [inversion Hin; subst; reflexivity |]).
  destruct Hin.
Qed.

End ParseFacts.

(** X3. The record-type table reads both ways: [getRecordTypeName] of the
    code of a supported record type is that type's name, and a code that
    no supported type has is rendered as [TYPE] followed by the code. *)
Theorem getRecordTypeName_inverts_table :
  (forall t c, Engine.lookup t Engine.recordTypes = Some c ->
               Engine.getRecordTypeName c = t)
  /\ (forall c, (forall t, Engine.lookup t Engine.recordTypes <> Some c) ->
                Engine.getRecordTypeName c = "TYPE" ++ JS.string_of_Z c).
Proof. split; [exact recordTypes_name_of_code | exact recordTypes_unknown_code]. Qed.

Lemma getRecordTypeName_inverts_table_witness :
  Engine.getRecordTypeName 28 = "AAAA".
Proof.
  apply (proj1 getRecordTypeName_inverts_table "AAAA" 28%Z). reflexivity.
Defined.

Section RetryCharacterisation.
Import JS Engine Spec.

Variables (cfg : Config) (net : Network) (domain recordType provider : string).

Lemma retryLoop_stops_at (a : nat) (fuel : nat) :
  forall attempt lastError,
    attempt + fuel = S (maxRetries cfg) ->
    attempt <= a <= maxRetries cfg ->
    (forall i, attempt <= i < a ->
               retryableFailure cfg net domain recordType provider i) ->
    decisive cfg net domain recordType provider a ->
    retryLoop cfg net domain recordType provider fuel attempt lastError
    = (backoffTrace cfg provider recordType attempt (S (a - attempt)),
       outcomeAt cfg net domain recordType provider a).
Proof.
  induction fuel as [| fuel IH]; intros attempt lastError I B R D; [lia |].
  cbn [retryLoop].
  destruct (Nat.eq_dec attempt a) as [-> | NE].
  - rewrite Nat.sub_diag. unfold decisive, outcomeAt in *.
    destruct (performQuery cfg net domain recordType provider a) as [r | e];
      [reflexivity |].
    destruct (noRetry (Engine.message e)); [reflexivity |].
    destruct D as [D | ->]; [discriminate |].
    rewrite Nat.eqb_refl. reflexivity.
  - destruct (R attempt) as [e [P N]]; [lia |].
    rewrite P, N.
    destruct (Nat.eqb_spec attempt (maxRetries cfg)) as [E | _]; [lia |].
    rewrite (IH (S attempt) (Some e)); [| lia | lia | intros i Hi; apply R; lia | exact D].
    replace (a - attempt) with (S (a - S attempt)) by lia.
    reflexivity.
Qed.

(** The requests and the delays of a backoff trace. *)
Lemma providersOf_backoffTrace (n : nat) :
  forall attempt,
    providersOf (backoffTrace cfg provider recordType attempt n)
    = if hasEndpoint provider then repeat provider n else [].
Proof.
  induction n as [| n IH]; intro attempt; [destruct (hasEndpoint provider); reflexivity |].
  destruct n as [| n'].
  - cbn [backoffTrace]. rewrite providersOf_request.
    destruct (hasEndpoint provider); reflexivity.
  - change (backoffTrace cfg provider recordType attempt (S (S n')))
      with (request provider recordType attempt
            ++ Sleep (retryDelay cfg * 2 ^ (Z.of_nat attempt - 1))%Z
               :: backoffTrace cfg provider recordType (S attempt) (S n'))%list.
    rewrite providersOf_app, providersOf_request.
    cbn [providersOf flat_map app].
    fold (providersOf (backoffTrace cfg provider recordType (S attempt) (S n'))).
    rewrite IH. destruct (hasEndpoint provider); reflexivity.
Qed.

Lemma delaysOf_request (attempt : nat) :
  delaysOf (request provider recordType attempt) = [].
Proof. unfold request. destruct (hasEndpoint provider); reflexivity. Qed.

Lemma delaysOf_backoffTrace (n : nat) :
  forall attempt,
    delaysOf (backoffTrace cfg provider recordType attempt n)
    = map (fun i => (retryDelay cfg * 2 ^ (Z.of_nat i - 1))%Z) (seq attempt (n - 1)).
Proof.
  induction n as [| n IH]; intro attempt; [reflexivity |].
  destruct n as [| n'].
  - cbn [backoffTrace]. apply delaysOf_request.
  - change (backoffTrace cfg provider recordType attempt (S (S n')))
      with (request provider recordType attempt
            ++ Sleep (retryDelay cfg * 2 ^ (Z.of_nat attempt - 1))%Z
               :: backoffTrace cfg provider recordType (S attempt) (S n'))%list.
    unfold delaysOf at 1. rewrite flat_map_app.
    fold (delaysOf (request provider recordType attempt)). rewrite delaysOf_request.
    cbn [flat_map app].
    fold (delaysOf (backoffTrace cfg provider recordType (S attempt) (S n'))).
    rewrite IH. replace (S (S n') - 1) with (S (S n' - 1)) by lia. reflexivity.
Qed.

(** Without an endpoint every attempt raises the TypeError of [new URL],
    which the retry test lets through. *)
Lemma no_endpoint_decisive (a : nat) :
  hasEndpoint provider = false ->
  decisive cfg net domain recordType provider a ->
  a = maxRetries cfg
  /\ outcomeAt cfg net domain recordType provider a = Throw (Some invalidURL).
Proof.
  unfold decisive, outcomeAt, performQuery. intros ->. cbn [negb].
  intros [N | E]; [discriminate N | split; [exact E | reflexivity]].
Qed.

End RetryCharacterisation.

(** X5. [queryWithRetry] stops at the first attempt that returns, that
    fails with an error the retry test stops on, or that is the last one
    allowed: when the attempts before [a] all fail with errors the test
    lets through, the outcome is that of attempt [a] (its result, or its
    error thrown), and the events are those of [a] attempts with the delay
    [retryDelay * 2^(i-1)] slept after the [i]-th of the first [a - 1].
    An attempt sends one request at a provider that has an endpoint.  At
    any other provider name [new URL] throws before the request: nothing
    is sent, every attempt allowed is made and slept after, and the
    TypeError of [new URL] is thrown. *)
Theorem queryWithRetry_stops_at_first_decisive
    (cfg : Engine.Config) (net : Engine.Network) (domain recordType provider : string)
    (a : nat) :
  1 <= a <= Engine.maxRetries cfg ->
  (forall i, 1 <= i < a -> Spec.retryableFailure cfg net domain recordType provider i) ->
  Spec.decisive cfg net domain recordType provider a ->
  Engine.queryWithRetry cfg net domain recordType provider
  = (Spec.backoffTrace cfg provider recordType 1 a,
     Spec.outcomeAt cfg net domain recordType provider a)
  /\ Spec.delaysOf (Spec.backoffTrace cfg provider recordType 1 a)
     = map (fun i => (Engine.retryDelay cfg * 2 ^ (Z.of_nat i - 1))%Z) (seq 1 (a - 1))
  /\ (Engine.hasEndpoint provider = true ->
      Spec.providersOf (Spec.backoffTrace cfg provider recordType 1 a)
      = repeat provider a)
  /\ (Engine.hasEndpoint provider = false ->
      Spec.providersOf (Spec.backoffTrace cfg provider recordType 1 a) = []
      /\ a = Engine.maxRetries cfg
      /\ Spec.outcomeAt cfg net domain recordType provider a
         = Engine.Throw (Some Engine.invalidURL)).
Proof.
  intros B R D. split; [| split; [apply delaysOf_backoffTrace | split]].
  - unfold Engine.queryWithRetry.
    rewrite (@retryLoop_stops_at cfg net domain recordType provider a
               (Engine.maxRetries cfg) 1 None); [| lia | lia | exact R | exact D].
    replace (S (a - 1)) with a by lia. reflexivity.
  - intro E. rewrite providersOf_backoffTrace, E. reflexivity.
  - intro E. rewrite providersOf_backoffTrace, E. split; [reflexivity |].
    exact (@no_endpoint_decisive cfg net domain recordType provider a E D).
Qed.

Lemma queryWithRetry_stops_at_first_decisive_witness :
  Engine.queryWithRetry Engine.defaultConfig (Spec.timesOut 2)
    "example.com" "A" "quad9"
  = ([Engine.Fetch "quad9" "A" 1; Engine.Sleep 1000;
      Engine.Fetch "quad9" "A" 2; Engine.Sleep 2000;
      Engine.Fetch "quad9" "A" 3],
     Spec.outcomeAt Engine.defaultConfig (Spec.timesOut 2) "example.com" "A" "quad9" 3).
Proof.
  refine (proj1 (@queryWithRetry_stops_at_first_decisive
            Engine.defaultConfig (Spec.timesOut 2) "example.com" "A" "quad9" 3 _ _ _)).
  - simpl. lia.
  - intros i Hi. assert (C : i = 1 \/ i = 2) by lia.
    destruct C as [-> | ->]; eexists; split; vm_compute; reflexivity.
  - exact I.
Defined.

Section RequestFacts.
Import JS Engine Spec.

Variables (cfg : Config) (net : Network) (domain recordType : string).

Lemma knownProvider_fallback (p : string) :
  knownProvider p = true -> In p fallbackOrder.
Proof.
  unfold knownProvider, dohProviders, fallbackOrder. cbn [lookup].
  repeat match goal with
         | |- context [String.eqb ?k p] =>
             destruct (String.eqb_spec k p); [subst; simpl; tauto |]
         end.
  discriminate.
Qed.

Lemma providerOrder_known (p : string) :
  List.length (filter knownProvider (providerOrder p)) <= 3.
Proof.
  unfold providerOrder, fallbackOrder. cbn [filter].
  destruct (String.eqb_spec "cloudflare" p) as [<- | N1]; [vm_compute; lia |].
  destruct (String.eqb_spec "google" p) as [<- | N2]; [vm_compute; lia |].
  destruct (String.eqb_spec "quad9" p) as [<- | N3]; [vm_compute; lia |].
  cbn [negb].
  assert (K : knownProvider p = false).
  { unfold knownProvider, dohProviders. cbn [lookup].
    destruct (String.eqb_spec "cloudflare" p); [congruence |].
    destruct (String.eqb_spec "google" p); [congruence |].
    destruct (String.eqb_spec "quad9" p); [congruence | reflexivity]. }
  rewrite K. vm_compute. lia.
Qed.

(** The requests of one provider's turn: at most [maxRetries] at a
    provider with an endpoint, none at any other. *)
Lemma turn_requests (p : string) :
  exists n,
    providersOf (fst (queryWithRetry cfg net domain recordType p)) = repeat p n
    /\ n <= (if knownProvider p then 1 else 0) * maxRetries cfg
    /\ (1 <= n -> In p fallbackOrder).
Proof.
  destruct (knownProvider p) eqn:K.
  - destruct (@queryWithRetry_attempts cfg net domain recordType p) as [n [Ln [_ Pn]]].
    exists n. split; [exact Pn |]. split; [lia |].
    intros _. apply knownProvider_fallback. exact K.
  - exists 0. split; [| split; [lia | lia]].
    unfold queryWithRetry. apply retryLoop_no_endpoint. exact K.
Qed.

(** The loop over the providers sends requests only to providers with an
    endpoint, to each at most [maxRetries]. *)
Lemma tryProviders_requests (ps : list string) :
  forall lastError,
    requests (fst (tryProviders cfg net domain recordType ps lastError))
    <= List.length (filter knownProvider ps) * maxRetries cfg
    /\ Forall (fun q => In q fallbackOrder)
              (providersOf (fst (tryProviders cfg net domain recordType ps lastError))).
Proof.
  induction ps as [| p ps IH]; intro lastError; cbn [tryProviders filter].
  - split; [unfold requests; simpl; lia | constructor].
  - assert (L : List.length (filter knownProvider ps) * maxRetries cfg
                <= List.length (if knownProvider p then p :: filter knownProvider ps
                                else filter knownProvider ps) * maxRetries cfg).
    { destruct (knownProvider p); cbn [List.length]; lia. }
    destruct (isSet p dohProviders); cbn [negb].
    2: { destruct (IH lastError) as [B F]. split; [lia | exact F]. }
    destruct (turn_requests p) as [n [Pn [Ln Kn]]].
    assert (Fp : Forall (fun q => In q fallbackOrder) (repeat p n)).
    { destruct n as [| n']; [constructor |].
      apply Forall_forall. intros q Hq. apply repeat_spec in Hq. subst q.
      apply Kn. lia. }
    assert (B0 : n + List.length (filter knownProvider ps) * maxRetries cfg
                 <= List.length (if knownProvider p then p :: filter knownProvider ps
                                 else filter knownProvider ps) * maxRetries cfg).
    { destruct (knownProvider p); cbn [List.length]; lia. }
    destruct (queryWithRetry cfg net domain recordType p) as [evs [r | [e |]]];
      cbn [fst snd] in *.
    + unfold requests. rewrite Pn, repeat_length. split; [lia | exact Fp].
    + destruct (IH (Some e)) as [B F].
      destruct (tryProviders cfg net domain recordType ps (Some e)) as [evs' r'].
      cbn [fst] in *. unfold requests in *.
      rewrite providersOf_app, length_app, Pn, repeat_length.
      split; [lia |]. apply Forall_app. split; [exact Fp | exact F].
    + unfold requests. rewrite Pn, repeat_length. split; [lia | exact Fp].
Qed.

Lemma queryDNS_requests (preferredProvider : string) :
  requests (fst (queryDNS cfg net domain recordType preferredProvider))
  <= 3 * maxRetries cfg
  /\ Forall (fun q => In q fallbackOrder)
            (providersOf (fst (queryDNS cfg net domain recordType preferredProvider))).
Proof.
  unfold queryDNS.
  destruct (validateDomain domain); cbn [negb];
    [| split; [unfold requests; simpl; lia | constructor]].
  destruct (isSet recordType recordTypes); cbn [negb];
    [| split; [unfold requests; simpl; lia | constructor]].
  destruct (tryProviders_requests (providerOrder preferredProvider) None) as [B F].
  split; [| exact F].
  pose proof (providerOrder_known preferredProvider) as K.
  eapply Nat.le_trans; [exact B |]. apply Nat.mul_le_mono_r. exact K.
Qed.

End RequestFacts.

(** X6. Whatever the record type, the preferred provider and the
    network, one [queryDNS] sends at most [3 * maxRetries] requests, all of
    them to cloudflare, google or quad9 (a preferred provider without an
    endpoint is sent nothing), and none at all for an invalid domain; with
    a retry limit accepted by [setMaxRetries] that is at most 30
    requests. *)
Theorem queryDNS_request_bound
    (cfg : Engine.Config) (net : Engine.Network)
    (domain recordType preferredProvider : string) :
  Spec.requests (fst (Engine.queryDNS cfg net domain recordType preferredProvider))
  <= 3 * Engine.maxRetries cfg
  /\ Forall (fun q => In q Engine.fallbackOrder)
       (Spec.providersOf (fst (Engine.queryDNS cfg net domain recordType preferredProvider)))
  /\ (Engine.validateDomain domain = false ->
      fst (Engine.queryDNS cfg net domain recordType preferredProvider) = [])
  /\ (forall n cfg',
        Engine.setMaxRetries cfg n = Engine.Return cfg' ->
        Spec.requests (fst (Engine.queryDNS cfg' net domain recordType preferredProvider))
        <= 30).
Proof.
  destruct (@queryDNS_requests cfg net domain recordType preferredProvider) as [B F].
  split; [exact B |]. split; [exact F |]. split.
  - unfold Engine.queryDNS. intros V. rewrite V. reflexivity.
  - intros n cfg' H. unfold Engine.setMaxRetries in H.
    destruct ((n <? 0)%Z || (10 <? n)%Z) eqn:R; [discriminate |].
    injection H as <-. apply orb_false_iff in R as [R1 R2].
    apply Z.ltb_ge in R1. apply Z.ltb_ge in R2.
    eapply Nat.le_trans; [apply queryDNS_requests |]. cbn [Engine.maxRetries]. lia.
Qed.

Lemma queryDNS_request_bound_witness :
  Spec.requests
    (fst (Engine.queryDNS
            {| Engine.timeout := 10000; Engine.maxRetries := 10;
               Engine.retryDelay := 1000 |}
            Spec.netDown "example.com" "A" "toString"))
  <= 30.
Proof.
  refine (proj2 (proj2 (proj2 (@queryDNS_request_bound Engine.defaultConfig Spec.netDown
                                 "example.com" "A" "toString"))) 10%Z _ _).
  reflexivity.
Defined.

(** With the network down and ten attempts allowed the bound is reached:
    thirty requests, ten at each provider, and none at the preferred
    provider [toString], which has no endpoint.  A record type named as a
    property that every object inherits passes the test of [queryDNS] and
    is queried like a supported one. *)
Lemma queryDNS_requests_reach_bound :
  Spec.providersOf
    (fst (Engine.queryDNS
            {| Engine.timeout := 10000; Engine.maxRetries := 10;
               Engine.retryDelay := 1000 |}
            Spec.netDown "example.com" "A" "toString"))
  = (repeat "cloudflare" 10 ++ repeat "google" 10 ++ repeat "quad9" 10)%list
  /\ fst (Engine.queryDNS Engine.defaultConfig Spec.netUp
             "example.com" "constructor" "cloudflare")
     = [Engine.Fetch "cloudflare" "constructor" 1].
Proof. split; vm_compute; reflexivity. Qed.

Section CategoryFacts.
Import JS Engine Spec.

Lemma categorizeError_cases (m : string) :
  In (categorizeError m) categories
  \/ (categorizeError m = m
      /\ includes m "timeout" = false /\ includes m "Network error" = false
      /\ includes m "Name Error" = false /\ includes m "NXDOMAIN" = false
      /\ includes m "Server Failure" = false /\ includes m "Refused" = false
      /\ includes m "All DNS providers failed" = false).
Proof.
  unfold categorizeError, categories.
  destruct (includes m "timeout"); [left; simpl; tauto |].
  destruct (includes m "Network error"); [left; simpl; tauto |].
  destruct (includes m "Name Error"); [left; simpl; tauto |].
  destruct (includes m "NXDOMAIN"); [left; simpl; tauto |].
  cbn [orb].
  destruct (includes m "Server Failure"); [left; simpl; tauto |].
  destruct (includes m "Refused"); [left; simpl; tauto |].
  destruct (includes m "All DNS providers failed"); [left; simpl; tauto |].
  right. repeat split.
Qed.

End CategoryFacts.

(** X7. [categorizeError] is idempotent, and so is safe to apply to a text
    that is already categorized: its six category texts contain none of
    the phrases it looks for, and a message without those phrases passes
    through unchanged. *)
Theorem categorizeError_idempotent (m : string) :
  Engine.categorizeError (Engine.categorizeError m) = Engine.categorizeError m.
Proof.
  destruct (categorizeError_cases m) as [H | [E [H1 [H2 [H3 [H4 [H5 [H6 H7]]]]]]]].
  - unfold Spec.categories in H.
    repeat (destruct H as [<- | H]; [vm_compute; reflexivity |]). destruct H.
  - rewrite E. exact E.
Qed.

Section CombinedError.
Import JS Engine Spec.

Variables (cfg : Config) (net : Network) (domain recordType : string).

Lemma queryWithRetry_zero (provider : string) :
  maxRetries cfg = 0 ->
  queryWithRetry cfg net domain recordType provider = ([], Throw None).
Proof. intro Z. unfold queryWithRetry. rewrite Z. reflexivity. Qed.

Lemma tryProviders_zero_no_return (ps : list string) :
  maxRetries cfg = 0 ->
  forall lastError,
    threw (snd (tryProviders cfg net domain recordType ps lastError)) = true.
Proof.
  intro Z. induction ps as [| p ps IH]; intro lastError; cbn [tryProviders].
  - reflexivity.
  - destruct (isSet p dohProviders); cbn [negb]; [| apply IH].
    rewrite (queryWithRetry_zero p Z). reflexivity.
Qed.

Lemma tryProviders_throw_combined (ps : list string) :
  1 <= maxRetries cfg ->
  forall lastError e,
    snd (tryProviders cfg net domain recordType ps lastError) = Throw e ->
    exists m, Engine.message e = "All DNS providers failed. Last error: " ++ m.
Proof.
  intro M. induction ps as [| p ps IH]; intros lastError e; cbn [tryProviders].
  - cbn [snd]. intro H. injection H as <-. eexists. reflexivity.
  - destruct (isSet p dohProviders); cbn [negb]; [| apply IH].
    pose proof (@queryWithRetry_throws_error cfg net domain recordType p) as T.
    destruct (queryWithRetry cfg net domain recordType p) as [evs [r | x]];
      [discriminate |].
    destruct (T x M eq_refl) as [e' ->].
    specialize (IH (Some e') e).
    destruct (tryProviders cfg net domain recordType ps (Some e')) as [evs' r'].
    exact IH.
Qed.

(** A query that returns made at least one attempt; a query for a valid
    domain and a supported type that fails while attempts are allowed
    fails with the combined error. *)
Lemma queryDNS_return_attempts (preferredProvider : string) :
  threw (snd (queryDNS cfg net domain recordType preferredProvider)) = false ->
  1 <= maxRetries cfg.
Proof.
  intro H. destruct (maxRetries cfg) as [| n] eqn:Z; [| lia].
  exfalso. unfold queryDNS in H.
  destruct (validateDomain domain); [| discriminate H]. cbn [negb] in H.
  destruct (isSet recordType recordTypes); [| discriminate H]. cbn [negb] in H.
  rewrite (tryProviders_zero_no_return _ Z) in H. discriminate H.
Qed.

Lemma queryDNS_throw_combined (preferredProvider : string) (e : JsError) :
  validateDomain domain = true -> supported recordType = true ->
  1 <= maxRetries cfg ->
  snd (queryDNS cfg net domain recordType preferredProvider) = Throw e ->
  exists m, Engine.message e = "All DNS providers failed. Last error: " ++ m.
Proof.
  intros V S M. unfold queryDNS. unfold supported in S. rewrite V, S. cbn [negb].
  apply tryProviders_throw_combined. exact M.
Qed.

End CombinedError.

Section FailedEntries.
Import JS Engine Spec.

Lemma combined_is_retryable (m : string) :
  isRetryableError ("All DNS providers failed. Last error: " ++ m) = true
  /\ In (categorizeError ("All DNS providers failed. Last error: " ++ m)) categories.
Proof.
  assert (I : includes ("All DNS providers failed. Last error: " ++ m)
                       "All DNS providers failed" = true) by reflexivity.
  split.
  - unfold isRetryableError. cbn [existsb]. rewrite I. rewrite !orb_true_r. reflexivity.
  - destruct (categorizeError_cases ("All DNS providers failed. Last error: " ++ m))
      as [H | [_ [_ [_ [_ [_ [_ [_ H]]]]]]]]; [exact H | congruence].
Qed.

Lemma supportedTypes_supported (rt : string) :
  In rt supportedTypes -> supported rt = true.
Proof.
  intro H. repeat (destruct H as [<- | H]; [reflexivity |]). destruct H.
Qed.

(** A status text is none of the category texts. *)
Lemma statusMessage_uncategorized (status : Z) :
  ~ In (statusMessage status) categories.
Proof.
  assert (K : In (statusMessage status)
                 ["Format Error"; "Server Failure"; "Name Error (NXDOMAIN)";
                  "Not Implemented"; "Refused"]
              \/ exists m, statusMessage status = "DNS Error (Status: " ++ m).
  { unfold statusMessage.
    repeat match goal with
           | |- context [match ?x with _ => _ end] => destruct x
           end;
      first [right; eexists; reflexivity | left; simpl; tauto]. }
  unfold categories. intro I. destruct K as [K | [m K]].
  - repeat (destruct K as [E | K];
            [rewrite <- E in I;
             repeat (destruct I as [I | I]; [discriminate I |]); destruct I |]).
    destruct K.
  - rewrite K in I.
    repeat (destruct I as [I | I]; [discriminate I |]). destruct I.
Qed.

End FailedEntries.

(** X8. In a record set that [queryAllRecords] returns from the network
    (no unexpired cache entry), the retryable flag marks exactly the
    entries of the record types for which [queryDNS] raised, that is, for
    which no provider returned an answer.  Such an entry has no records,
    the source [failed], [retryable] set to true and one of the six
    category texts as its error: a returned set implies that some query
    was answered, so each raised error is the combined all-providers
    error.  The entry of a type that a provider answered has no retryable
    flag; when it has an error, the answer carried a DNS status other than
    0, the entry has no records, and the error is the status text, which
    is none of the category texts. *)
Theorem retryable_marks_raised_queries
    (cfg : Engine.Config) (net : Engine.Network) (s : Engine.State)
    (domain preferredProvider : string) (now now1 now2 : Z) (rs : Engine.RecordSet) :
  fst (Engine.getFromCache (JS.toLowerCase domain ++ ":ALL") now (Engine.cache s)) = None ->
  snd (Engine.queryAllRecords cfg net s domain preferredProvider now now1 now2)
  = Engine.Return rs ->
  forall rt, In rt Spec.supportedTypes ->
    exists q, Engine.lookup rt (Engine.entries rs) = Some q
      /\ (Spec.queryRaises cfg net domain preferredProvider rt = true ->
          Engine.records q = []
          /\ Engine.source q = "failed"
          /\ Engine.retryable q = Some true
          /\ exists c, Engine.error q = Some c /\ In c Spec.categories)
      /\ (Spec.queryRaises cfg net domain preferredProvider rt = false ->
          Spec.answered net domain rt q
          /\ Engine.retryable q = None
          /\ forall c, Engine.error q = Some c ->
               Engine.records q = []
               /\ ~ In c Spec.categories
               /\ exists status, status <> 0%Z /\ c = Engine.statusMessage status).
Proof.
  intros C R rt Hin.
  destruct (Engine.validateDomain domain) eqn:V.
  2: { unfold Engine.queryAllRecords in R. rewrite V in R. discriminate R. }
  rewrite (@queryAllRecords_miss cfg net domain preferredProvider s now now1 now2 V C) in R.
  destruct (negb (existsb (fun rt => negb (Spec.queryRaises cfg net domain
                                             preferredProvider rt))
                          Spec.supportedTypes)) eqn:A; [discriminate R |].
  injection R as <-. cbn [Engine.entries].
  apply negb_false_iff, existsb_exists in A as [rt0 [_ S0]].
  apply negb_true_iff in S0.
  pose proof (@queryDNS_return_attempts cfg net domain rt0 preferredProvider S0) as M.
  exists (Spec.outcome cfg net domain preferredProvider rt).
  split; [apply lookup_supported; exact Hin |].
  unfold Spec.queryRaises, Spec.outcome.
  destruct (snd (Engine.queryDNS cfg net domain rt preferredProvider)) as [r | e] eqn:Q;
    cbn [Spec.threw].
  - split; [discriminate |]. intros _.
    pose proof (queryDNS_return _ _ _ _ _ Q) as An.
    destruct (answered_entry An)
      as [Rt [_ [_ [provider [response [_ [_ [E [N Z]]]]]]]]].
    split; [exact An |]. split; [exact Rt |].
    intros c Ec.
    destruct (Z.eq_dec (Engine.Status response) 0) as [Z0 | NZ].
    + rewrite (Z Z0) in Ec. discriminate Ec.
    + destruct (N NZ) as [Rec Err]. rewrite Err in Ec. injection Ec as <-.
      split; [exact Rec |]. split; [apply statusMessage_uncategorized |].
      exists (Engine.Status response). split; [exact NZ | reflexivity].
  - split; [| discriminate]. intros _.
    destruct (@queryDNS_throw_combined cfg net domain rt preferredProvider e V
                (supportedTypes_supported Hin) M Q) as [m E].
    destruct (combined_is_retryable m) as [R1 R2].
    cbn [Engine.failedResult Engine.records Engine.retryable Engine.error Engine.source].
    rewrite E, R1. repeat split.
    exists (Engine.categorizeError ("All DNS providers failed. Last error: " ++ m)).
    split; [reflexivity | exact R2].
Qed.

Lemma retryable_marks_raised_queries_witness :
  exists q,
    Engine.lookup "A"
      (Engine.entries (Spec.recordSet
         (map (fun rt => (rt, Spec.outcome Engine.defaultConfig Spec.blocksA
                                "example.com" "cloudflare" rt))
              Spec.supportedTypes))) = Some q
    /\ (Spec.queryRaises Engine.defaultConfig Spec.blocksA "example.com" "cloudflare" "A"
        = true ->
        Engine.records q = []
        /\ Engine.source q = "failed"
        /\ Engine.retryable q = Some true
        /\ exists c, Engine.error q = Some c /\ In c Spec.categories)
    /\ (Spec.queryRaises Engine.defaultConfig Spec.blocksA "example.com" "cloudflare" "A"
        = false ->
        Spec.answered Spec.blocksA "example.com" "A" q
        /\ Engine.retryable q = None
        /\ forall c, Engine.error q = Some c ->
             Engine.records q = []
             /\ ~ In c Spec.categories
             /\ exists status, status <> 0%Z /\ c = Engine.statusMessage status).
Proof.
  refine (@retryable_marks_raised_queries Engine.defaultConfig Spec.blocksA
            Spec.emptyState "example.com" "cloudflare" 0%Z 0%Z 0%Z _ _ _ "A" _).
  - reflexivity.
  - rewrite queryAllRecords_miss by reflexivity.
    replace (negb (existsb (fun rt => negb (Spec.queryRaises Engine.defaultConfig
                                              Spec.blocksA "example.com" "cloudflare" rt))
                           Spec.supportedTypes)) with false by (vm_compute; reflexivity).
    reflexivity.
  - simpl. tauto.
Defined.

Section CacheKeys.
Import JS Engine Spec.

Lemma keys_assign_present {A : Type} (k : string) (v : A) (c : list (string * A)) :
  lookup k c <> None -> map fst (assign k v c) = map fst c.
Proof.
  induction c as [| [k' v'] c IH]; simpl; [congruence |].
  destruct (String.eqb_spec k' k) as [-> | N]; [reflexivity |].
  intro H. simpl. rewrite IH by exact H. reflexivity.
Qed.

Lemma distinct_assign {A : Type} (k : string) (v : A) (c : list (string * A)) :
  distinct (map fst c) = true -> distinct (map fst (assign k v c)) = true.
Proof.
  intro D. destruct (lookup k c) eqn:L.
  - rewrite keys_assign_present by congruence. exact D.
  - rewrite keys_assign_new by exact L. rewrite distinct_app_single, D.
    apply lookup_None_keys in L. rewrite L. reflexivity.
Qed.

Lemma keys_remove_sub {A : Type} (k x : string) (c : list (string * A)) :
  existsb (String.eqb x) (map fst (remove k c)) = true ->
  existsb (String.eqb x) (map fst c) = true.
Proof.
  induction c as [| [k' v'] c IH]; simpl; [congruence |].
  destruct (String.eqb k' k); simpl.
  - intro H. rewrite H. apply orb_true_r.
  - intro H. apply orb_true_iff in H as [H | H]; [rewrite H; reflexivity |].
    rewrite (IH H). apply orb_true_r.
Qed.

Lemma distinct_remove {A : Type} (k : string) (c : list (string * A)) :
  distinct (map fst c) = true -> distinct (map fst (remove k c)) = true.
Proof.
  induction c as [| [k' v'] c IH]; simpl; [reflexivity |].
  intro D. apply andb_true_iff in D as [N D].
  destruct (String.eqb k' k); [exact D |].
  simpl. rewrite (IH D), andb_true_r.
  apply negb_true_iff in N. apply negb_true_iff.
  destruct (existsb (String.eqb k') (map fst (remove k c))) eqn:E; [| reflexivity].
  apply keys_remove_sub in E. congruence.
Qed.

Lemma lookup_remove_same {A : Type} (k : string) (c : list (string * A)) :
  distinct (map fst c) = true -> lookup k (remove k c) = None.
Proof.
  induction c as [| [k' v'] c IH]; simpl; [reflexivity |].
  intro D. apply andb_true_iff in D as [N D].
  destruct (String.eqb_spec k' k) as [-> | NE].
  - apply lookup_None_keys. apply negb_true_iff in N. exact N.
  - simpl. destruct (String.eqb_spec k' k); [congruence | apply IH; exact D].
Qed.

Lemma lookup_remove_other {A : Type} (k k' : string) (c : list (string * A)) :
  k' <> k -> lookup k' (remove k c) = lookup k' c.
Proof.
  intro N. induction c as [| [k1 v1] c IH]; simpl; [reflexivity |].
  destruct (String.eqb_spec k1 k) as [-> | N1].
  - destruct (String.eqb_spec k k'); [congruence | reflexivity].
  - simpl. destruct (String.eqb k1 k'); [reflexivity | exact IH].
Qed.

(** The keys of a reachable cache are pairwise different. *)
Lemma reachable_distinct (c : Cache) : reachable c -> distinct (map fst c) = true.
Proof.
  induction 1 as [| c k v ttl now now' R IH | c k now R IH].
  - reflexivity.
  - unfold setCache. apply distinct_assign.
    destruct (maxCacheSize <=? List.length c)%nat; [| exact IH].
    destruct c as [| [k0 e0] rest]; [exact IH |]. apply distinct_remove. exact IH.
  - unfold getFromCache. destruct (lookup k c) as [e |]; [| exact IH].
    destruct (expiresAt e <? now)%Z; [| exact IH].
    cbn [snd]. apply distinct_remove. exact IH.
Qed.

(** Storing and then reading a key, at any time. *)
Lemma setCache_then_get (k : string) (v : RecordSet) (ttl : option Z) (now now' t : Z)
    (c : Cache) :
  getFromCache k t (setCache k v ttl now now' c)
  = if (t <=? now + effectiveTTL v ttl)%Z
    then (Some v, setCache k v ttl now now' c)
    else (None, remove k (setCache k v ttl now now' c)).
Proof.
  unfold getFromCache. unfold setCache at 1. rewrite lookup_assign_same.
  cbn [expiresAt entry_data]. fold (effectiveTTL v ttl).
  destruct (Z.ltb_spec (now + effectiveTTL v ttl) t) as [L | L];
    destruct (Z.leb_spec t (now + effectiveTTL v ttl)) as [L' | L'];
    try lia; reflexivity.
Qed.

End CacheKeys.

(** X9. In a cache that the engine can reach no key occurs twice, so a
    read that misses leaves the key absent (an expired entry is deleted by
    the read that finds it expired) and no read changes what is stored
    under any other key. *)
Theorem cache_miss_leaves_key_absent (c : Engine.Cache) (k : string) (t : Z) :
  Spec.reachable c ->
  Spec.distinct (map fst c) = true
  /\ (fst (Engine.getFromCache k t c) = None ->
      Engine.lookup k (snd (Engine.getFromCache k t c)) = None)
  /\ (forall k', k' <> k ->
        Engine.lookup k' (snd (Engine.getFromCache k t c)) = Engine.lookup k' c).
Proof.
  intro R. pose proof (reachable_distinct R) as D.
  split; [exact D |]. unfold Engine.getFromCache.
  destruct (Engine.lookup k c) as [e |] eqn:L.
  - destruct (Engine.expiresAt e <? t)%Z; cbn [fst snd].
    + split; [intros _; apply lookup_remove_same; exact D |].
      intros k' N. apply lookup_remove_other. exact N.
    + split; [discriminate | reflexivity].
  - cbn [fst snd]. split; [intros _; exact L | reflexivity].
Qed.

Lemma cache_miss_leaves_key_absent_witness :
  Engine.lookup "example.com:ALL"
    (snd (Engine.getFromCache "example.com:ALL" 400000
            (Engine.setCache "example.com:ALL" (Spec.recordSet []) None 0 0 [])))
  = None.
Proof.
  refine (proj1 (proj2 (@cache_miss_leaves_key_absent
            (Engine.setCache "example.com:ALL" (Spec.recordSet []) None 0 0 [])
            "example.com:ALL" 400000%Z _)) _).
  - constructor. constructor.
  - vm_compute. reflexivity.
Defined.

(** X10. An entry lives exactly as long as its TTL: after
    [setCache(k, v, ttl)] at clock [now], a read of [k] at clock [t] returns
    [v] when [t <= now + ttl'] and otherwise returns nothing and deletes
    the entry, where [ttl'] is the explicit [ttl] when one is given and is
    not 0, and the computed TTL of [v] otherwise. *)
Theorem cache_entry_lifetime
    (k : string) (v : Engine.RecordSet) (ttl : option Z) (now now' t : Z)
    (c : Engine.Cache) :
  Engine.getFromCache k t (Engine.setCache k v ttl now now' c)
  = if (t <=? now + Spec.effectiveTTL v ttl)%Z
    then (Some v, Engine.setCache k v ttl now now' c)
    else (None, Engine.remove k (Engine.setCache k v ttl now now' c)).
Proof. apply setCache_then_get. Qed.

Section SecondCall.
Import JS Engine Spec.

Variables (cfg : Config) (net : Network) (domain preferredProvider : string).

(** The state and the result of the miss path when some query succeeds. *)
Lemma queryAllRecords_miss_state (s : State) (now now1 now2 : Z) (c : Cache) :
  validateDomain domain = true ->
  getFromCache (toLowerCase domain ++ ":ALL") now (cache s) = (None, c) ->
  existsb (fun rt => negb (queryRaises cfg net domain preferredProvider rt))
          supportedTypes = true ->
  let rs := {| entries := map (fun rt => (rt, outcome cfg net domain preferredProvider rt))
                              supportedTypes;
               fromCache := false |} in
  queryAllRecords cfg net s domain preferredProvider now now1 now2
  = ({| cache := setCache (toLowerCase domain ++ ":ALL") rs None now1 now2 c;
        cacheStats := {| hits := hits (cacheStats s);
                         misses := S (misses (cacheStats s)) |} |},
     Return rs).
Proof.
  intros V C A. cbv zeta. unfold queryAllRecords. rewrite V.
  change (negb true) with false. cbv iota. rewrite C.
  rewrite batches_gathered.
  change (concat (batchesOf 3 (map fst recordTypes))) with supportedTypes.
  assert (R : fold_left
                (fun o rt => assign rt (outcome cfg net domain preferredProvider rt) o)
                supportedTypes []
              = map (fun rt => (rt, outcome cfg net domain preferredProvider rt))
                    supportedTypes).
  { generalize (outcome cfg net domain preferredProvider). intro f. reflexivity. }
  unfold gathered. cbn [results hasAnySuccess totalFailures]. rewrite R.
  change (false || existsb (fun rt => negb (queryRaises cfg net domain preferredProvider rt))
                           supportedTypes)
    with (existsb (fun rt => negb (queryRaises cfg net domain preferredProvider rt))
                  supportedTypes).
  rewrite A. reflexivity.
Qed.

(** A returned set that is not tagged [fromCache] comes from the miss
    path. *)
Lemma queryAllRecords_fresh (s s1 : State) (now now1 now2 : Z) (rs : RecordSet) :
  queryAllRecords cfg net s domain preferredProvider now now1 now2 = (s1, Return rs) ->
  fromCache rs = false ->
  validateDomain domain = true
  /\ rs = {| entries := map (fun rt => (rt, outcome cfg net domain preferredProvider rt))
                            supportedTypes;
             fromCache := false |}
  /\ exists c,
       getFromCache (toLowerCase domain ++ ":ALL") now (cache s) = (None, c)
       /\ s1 = {| cache := setCache (toLowerCase domain ++ ":ALL") rs None now1 now2 c;
                  cacheStats := {| hits := hits (cacheStats s);
                                   misses := S (misses (cacheStats s)) |} |}.
Proof.
  intros Q F.
  destruct (validateDomain domain) eqn:Vd.
  2: { unfold queryAllRecords in Q. rewrite Vd in Q. discriminate Q. }
  destruct (getFromCache (toLowerCase domain ++ ":ALL") now (cache s))
    as [[cached |] c] eqn:G.
  { unfold queryAllRecords in Q. rewrite Vd, G in Q.
    cbn [negb] in Q. injection Q as _ <-. discriminate F. }
  destruct (existsb (fun rt => negb (queryRaises cfg net domain preferredProvider rt))
                    supportedTypes) eqn:A.
  2: { pose proof (@queryAllRecords_miss cfg net domain preferredProvider s now now1 now2
                     Vd) as M.
       rewrite G in M. specialize (M eq_refl). rewrite Q, A in M. discriminate M. }
  rewrite (@queryAllRecords_miss_state s now now1 now2 c Vd G A) in Q.
  injection Q as <- <-.
  split; [reflexivity |]. split; [reflexivity |]. exists c. split; reflexivity.
Qed.

End SecondCall.

(** A call that follows, within 30 s, a call that returned from the
    network. *)
Lemma queryAllRecords_again
    (cfg cfg' : Engine.Config) (net net' : Engine.Network) (s s1 : Engine.State)
    (domain domain' preferredProvider preferredProvider' : string)
    (now now1 now2 t t1 t2 : Z) (rs : Engine.RecordSet) :
  Engine.queryAllRecords cfg net s domain preferredProvider now now1 now2
  = (s1, Engine.Return rs) ->
  Engine.fromCache rs = false ->
  JS.toLowerCase domain' = JS.toLowerCase domain ->
  Engine.validateDomain domain' = true ->
  (t <= now1 + 30000)%Z ->
  Engine.queryAllRecords cfg' net' s1 domain' preferredProvider' t t1 t2
  = ({| Engine.cache := Engine.cache s1;
        Engine.cacheStats :=
          {| Engine.hits := S (Engine.hits (Engine.cacheStats s1));
             Engine.misses := Engine.misses (Engine.cacheStats s1) |} |},
     Engine.Return {| Engine.entries := Engine.entries rs; Engine.fromCache := true |}).
Proof.
  intros Q F L V T.
  destruct (@queryAllRecords_fresh cfg net domain preferredProvider s s1 now now1 now2 rs
              Q F) as [_ [_ [c [_ ->]]]].
  unfold Engine.queryAllRecords. rewrite V, L. cbn [negb Engine.cache Engine.cacheStats].
  rewrite setCache_then_get.
  assert (B : (30000 <= Spec.effectiveTTL rs None)%Z)
    by (cbn [Spec.effectiveTTL]; unfold Engine.calculateCacheTTL; lia).
  destruct (Z.leb_spec t (now1 + Spec.effectiveTTL rs None)) as [_ | X]; [| lia].
  reflexivity.
Qed.


(** X11. What [queryAllRecords] returns from the network it also caches:
    after a call that returned a record set not tagged [fromCache], a call
    for the same domain in any letter case, made no later than 30 s after,
    returns the same entries tagged [fromCache], counts one hit, leaves the
    cache as it is and does not depend on the network or the preferred
    provider. *)
Theorem queryAllRecords_second_call_is_cached
    (cfg cfg' : Engine.Config) (net net' : Engine.Network) (s s1 : Engine.State)
    (domain domain' preferredProvider preferredProvider' : string)
    (now now1 now2 t t1 t2 : Z) (rs : Engine.RecordSet) :
  Engine.queryAllRecords cfg net s domain preferredProvider now now1 now2
  = (s1, Engine.Return rs) ->
  Engine.fromCache rs = false ->
  JS.toLowerCase domain' = JS.toLowerCase domain ->
  Engine.validateDomain domain' = true ->
  (t <= now1 + 30000)%Z ->
  Engine.queryAllRecords cfg' net' s1 domain' preferredProvider' t t1 t2
  = ({| Engine.cache := Engine.cache s1;
        Engine.cacheStats :=
          {| Engine.hits := S (Engine.hits (Engine.cacheStats s1));
             Engine.misses := Engine.misses (Engine.cacheStats s1) |} |},
     Engine.Return {| Engine.entries := Engine.entries rs; Engine.fromCache := true |}).
Proof.
  intros Q F L V T.
  exact (@queryAllRecords_again cfg cfg' net net' s s1 domain domain' preferredProvider
           preferredProvider' now now1 now2 t t1 t2 rs Q F L V T).
Qed.

Lemma queryAllRecords_second_call_is_cached_witness :
  snd (Engine.queryAllRecords Engine.defaultConfig Spec.netDown Spec.warmState
         "Example.COM" "quad9" 5000 5000 5000)
  = Engine.Return
      {| Engine.entries :=
           Engine.entries
             (Spec.recordSet
                (map (fun rt => (rt, Spec.outcome Engine.defaultConfig Spec.netUp
                                       "example.com" "cloudflare" rt))
                     Spec.supportedTypes));
         Engine.fromCache := true |}.
Proof.
  rewrite (@queryAllRecords_second_call_is_cached
             Engine.defaultConfig Engine.defaultConfig Spec.netUp Spec.netDown
             Spec.emptyState Spec.warmState "example.com" "Example.COM"
             "cloudflare" "quad9" 0 0 0 5000 5000 5000
             (Spec.recordSet
                (map (fun rt => (rt, Spec.outcome Engine.defaultConfig Spec.netUp
                                       "example.com" "cloudflare" rt))
                     Spec.supportedTypes))).
  - reflexivity.
  - vm_compute. reflexivity.
  - reflexivity.
  - vm_compute. reflexivity.
  - vm_compute. reflexivity.
  - vm_compute. discriminate.
Defined.

Section SpecificFacts.
Import JS Engine Spec.

Lemma lookup_fold_assign {A : Type} (f : string -> A) (t : string) (types : list string) :
  forall acc : list (string * A),
  lookup t (fold_left (fun o '(k, r) => assign k r o)
                      (map (fun k => (k, f k)) types) acc)
  = if existsb (String.eqb t) types then Some (f t) else lookup t acc.
Proof.
  induction types as [| k types IH]; intro acc; cbn [map fold_left existsb]; [reflexivity |].
  rewrite IH. destruct (existsb (String.eqb t) types).
  - rewrite orb_true_r. reflexivity.
  - rewrite orb_false_r. destruct (String.eqb_spec t k) as [-> | N].
    + apply lookup_assign_same.
    + apply lookup_assign_other. congruence.
Qed.

Lemma distinct_fold_assign {A : Type} (f : string -> A) (types : list string) :
  forall acc : list (string * A),
  distinct (map fst acc) = true ->
  distinct (map fst (fold_left (fun o '(k, r) => assign k r o)
                               (map (fun k => (k, f k)) types) acc)) = true.
Proof.
  induction types as [| k types IH]; intros acc D; cbn [map fold_left]; [exact D |].
  apply IH. apply distinct_assign. exact D.
Qed.

Lemma length_fold_assign {A : Type} (f : string -> A) (types : list string) :
  forall acc : list (string * A),
  List.length (fold_left (fun o '(k, r) => assign k r o)
                         (map (fun k => (k, f k)) types) acc)
  <= List.length acc + List.length types.
Proof.
  induction types as [| k types IH]; intro acc; cbn [map fold_left List.length]; [lia |].
  eapply Nat.le_trans; [apply IH |].
  pose proof (length_assign k (f k) acc). lia.
Qed.

(** For supported record types storing is plain assignment. *)
Lemma store_fold_supported {A : Type} (f : string -> A) (types : list string) :
  Forall (fun t => In t supportedTypes) types ->
  forall acc : list (string * A),
  fold_left (fun o '(k, r) => store k r o) (map (fun k => (k, f k)) types) acc
  = fold_left (fun o '(k, r) => assign k r o) (map (fun k => (k, f k)) types) acc.
Proof.
  induction 1 as [| k types K _ IH]; intro acc; cbn [map fold_left]; [reflexivity |].
  rewrite <- IH. f_equal. unfold store.
  repeat (destruct K as [<- | K]; [reflexivity |]). destruct K.
Qed.

Lemma existsb_eqb_In (t : string) (l : list string) :
  existsb (String.eqb t) l = true <-> In t l.
Proof.
  rewrite existsb_exists. split.
  - intros [x [I E]]. apply String.eqb_eq in E. subst. exact I.
  - intro I. exists t. split; [exact I | apply String.eqb_refl].
Qed.

End SpecificFacts.

(** X12. [querySpecificRecords] does not fail on network errors: for a
    valid domain and a non-empty array of supported record types it
    returns, whatever the network does and without reading or writing the
    cache, a set that holds under each requested type the result of
    [queryDNS] for that type, or, when that query raised, a result with no
    records, source [failed], the categorized error and no
    [failedProviders]; it holds nothing under any other type, no key twice,
    and so at most as many entries as the array has elements. *)
Theorem querySpecificRecords_never_fails_on_network
    (cfg : Engine.Config) (net : Engine.Network)
    (domain preferredProvider : string) (types : list string) :
  Engine.validateDomain domain = true ->
  types <> [] ->
  Forall (fun t => In t Spec.supportedTypes) types ->
  exists rs,
    Engine.querySpecificRecords cfg net domain types preferredProvider = Engine.Return rs
    /\ Engine.fromCache rs = false
    /\ (forall t, In t types ->
          exists r, Engine.lookup t (Engine.entries rs) = Some r
            /\ match snd (Engine.queryDNS cfg net domain t preferredProvider) with
               | Engine.Return q => r = q
               | Engine.Throw e =>
                   Engine.records r = []
                   /\ Engine.source r = "failed"
                   /\ Engine.error r = Some (Engine.categorizeError (Engine.message e))
                   /\ Engine.originalError r = Some (Engine.message e)
                   /\ Engine.failedProviders r = None
               end)
    /\ (forall t, ~ In t types -> Engine.lookup t (Engine.entries rs) = None)
    /\ Spec.distinct (map fst (Engine.entries rs)) = true
    /\ List.length (Engine.entries rs) <= List.length types.
Proof.
  intros V N F. unfold Engine.querySpecificRecords. rewrite V.
  change (negb true) with false. cbv iota.
  destruct types as [| t0 types']; [congruence |].
  set (types := t0 :: types') in *.
  change (List.length types =? 0)%nat with false. cbv iota.
  assert (S : find (fun recordType => negb (Engine.supported recordType)) types = None).
  { destruct (find (fun recordType => negb (Engine.supported recordType)) types)
      as [t |] eqn:E; [| reflexivity].
    apply find_some in E as [I U]. rewrite Forall_forall in F.
    rewrite (supportedTypes_supported (F t I)) in U. discriminate U. }
  rewrite S.
  set (f := fun recordType =>
              match snd (Engine.queryDNS cfg net domain recordType preferredProvider) with
              | Engine.Return r => r
              | Engine.Throw e => Engine.failedSpecific domain recordType e
              end).
  assert (M : map (fun recordType =>
                     match snd (Engine.queryDNS cfg net domain recordType preferredProvider)
                     with
                     | Engine.Return r => (recordType, r)
                     | Engine.Throw e =>
                         (recordType, Engine.failedSpecific domain recordType e)
                     end) types
              = map (fun k => (k, f k)) types).
  { apply map_ext. intro a. unfold f.
    destruct (snd (Engine.queryDNS cfg net domain a preferredProvider)); reflexivity. }
  rewrite M, (store_fold_supported f F).
  eexists. split; [reflexivity |]. cbn [Engine.entries Engine.fromCache].
  split; [reflexivity |]. split; [| split; [| split]].
  - intros t I. exists (f t). rewrite lookup_fold_assign.
    apply existsb_eqb_In in I. rewrite I. split; [reflexivity |].
    unfold f. destruct (snd (Engine.queryDNS cfg net domain t preferredProvider)) as [q | e].
    + reflexivity.
    + repeat split.
  - intros t I. rewrite lookup_fold_assign.
    destruct (existsb (String.eqb t) types) eqn:E; [| reflexivity].
    apply existsb_eqb_In in E. contradiction.
  - apply distinct_fold_assign. reflexivity.
  - apply (length_fold_assign f types []).
Qed.

Lemma querySpecificRecords_never_fails_on_network_witness :
  exists rs,
    Engine.querySpecificRecords Engine.defaultConfig Spec.netDown "example.com"
      ["A"; "MX"; "A"] "cloudflare" = Engine.Return rs
    /\ List.length (Engine.entries rs) <= 3.
Proof.
  destruct (@querySpecificRecords_never_fails_on_network
              Engine.defaultConfig Spec.netDown "example.com" "cloudflare" ["A"; "MX"; "A"])
    as [rs [Q [_ [_ [_ [_ L]]]]]].
  - vm_compute. reflexivity.
  - discriminate.
  - repeat constructor; vm_compute; tauto.
  - exists rs. split; [exact Q | exact L].
Defined.

Section FastestFacts.
Import JS Engine Spec.

Variable A : Type.
Variable f : A -> Z.

Let le (a b : A) : bool := (f a <=? f b)%Z.

Lemma insertBy_In (x y : A) (l : list A) :
  In y (insertBy le x l) <-> y = x \/ In y l.
Proof.
  induction l as [| z l IH]; cbn [insertBy].
  - simpl. intuition congruence.
  - destruct (le x z); simpl; [intuition congruence |]. rewrite IH. intuition congruence.
Qed.

Lemma sortBy_In (y : A) (l : list A) : In y (sortBy le l) <-> In y l.
Proof.
  induction l as [| x l IH]; [reflexivity |].
  unfold sortBy in *. cbn [fold_right]. rewrite insertBy_In, IH. simpl. intuition congruence.
Qed.

(** The head of the sorted list is a least element. *)
Lemma sortBy_head_least (l : list A) (h : A) (rest : list A) :
  sortBy le l = h :: rest -> forall y, In y l -> (f h <= f y)%Z.
Proof.
  revert h rest. induction l as [| x l IH]; intros h rest E y I; [destruct I |].
  unfold sortBy in *. cbn [fold_right] in E.
  destruct (fold_right (insertBy le) [] l) as [| z zs] eqn:S.
  - destruct l as [| x' l'].
    + cbn in E. injection E as <- _. destruct I as [<- | []]. lia.
    + exfalso. assert (I' : In x' (sortBy le (x' :: l'))) by (apply sortBy_In; left; reflexivity).
      unfold sortBy in I'. rewrite S in I'. destruct I'.
  - cbn [insertBy] in E. unfold le at 1 in E.
    specialize (IH z zs eq_refl).
    destruct (Z.leb_spec (f x) (f z)) as [L | L]; injection E as <- _.
    + destruct I as [<- | I]; [lia |]. specialize (IH y I). lia.
    + destruct I as [<- | I]; [lia |]. exact (IH y I).
Qed.

Lemma sortBy_nil (l : list A) : sortBy le l = [] -> l = [].
Proof.
  intro E. destruct l as [| x l]; [reflexivity |].
  assert (I : In x (sortBy le (x :: l))) by (apply sortBy_In; left; reflexivity).
  rewrite E in I. destruct I.
Qed.

End FastestFacts.

Section ProbeFacts.
Import JS Engine Spec.

Variables (cfg : Config) (net : Network) (elapsed : string -> Z).

Lemma testProviders_entries :
  testProviders cfg net elapsed
  = map (fun provider =>
           (provider,
            match performQuery cfg net "example.com" "A" provider 1 with
            | Return _ => {| status := "available";
                             responseTime := Some (elapsed provider);
                             test_error := None |}
            | Throw e => {| status := "unavailable";
                            responseTime := None;
                            test_error := Some (message e) |}
            end)) fallbackOrder.
Proof.
  unfold testProviders.
  generalize (fun provider => performQuery cfg net "example.com" "A" provider 1).
  intro q. reflexivity.
Qed.

Lemma available_entry (p : string) (t : ProviderTest) :
  In (p, t) (filter (fun kv : string * ProviderTest =>
                       String.eqb (status (snd kv)) "available")
                    (testProviders cfg net elapsed)) <->
  In p fallbackOrder /\ probeOk cfg net p = true
  /\ t = {| status := "available"; responseTime := Some (elapsed p); test_error := None |}.
Proof.
  rewrite filter_In, testProviders_entries, in_map_iff. unfold probeOk. cbn [snd]. split.
  - intros [[q [E I]] S]. injection E as -> <-.
    destruct (performQuery cfg net "example.com" "A" p 1).
    + repeat split; assumption.
    + cbn in S. discriminate S.
  - intros [I [P ->]]. split; [| reflexivity]. exists p. split; [| exact I].
    destruct (performQuery cfg net "example.com" "A" p 1); [reflexivity | discriminate P].
Qed.

End ProbeFacts.

(** X13. [getFastestProvider] raises exactly when the probe of every
    provider fails; otherwise it returns one of cloudflare, google and
    quad9 whose probe succeeded and whose response time is no larger than
    that of any other provider whose probe succeeded. *)
Theorem getFastestProvider_is_fastest_available
    (cfg : Engine.Config) (net : Engine.Network) (elapsed : string -> Z) :
  (Spec.threw (Engine.getFastestProvider cfg net elapsed) = true <->
   forall p, In p Engine.fallbackOrder -> Spec.probeOk cfg net p = false)
  /\ (forall p, Engine.getFastestProvider cfg net elapsed = Engine.Return p ->
        In p Engine.fallbackOrder
        /\ Spec.probeOk cfg net p = true
        /\ forall q, In q Engine.fallbackOrder -> Spec.probeOk cfg net q = true ->
             (elapsed p <= elapsed q)%Z).
Proof.
  unfold Engine.getFastestProvider. cbv zeta.
  set (avail := filter (fun kv : string * Engine.ProviderTest =>
                          String.eqb (Engine.status (snd kv)) "available")
                       (Engine.testProviders cfg net elapsed)).
  set (f := fun a : string * Engine.ProviderTest => Engine.timeOf (snd a)).
  change (Engine.sortBy (fun a b : string * Engine.ProviderTest =>
                           (Engine.timeOf (snd a) <=? Engine.timeOf (snd b))%Z) avail)
    with (Engine.sortBy (fun a b => (f a <=? f b)%Z) avail).
  destruct (Engine.sortBy (fun a b => (f a <=? f b)%Z) avail) as [| [p0 t0] rest] eqn:S.
  - apply sortBy_nil in S. split.
    + split; [| reflexivity]. intros _ p I.
      destruct (Spec.probeOk cfg net p) eqn:P; [| reflexivity]. exfalso.
      assert (X : In (p, {| Engine.status := "available";
                            Engine.responseTime := Some (elapsed p);
                            Engine.test_error := None |}) avail).
      { apply available_entry. repeat split; assumption. }
      rewrite S in X. destruct X.
    + intros p H. discriminate H.
  - assert (I0 : In (p0, t0) avail).
    { apply (sortBy_In f). rewrite S. left. reflexivity. }
    apply available_entry in I0 as [I0 [P0 T0]]. split.
    + split; [discriminate |]. intro H. rewrite (H p0 I0) in P0. discriminate P0.
    + intros p H. injection H as <-. split; [exact I0 |]. split; [exact P0 |].
      intros q Iq Pq.
      pose proof (@sortBy_head_least _ f avail (p0, t0) rest S
                    (q, {| Engine.status := "available";
                           Engine.responseTime := Some (elapsed q);
                           Engine.test_error := None |})) as L.
      unfold f in L. rewrite T0 in L. cbn in L. apply L.
      apply available_entry. repeat split; assumption.
Qed.

Lemma getFastestProvider_is_fastest_available_witness :
  Engine.getFastestProvider Engine.defaultConfig Spec.onlyGoogle (fun _ => 40%Z)
  = Engine.Return "google"
  /\ In "google" Engine.fallbackOrder.
Proof.
  assert (E : Engine.getFastestProvider Engine.defaultConfig Spec.onlyGoogle (fun _ => 40%Z)
              = Engine.Return "google") by (vm_compute; reflexivity).
  split; [exact E |].
  exact (proj1 (proj2 (@getFastestProvider_is_fastest_available
                         Engine.defaultConfig Spec.onlyGoogle (fun _ => 40%Z)) "google" E)).
Defined.

(** ** The other rule evaluators *)

(** X14. [detectMissingRecords] reports nothing exactly when the set has
    A, AAAA, MX and NS records; it reports a critical issue exactly when
    NS records are absent or A and AAAA records are both absent; all its
    issues have type [missing_record] and there are at most three. *)
Theorem detectMissingRecords_complete (dnsRecords : Engine.RecordSet) (domain : string) :
  (Detector.detectMissingRecords dnsRecords domain = [] <->
   Spec.has dnsRecords "A" && Spec.has dnsRecords "AAAA"
   && Spec.has dnsRecords "MX" && Spec.has dnsRecords "NS" = true)
  /\ existsb Spec.isCritical (Detector.detectMissingRecords dnsRecords domain)
     = negb (Spec.has dnsRecords "NS")
       || negb (Spec.has dnsRecords "A") && negb (Spec.has dnsRecords "AAAA")
  /\ Forall (fun i => Detector.type i = Detector.MISSING_RECORD)
            (Detector.detectMissingRecords dnsRecords domain)
  /\ List.length (Detector.detectMissingRecords dnsRecords domain) <= 3.
Proof.
  unfold Detector.detectMissingRecords, Spec.has.
  destruct (Detector.nonEmpty (Detector.recordsOf dnsRecords "A"));
    destruct (Detector.nonEmpty (Detector.recordsOf dnsRecords "AAAA"));
    destruct (Detector.nonEmpty (Detector.recordsOf dnsRecords "MX"));
    destruct (Detector.nonEmpty (Detector.recordsOf dnsRecords "NS"));
    cbn; (split; [split; (reflexivity || discriminate) |]);
    (split; [reflexivity |]); (split; [repeat constructor | lia]).
Qed.

Lemma detectMissingRecords_complete_witness :
  Detector.detectMissingRecords
    (Spec.recordSet
       [Spec.answer "example.com" "A" [Spec.record "example.com" "A" 3600 "192.0.2.1"];
        Spec.answer "example.com" "AAAA" [Spec.record "example.com" "AAAA" 3600 "2001:db8::1"];
        Spec.answer "example.com" "MX" [Spec.record "example.com" "MX" 3600 "10 mx.example.com"];
        Spec.answer "example.com" "NS" [Spec.record "example.com" "NS" 3600 "ns.example.com"]])
    "example.com" = [].
Proof.
  apply (proj1 (@detectMissingRecords_complete _ "example.com")).
  vm_compute. reflexivity.
Defined.

Section TTLFacts.
Import JS Engine Detector Spec.

Lemma analyzeTTL_flat (entries_ : list (string * QueryResult)) :
  forall acc,
  fold_left
    (fun issues (kv : string * QueryResult) =>
       fold_left (fun issues record => (issues ++ ttlIssues (fst kv) record)%list)
                 (records (snd kv)) issues)
    entries_ acc
  = (acc ++ flat_map (fun kv : string * QueryResult =>
                        flat_map (ttlIssues (fst kv)) (records (snd kv))) entries_)%list.
Proof.
  induction entries_ as [| kv rest IH]; intro acc; cbn [fold_left flat_map].
  - rewrite app_nil_r. reflexivity.
  - rewrite IH, fold_app_flat_map, app_assoc. reflexivity.
Qed.

Lemma ttlIssues_length (t : string) (r : DNSRecord) :
  List.length (ttlIssues t r) = if ttlOutOfRange r then 1 else 0.
Proof.
  unfold ttlIssues, ttlOutOfRange, ttl_VERY_LOW, ttl_MIN_RECOMMENDED, ttl_VERY_HIGH.
  cbv zeta.
  destruct (Z.ltb_spec (ttl r) 60); destruct (Z.ltb_spec (ttl r) 300);
    destruct (Z.ltb_spec 604800 (ttl r)); try lia; reflexivity.
Qed.

Lemma ttlIssues_kind (t : string) (r : DNSRecord) :
  Forall (fun i => Detector.type i = INVALID_TTL /\ severity i <> CRITICAL
                   /\ recordName i = Some (name r) /\ affectedRecords i = [t])
         (ttlIssues t r).
Proof.
  unfold ttlIssues. cbv zeta.
  destruct (ttl r <? ttl_VERY_LOW)%Z; destruct (ttl r <? ttl_MIN_RECOMMENDED)%Z;
    destruct (ttl_VERY_HIGH <? ttl r)%Z; cbn [app];
    repeat constructor; cbn; discriminate.
Qed.

Lemma ttlIssues_warning (t : string) (r : DNSRecord) :
  existsb isWarning (ttlIssues t r) = (ttl r <? 60)%Z.
Proof.
  unfold ttlIssues, ttl_VERY_LOW, ttl_MIN_RECOMMENDED, ttl_VERY_HIGH. cbv zeta.
  destruct (Z.ltb_spec (ttl r) 60); destruct (Z.ltb_spec (ttl r) 300);
    destruct (Z.ltb_spec 604800 (ttl r)); try lia; reflexivity.
Qed.

End TTLFacts.

(** X15. [analyzeTTL] gives exactly one issue for each record whose TTL
    is below 300 s or above 604800 s and none for any other record (so
    none for a TTL between the 86400 s called the recommended maximum and
    604800 s); its issues all have type [invalid_ttl], none is critical,
    and one is a warning exactly when some TTL is below 60 s. *)
Theorem analyzeTTL_one_issue_per_bad_ttl (dnsRecords : Engine.RecordSet) :
  List.length (Detector.analyzeTTL dnsRecords)
  = List.length (filter Spec.ttlOutOfRange (Spec.allRecords dnsRecords))
  /\ Forall (fun i => Detector.type i = Detector.INVALID_TTL
                      /\ Detector.severity i <> Detector.CRITICAL)
            (Detector.analyzeTTL dnsRecords)
  /\ existsb Spec.isWarning (Detector.analyzeTTL dnsRecords)
     = existsb (fun r => (Engine.ttl r <? 60)%Z) (Spec.allRecords dnsRecords).
Proof.
  unfold Detector.analyzeTTL, Spec.allRecords. rewrite analyzeTTL_flat. cbn [app].
  induction (Engine.entries dnsRecords) as [| [t q] rest [IH1 [IH2 IH3]]];
    cbn [flat_map fst snd].
  - repeat split. constructor.
  - rewrite filter_app, !length_app, !existsb_app, IH1, IH3.
    assert (P : List.length (flat_map (Detector.ttlIssues t) (Engine.records q))
                = List.length (filter Spec.ttlOutOfRange (Engine.records q))
                /\ Forall (fun i => Detector.type i = Detector.INVALID_TTL
                                    /\ Detector.severity i <> Detector.CRITICAL)
                          (flat_map (Detector.ttlIssues t) (Engine.records q))
                /\ existsb Spec.isWarning
                     (flat_map (Detector.ttlIssues t) (Engine.records q))
                   = existsb (fun r => (Engine.ttl r <? 60)%Z) (Engine.records q)).
    { induction (Engine.records q) as [| r rs [J1 [J2 J3]]]; cbn [flat_map filter existsb].
      - repeat split. constructor.
      - rewrite length_app, existsb_app, ttlIssues_length, ttlIssues_warning, J1, J3.
        split; [destruct (Spec.ttlOutOfRange r); reflexivity |].
        split; [| reflexivity].
        apply Forall_app. split; [| exact J2].
        eapply Forall_impl; [| apply ttlIssues_kind]. cbv beta. tauto. }
    destruct P as [P1 [P2 P3]]. rewrite P1, P3.
    split; [reflexivity |]. split; [| reflexivity].
    apply Forall_app. split; assumption.
Qed.

Section SecurityFacts.
Import JS Engine Detector Spec.

Lemma filter_or_nil {A : Type} (p q : A -> bool) (l : list A) :
  filter (fun x => p x || q x) l = [] -> filter p l = [].
Proof.
  induction l as [| x l IH]; cbn [filter]; [reflexivity |].
  destruct (p x); cbn [orb]; [discriminate |].
  destruct (q x); [discriminate | exact IH].
Qed.

Lemma in_not_nil {A : Type} (x : A) (l : list A) : In x l -> l <> [].
Proof. intros I E. rewrite E in I. destruct I. Qed.

(** The issue that reports the absence of DKIM records. *)
Lemma no_dkim_reported (dnsRecords : RecordSet) (domain : string) :
  has dnsRecords "TXT" = true ->
  dkimBearing dnsRecords = [] ->
  In (securityIssue INFO "No DKIM records found in current query")
     (validateSecurityRecords dnsRecords domain).
Proof.
  unfold has, dkimBearing, validateSecurityRecords. intros T K.
  rewrite T. change (negb true) with false. cbv iota zeta.
  rewrite K, (filter_or_nil _ _ _ K). cbn [nonEmpty negb].
  apply in_or_app. right. apply in_or_app. right. apply in_or_app. left. left. reflexivity.
Qed.

Lemma validateSecurityRecords_not_nil (dnsRecords : RecordSet) (domain : string) :
  validateSecurityRecords dnsRecords domain <> [].
Proof.
  destruct (has dnsRecords "TXT") eqn:T.
  2: { unfold has in T. unfold validateSecurityRecords. rewrite T. discriminate. }
  destruct (dkimBearing dnsRecords) as [| k ks] eqn:K.
  { eapply in_not_nil. apply no_dkim_reported; assumption. }
  unfold has, dkimBearing in *. unfold validateSecurityRecords.
  rewrite T. change (negb true) with false. cbv iota zeta. rewrite K.
  cbn [nonEmpty]. cbv iota.
  destruct (filter (fun record => includes (toLowerCase (data record)) "v=spf1")
                   (recordsOf dnsRecords "TXT")) as [| s ss].
  { cbn [nonEmpty negb]. cbv iota. discriminate. }
  destruct (filter (fun record => includes (toLowerCase (data record)) "v=dmarc1")
                   (recordsOf dnsRecords "TXT")) as [| m ms].
  { cbn [nonEmpty negb andb]. cbv iota.
    eapply in_not_nil. apply in_or_app. right. apply in_or_app. left. left. reflexivity. }
  cbn [nonEmpty negb andb]. cbv iota.
  eapply in_not_nil. apply in_or_app. right. apply in_or_app. right.
  apply in_or_app. right. left. reflexivity.
Qed.

End SecurityFacts.

(** X16. [validateSecurityRecords] never returns an empty list, so every
    report of [analyzeConfiguration] counts at least one issue, whatever
    the records are; in particular, when TXT records exist and none is
    taken for a DKIM record, the issue that reports the absence of DKIM
    records is always among them. *)
Theorem validateSecurityRecords_never_empty (dnsRecords : Engine.RecordSet) (domain : string) :
  Detector.validateSecurityRecords dnsRecords domain <> []
  /\ 1 <= Detector.Summary.totalIssues
            (Detector.summary (Detector.analyzeConfiguration dnsRecords domain))
  /\ (Spec.has dnsRecords "TXT" = true -> Spec.dkimBearing dnsRecords = [] ->
      In (Detector.securityIssue Detector.INFO "No DKIM records found in current query")
         (Detector.validateSecurityRecords dnsRecords domain)).
Proof.
  pose proof (@validateSecurityRecords_not_nil dnsRecords domain) as N.
  split; [exact N |]. split; [| apply no_dkim_reported].
  unfold Detector.analyzeConfiguration. cbn [Detector.summary Detector.Summary.totalIssues].
  unfold Detector.allIssues. rewrite !length_app.
  destruct (Detector.validateSecurityRecords dnsRecords domain); [congruence |].
  cbn [List.length]. lia.
Qed.

Lemma validateSecurityRecords_never_empty_witness :
  In (Detector.securityIssue Detector.INFO "No DKIM records found in current query")
     (Detector.validateSecurityRecords
        (Spec.txtSet ["v=spf1 include:_spf.example.com ~all"]) "example.com").
Proof.
  apply (proj2 (proj2 (@validateSecurityRecords_never_empty
                         (Spec.txtSet ["v=spf1 include:_spf.example.com ~all"])
                         "example.com"))).
  - vm_compute. reflexivity.
  - vm_compute. reflexivity.
Defined.

Section ScoreFacts.
Import JS Engine Detector Spec.

Lemma taggedSecurityIssues_issues (dnsRecords : RecordSet) (domain : string) :
  map fst (taggedSecurityIssues dnsRecords domain)
  = validateSecurityRecords dnsRecords domain.
Proof.
  unfold taggedSecurityIssues, validateSecurityRecords. cbv zeta.
  destruct (negb (nonEmpty (recordsOf dnsRecords "TXT"))); [reflexivity |].
  rewrite !map_app.
  repeat match goal with
         | |- context [if ?b then _ else _] => destruct b
         end;
    cbn [map fst]; rewrite ?map_app, ?map_map; cbn [fst map]; rewrite ?map_id; reflexivity.
Qed.

(** The loop over the issues, flag by flag. *)
Lemma configured_fold (l : list (Issue * option string)) :
  forall s d k : Mechanism,
  let '(s', d', k') :=
    fold_left
      (fun (acc : Mechanism * Mechanism * Mechanism) (tagged : Issue * option string) =>
         let '(s, d, k) := acc in
         let '(issue, securityType) := tagged in
         match securityType with
         | Some tag =>
             if String.eqb tag "SPF" then (noteIssue s issue, d, k)
             else if String.eqb tag "DMARC" then (s, noteIssue d issue, k)
             else if String.eqb tag "DKIM" then (s, d, noteIssue k issue)
             else acc
         | None => acc
         end) l (s, d, k) in
  configured s' = configured s || existsb (configures "SPF") l
  /\ configured d' = configured d || existsb (configures "DMARC") l
  /\ configured k' = configured k || existsb (configures "DKIM") l.
Proof.
  induction l as [| [i [tag |]] l IH]; intros s d k; cbn [fold_left existsb].
  - rewrite !orb_false_r. repeat split.
  - unfold configures at 1 3 5. cbn [fst snd].
    destruct (String.eqb_spec tag "SPF") as [-> | N1].
    { specialize (IH (noteIssue s i) d k).
      destruct (fold_left _ l _) as [[s' d'] k']. destruct IH as [A [B C]].
      rewrite A, B, C. cbn [String.eqb Ascii.eqb Bool.eqb andb configured noteIssue].
      destruct (isMissingSecurity i); cbn [negb orb]; rewrite ?orb_true_r;
        repeat split; destruct (configured s); reflexivity. }
    destruct (String.eqb_spec tag "DMARC") as [-> | N2].
    { specialize (IH s (noteIssue d i) k).
      destruct (fold_left _ l _) as [[s' d'] k']. destruct IH as [A [B C]].
      rewrite A, B, C. cbn [String.eqb Ascii.eqb Bool.eqb andb configured noteIssue].
      destruct (isMissingSecurity i); cbn [negb orb]; rewrite ?orb_true_r;
        repeat split; destruct (configured d); reflexivity. }
    destruct (String.eqb_spec tag "DKIM") as [-> | N3].
    { specialize (IH s d (noteIssue k i)).
      destruct (fold_left _ l _) as [[s' d'] k']. destruct IH as [A [B C]].
      rewrite A, B, C. cbn [String.eqb Ascii.eqb Bool.eqb andb configured noteIssue].
      destruct (isMissingSecurity i); cbn [negb orb]; rewrite ?orb_true_r;
        repeat split; destruct (configured k); reflexivity. }
    specialize (IH s d k). destruct (fold_left _ l _) as [[s' d'] k']. exact IH.
  - unfold configures at 1 3 5. cbn [fst snd orb].
    specialize (IH s d k). destruct (fold_left _ l _) as [[s' d'] k']. exact IH.
Qed.

Lemma untagged_configures (tag : string) (l : list Issue) :
  existsb (configures tag) (map (fun i : Issue => (i, @None string)) l) = false.
Proof. induction l as [| i l IH]; [reflexivity | exact IH]. Qed.

(** Which issues of [validateSecurityRecords] set a flag. *)
Lemma tagged_configures (dnsRecords : RecordSet) (domain : string) :
  existsb (configures "SPF") (taggedSecurityIssues dnsRecords domain)
  = (1 <? List.length (spfBearing dnsRecords))%nat
  /\ existsb (configures "DMARC") (taggedSecurityIssues dnsRecords domain) = false
  /\ existsb (configures "DKIM") (taggedSecurityIssues dnsRecords domain) = false.
Proof.
  unfold taggedSecurityIssues, spfBearing. cbv zeta.
  destruct (recordsOf dnsRecords "TXT") as [| t ts] eqn:T.
  { cbn. repeat split. }
  cbn [nonEmpty negb]. cbv iota.
  set (spfs := filter (fun record => includes (toLowerCase (data record)) "v=spf1") (t :: ts)).
  rewrite !existsb_app.
  assert (S1 : forall tag,
             existsb (configures tag)
               (if negb (nonEmpty spfs)
                then [(securityIssue WARNING "No SPF record found", Some "SPF")]
                else (map (fun i : Issue => (i, @None string))
                          (flat_map validateSPFRecord spfs)
                      ++ (if (1 <? List.length spfs)%nat
                          then [({| Detector.type := CONFIGURATION_ERROR;
                                    severity := CRITICAL;
                                    Detector.message :=
                                      "Multiple SPF records found ("
                                      ++ string_of_nat (List.length spfs) ++ ")";
                                    affectedRecords := ["TXT"];
                                    recordName := None |}, Some "SPF")]
                          else []))%list)
             = String.eqb "SPF" tag && (1 <? List.length spfs)%nat).
  { intro tag. destruct spfs as [| s1 ss]; cbn [nonEmpty negb].
    - cbn. rewrite !andb_false_r. reflexivity.
    - cbv iota. rewrite existsb_app, untagged_configures.
      destruct (1 <? List.length (s1 :: ss))%nat; cbn; rewrite ?andb_false_r, ?andb_true_r,
        ?orb_false_r; reflexivity. }
  assert (S2 : forall tag (l : list DNSRecord),
             existsb (configures tag)
               (if negb (nonEmpty l)
                then [(securityIssue INFO "DMARC record location note", Some "DMARC")]
                else map (fun i : Issue => (i, @None string))
                         (flat_map validateDMARCRecord l)) = false).
  { intros tag l. destruct l; cbn [nonEmpty negb]; cbv iota;
      [cbn; rewrite andb_false_r; reflexivity | apply untagged_configures]. }
  assert (S3 : forall tag (l l' : list DNSRecord),
             existsb (configures tag)
               (if nonEmpty l
                then map (fun i : Issue => (i, @None string))
                         (flat_map validateDKIMRecord l)
                else if negb (nonEmpty l')
                     then [(securityIssue INFO "No DKIM records found in current query",
                            Some "DKIM")]
                     else []) = false).
  { intros tag l l'. destruct l; cbn [nonEmpty]; cbv iota;
      [| apply untagged_configures].
    destruct l'; cbn; rewrite ?andb_false_r; reflexivity. }
  assert (S4 : forall tag (b : bool),
             existsb (configures tag)
               (if b
                then [(securityIssue INFO "Complete email security configuration detected",
                       Some "COMPLETE")]
                else []) = false).
  { intros tag b. destruct b; cbn; rewrite ?andb_false_r; reflexivity. }
  rewrite !S1, !S2, !S3, !S4. cbn. rewrite !orb_false_r. repeat split.
Qed.

End ScoreFacts.

(** X17. The security analysis marks DMARC and DKIM as not configured for
    every record set, and SPF as configured exactly when more than one TXT
    record bears [v=spf1]: the only issue of [validateSecurityRecords] that
    has a [securityType] and a type other than [missing_security] is the
    one for multiple SPF records.  The score is therefore 40 in that case
    and 0 in every other, never the maximum of 100, and the
    recommendations to configure DMARC and DKIM are always given. *)
Theorem analyzeSecurityConfiguration_score
    (dnsRecords : Engine.RecordSet) (domain : string) :
  let a := Detector.analyzeSecurityConfiguration dnsRecords domain in
  Detector.configured (Detector.spf a)
  = (1 <? List.length (Spec.spfBearing dnsRecords))%nat
  /\ Detector.configured (Detector.dmarc a) = false
  /\ Detector.configured (Detector.dkim a) = false
  /\ Detector.overallScore a
     = (if (1 <? List.length (Spec.spfBearing dnsRecords))%nat then 40 else 0)
  /\ Detector.overallScore a < Detector.maxScore a
  /\ In {| Detector.rec_priority := "high"; Detector.rec_category := "email_security";
           Detector.rec_title := "Configure DMARC Record" |} (Detector.recommendations a)
  /\ In {| Detector.rec_priority := "medium"; Detector.rec_category := "email_security";
           Detector.rec_title := "Configure DKIM Record" |} (Detector.recommendations a).
Proof.
  cbv zeta. unfold Detector.analyzeSecurityConfiguration. cbv zeta.
  pose proof (configured_fold (Detector.taggedSecurityIssues dnsRecords domain)
                {| Detector.configured := false; Detector.issues := [] |}
                {| Detector.configured := false; Detector.issues := [] |}
                {| Detector.configured := false; Detector.issues := [] |}) as F.
  destruct (fold_left _ (Detector.taggedSecurityIssues dnsRecords domain) _)
    as [[s d] k].
  destruct (tagged_configures dnsRecords domain) as [T1 [T2 T3]].
  destruct F as [A [B C]]. rewrite T1 in A. rewrite T2 in B. rewrite T3 in C.
  cbn [Detector.configured orb] in A, B, C.
  cbn [Detector.spf Detector.dmarc Detector.dkim Detector.overallScore Detector.maxScore
       Detector.recommendations].
  rewrite A, B, C. cbn [negb].
  destruct (1 <? List.length (Spec.spfBearing dnsRecords))%nat; cbn [negb app Nat.add];
    repeat split; try lia; cbn; tauto.
Qed.

Section SummaryFacts.
Import JS Engine Detector Spec.

Lemma summaryStep_thrown (l : list Issue) (e : JsError) :
  fold_left summaryStep l (Throw e) = Throw e.
Proof. induction l as [| i l IH]; [reflexivity | exact IH]. Qed.

Lemma summary_fold (l : list Issue) :
  forall s : IssueSummary,
  if existsb isWarning l
  then fold_left summaryStep l (Return s) = Throw undefinedCategoriesError
  else exists s', fold_left summaryStep l (Return s) = Return s'
                  /\ count (sum_critical s') = count (sum_critical s)
                  /\ count (sum_warnings s') = count (sum_warnings s)
                  /\ count (sum_info s') = count (sum_info s)
                  /\ Detector.categories (sum_warnings s') = Detector.categories (sum_warnings s).
Proof.
  induction l as [| i l IH]; intro s; cbn [existsb fold_left].
  - exists s. repeat split.
  - unfold isWarning at 1.
    change (summaryStep (Return s) i) with
      (match severity i with
       | CRITICAL =>
           Return {| sum_critical :=
                       {| count := count (sum_critical s);
                          Detector.categories :=
                            pushInto (Detector.type i) i
                                     (Detector.categories (sum_critical s)) |};
                     sum_warnings := sum_warnings s; sum_info := sum_info s |}
       | WARNING => Throw undefinedCategoriesError
       | INFO =>
           Return {| sum_critical := sum_critical s; sum_warnings := sum_warnings s;
                     sum_info :=
                       {| count := count (sum_info s);
                          Detector.categories :=
                            pushInto (Detector.type i) i
                                     (Detector.categories (sum_info s)) |} |}
       end).
    destruct (severity i); cbn [severity_eqb orb].
    + match goal with
      | |- context [fold_left summaryStep l (Return ?x)] => specialize (IH x)
      end.
      destruct (existsb isWarning l); [exact IH |].
      destruct IH as [s' [E [C1 [C2 [C3 C4]]]]]. exists s'. split; [exact E |].
      cbn in C1, C2, C3, C4. repeat split; assumption.
    + apply summaryStep_thrown.
    + match goal with
      | |- context [fold_left summaryStep l (Return ?x)] => specialize (IH x)
      end.
      destruct (existsb isWarning l); [exact IH |].
      destruct IH as [s' [E [C1 [C2 [C3 C4]]]]]. exists s'. split; [exact E |].
      cbn in C1, C2, C3, C4. repeat split; assumption.
Qed.

Lemma warnings_kept (l : list Issue) :
  existsb isWarning (filter isCritical l ++ filter isWarning l ++ filter isInfo l)
  = existsb isWarning l.
Proof.
  rewrite !existsb_app.
  induction l as [| i l IH]; [reflexivity |].
  cbn [filter existsb]. rewrite <- IH.
  assert (C : isCritical i = severity_eqb (severity i) CRITICAL) by reflexivity.
  assert (W : isWarning i = severity_eqb (severity i) WARNING) by reflexivity.
  assert (I : isInfo i = severity_eqb (severity i) INFO) by reflexivity.
  destruct (severity i); cbn [severity_eqb] in C, W, I; rewrite C, I, W;
    cbn [existsb]; rewrite ?W; cbn [orb]; rewrite ?orb_true_r; reflexivity.
Qed.

Lemma report_warnings (dnsRecords : RecordSet) (domain : string) :
  existsb isWarning (reportIssues (analyzeConfiguration dnsRecords domain))
  = existsb isWarning (allIssues dnsRecords domain).
Proof.
  unfold reportIssues, analyzeConfiguration. cbv zeta. cbn [errors warnings info].
  destruct (categorize_fold (allIssues dnsRecords domain)
              {| Detector.domain := domain; errors := []; warnings := []; info := [];
                 summary := {| Summary.totalIssues := 0; Summary.criticalErrors := 0;
                               Summary.warnings := 0; Summary.infoItems := 0 |} |})
    as [E [W [I _]]].
  cbv zeta in E, W, I. rewrite E, W, I. cbn [errors warnings info app].
  apply warnings_kept.
Qed.

Lemma missing_mx_warns (dnsRecords : RecordSet) (domain : string) :
  has dnsRecords "MX" = false ->
  existsb isWarning (detectMissingRecords dnsRecords domain) = true.
Proof.
  unfold has, detectMissingRecords. intro M. rewrite M.
  destruct (nonEmpty (recordsOf dnsRecords "A"));
    destruct (nonEmpty (recordsOf dnsRecords "AAAA"));
    destruct (nonEmpty (recordsOf dnsRecords "NS")); reflexivity.
Qed.

End SummaryFacts.

(** X18. [getIssueSummary] raises a TypeError exactly when the report
    holds an issue of severity warning: the summary object has the keys
    [critical], [warnings] and [info], and the severity string of a
    warning is [warning], so [summary[severity]] is undefined for it.
    Without warnings it returns the three counts of the report's summary.
    For a report of [analyzeConfiguration] it therefore raises exactly when
    some evaluator gave a warning, and always when the record set has no MX
    records. *)
Theorem getIssueSummary_raises_on_warnings (r : Detector.AnalysisReport) :
  (Detector.getIssueSummary r = Engine.Throw Detector.undefinedCategoriesError <->
   exists i, In i (Spec.reportIssues r) /\ Detector.severity i = Detector.WARNING)
  /\ ((forall i, In i (Spec.reportIssues r) -> Detector.severity i <> Detector.WARNING) ->
      exists s, Detector.getIssueSummary r = Engine.Return s
        /\ Detector.count (Detector.sum_critical s)
           = Detector.Summary.criticalErrors (Detector.summary r)
        /\ Detector.count (Detector.sum_warnings s)
           = Detector.Summary.warnings (Detector.summary r)
        /\ Detector.count (Detector.sum_info s)
           = Detector.Summary.infoItems (Detector.summary r)
        /\ Detector.categories (Detector.sum_warnings s) = [])
  /\ (forall dnsRecords domain,
        r = Detector.analyzeConfiguration dnsRecords domain ->
        Spec.threw (Detector.getIssueSummary r)
        = existsb Spec.isWarning (Detector.allIssues dnsRecords domain)
        /\ (Spec.has dnsRecords "MX" = false ->
            Detector.getIssueSummary r = Engine.Throw Detector.undefinedCategoriesError)).
Proof.
  assert (W : existsb Spec.isWarning (Spec.reportIssues r) = true <->
              exists i, In i (Spec.reportIssues r) /\ Detector.severity i = Detector.WARNING).
  { rewrite existsb_exists. split; intros [i [I S]]; exists i; (split; [exact I |]).
    - unfold Spec.isWarning in S. destruct (Detector.severity i); (reflexivity || discriminate).
    - unfold Spec.isWarning. rewrite S. reflexivity. }
  unfold Detector.getIssueSummary. cbv zeta.
  fold (Spec.reportIssues r).
  match goal with
  | |- context [fold_left Detector.summaryStep _ (Engine.Return ?x)] =>
      pose proof (summary_fold (Spec.reportIssues r) x) as F
  end.
  split; [| split].
  - rewrite <- W. destruct (existsb Spec.isWarning (Spec.reportIssues r)).
    + rewrite F. tauto.
    + destruct F as [s' [E _]]. rewrite E. split; discriminate.
  - intro N. destruct (existsb Spec.isWarning (Spec.reportIssues r)) eqn:X.
    + destruct (proj1 W eq_refl) as [i [I S]]. destruct (N i I S).
    + destruct F as [s' [E [C1 [C2 [C3 C4]]]]]. exists s'. split; [exact E |].
      repeat split; assumption.
  - intros dnsRecords domain ->.
    assert (T : Spec.threw
                  (fold_left Detector.summaryStep
                     (Spec.reportIssues (Detector.analyzeConfiguration dnsRecords domain))
                     (Engine.Return
                        {| Detector.sum_critical :=
                             {| Detector.count :=
                                  Detector.Summary.criticalErrors
                                    (Detector.summary
                                       (Detector.analyzeConfiguration dnsRecords domain));
                                Detector.categories := [] |};
                           Detector.sum_warnings :=
                             {| Detector.count :=
                                  Detector.Summary.warnings
                                    (Detector.summary
                                       (Detector.analyzeConfiguration dnsRecords domain));
                                Detector.categories := [] |};
                           Detector.sum_info :=
                             {| Detector.count :=
                                  Detector.Summary.infoItems
                                    (Detector.summary
                                       (Detector.analyzeConfiguration dnsRecords domain));
                                Detector.categories := [] |} |}))
                = existsb Spec.isWarning (Detector.allIssues dnsRecords domain)).
    { rewrite <- report_warnings.
      destruct (existsb Spec.isWarning
                  (Spec.reportIssues (Detector.analyzeConfiguration dnsRecords domain))).
      - rewrite F. reflexivity.
      - destruct F as [s' [E _]]. rewrite E. reflexivity. }
    split; [exact T |]. intro M.
    rewrite report_warnings in F. unfold Detector.allIssues in F at 1.
    rewrite existsb_app, (missing_mx_warns dnsRecords domain M) in F. exact F.
Qed.

Lemma getIssueSummary_raises_on_warnings_witness :
  Detector.getIssueSummary (Detector.analyzeConfiguration Spec.onlyA "example.com")
  = Engine.Throw Detector.undefinedCategoriesError.
Proof.
  refine (proj2 (proj2 (proj2 (@getIssueSummary_raises_on_warnings
            (Detector.analyzeConfiguration Spec.onlyA "example.com")))
            Spec.onlyA "example.com" eq_refl) _).
  vm_compute. reflexivity.
Defined.

Section SubstringFacts.
Import JS Engine Detector Spec.

Lemma prefix_iff (sub : string) :
  forall s, String.prefix sub s = true <-> exists b, s = sub ++ b.
Proof.
  induction sub as [| c sub IH]; intro s.
  - split; [intros _; exists s; reflexivity | intros _; destruct s; reflexivity].
  - destruct s as [| d s]; cbn [String.prefix].
    + split; [discriminate | intros [b E]; discriminate E].
    + destruct (Ascii.ascii_dec c d) as [-> | N].
      * rewrite IH. split; intros [b E]; exists b.
        -- cbn [append]. rewrite E. reflexivity.
        -- cbn [append] in E. injection E as ->. reflexivity.
      * split; [discriminate |]. intros [b E]. cbn [append] in E.
        injection E as -> _. exfalso. apply N. reflexivity.
Qed.

Lemma includes_iff (sub : string) :
  forall s, includes s sub = true <-> exists a b, s = a ++ sub ++ b.
Proof.
  induction s as [| c s IH]; cbn [includes]; rewrite orb_true_iff, prefix_iff.
  - split.
    + intros [[b E] | F]; [| discriminate F]. exists "", b. exact E.
    + intros [a [b E]]. left. destruct a as [| x a]; [| discriminate E].
      exists b. exact E.
  - rewrite IH. split.
    + intros [[b E] | [a [b E]]].
      * exists "", b. exact E.
      * exists (String c a), b. cbn [append]. rewrite E. reflexivity.
    + intros [a [b E]]. destruct a as [| x a].
      * left. exists b. exact E.
      * right. cbn [append] in E. injection E as _ ->. exists a, b. reflexivity.
Qed.

Lemma str_app (l1 l2 : list ascii) : str (l1 ++ l2) = str l1 ++ str l2.
Proof. induction l1 as [| c l1 IH]; cbn; [reflexivity | unfold str in IH; rewrite IH; reflexivity]. Qed.

Lemma drop_space_app (a l t : list ascii) (c : ascii) :
  l = c :: t -> is_space c = false -> drop_space (a ++ l) = (drop_space a ++ l)%list.
Proof.
  intros -> S. induction a as [| x a IH]; cbn [app drop_space].
  - rewrite S. reflexivity.
  - destruct (is_space x); [exact IH | reflexivity].
Qed.

(** [trim] keeps a substring that neither begins nor ends with white
    space. *)
Lemma trim_includes (s sub : string) (c d : ascii) (t u : list ascii) :
  chars sub = c :: t -> rev (chars sub) = d :: u ->
  is_space c = false -> is_space d = false ->
  includes s sub = true -> includes (trim s) sub = true.
Proof.
  intros Hc Hd Sc Sd I. apply includes_iff in I as [a [b ->]].
  apply includes_iff. unfold trim.
  rewrite !chars_append.
  rewrite (@drop_space_app (chars a) (chars sub ++ chars b)%list (t ++ chars b)%list c)
    by (rewrite ?Hc; auto).
  rewrite !rev_app_distr, <- app_assoc.
  rewrite (@drop_space_app (rev (chars b))
             (rev (chars sub) ++ rev (drop_space (chars a)))%list
             (u ++ rev (drop_space (chars a)))%list d)
    by (rewrite ?Hd; auto).
  rewrite !rev_app_distr, !rev_involutive, <- app_assoc, !str_app, str_chars.
  eexists. eexists. reflexivity.
Qed.

Lemma spf_format_never_fails (r : DNSRecord) :
  includes (toLowerCase (data r)) "v=spf1" = true ->
  forall i, In i (validateSPFRecord r) -> Detector.message i <> "Invalid SPF record format".
Proof.
  intros S i I. unfold validateSPFRecord in I. cbv zeta in I.
  rewrite (@trim_includes (toLowerCase (data r)) "v=spf1" "v" "1" _ _ eq_refl eq_refl
             eq_refl eq_refl S) in I.
  cbn [negb app] in I. apply in_app_or in I as [I | I].
  - destruct (negb _); [| destruct I]. destruct I as [<- | []]. cbn. discriminate.
  - destruct (10 <? _)%nat; [| destruct I]. destruct I as [<- | []]. cbn. discriminate.
Qed.

Lemma dmarc_messages (r : DNSRecord) (i : Issue) :
  In i (validateDMARCRecord r) -> Detector.message i <> "Invalid SPF record format".
Proof.
  unfold validateDMARCRecord. cbv zeta. intro I.
  repeat (apply in_app_or in I as [I | I]);
    repeat match type of I with
           | In _ (match ?x with _ => _ end) => destruct x
           | In _ (if ?x then _ else _) => destruct x
           end;
    repeat (destruct I as [<- | I]; [cbn; discriminate |]); destruct I.
Qed.

Lemma dkim_messages (r : DNSRecord) (i : Issue) :
  In i (validateDKIMRecord r) -> Detector.message i <> "Invalid SPF record format".
Proof.
  unfold validateDKIMRecord. cbv zeta. intro I.
  repeat (apply in_app_or in I as [I | I]);
    repeat match type of I with
           | In _ (match ?x with _ => _ end) => destruct x
           | In _ (if ?x then _ else _) => destruct x
           end;
    repeat (destruct I as [<- | I]; [cbn; discriminate |]); destruct I.
Qed.

End SubstringFacts.

(** X23. The format check of [validateSPFRecord] cannot fail for the
    records that [validateSecurityRecords] passes to it: they are the TXT
    records whose lowercased data contains [v=spf1], and trimming keeps
    that substring.  So no issue of [validateSecurityRecords] carries the
    message [Invalid SPF record format]. *)
Theorem spf_format_issue_never_reported
    (dnsRecords : Engine.RecordSet) (domain : string) (i : Detector.Issue) :
  In i (Detector.validateSecurityRecords dnsRecords domain) ->
  Detector.message i <> "Invalid SPF record format".
Proof.
  unfold Detector.validateSecurityRecords. cbv zeta.
  destruct (negb (Detector.nonEmpty (Detector.recordsOf dnsRecords "TXT"))).
  { intros [<- | []]. cbn. discriminate. }
  intro I. apply in_app_or in I as [I | I].
  { destruct (negb (Detector.nonEmpty _)).
    - destruct I as [<- | []]. cbn. discriminate.
    - apply in_app_or in I as [I | I].
      + apply in_flat_map in I as [r [Ir Ii]]. apply filter_In in Ir as [_ S].
        exact (spf_format_never_fails r S i Ii).
      + destruct (1 <? _)%nat; [| destruct I]. destruct I as [<- | []]. cbn. discriminate. }
  apply in_app_or in I as [I | I].
  { destruct (negb (Detector.nonEmpty _)).
    - destruct I as [<- | []]. cbn. discriminate.
    - apply in_flat_map in I as [r [_ Ii]]. exact (dmarc_messages r i Ii). }
  apply in_app_or in I as [I | I].
  { destruct (Detector.nonEmpty _).
    - apply in_flat_map in I as [r [_ Ii]]. exact (dkim_messages r i Ii).
    - destruct (negb (Detector.nonEmpty _)); [| destruct I].
      destruct I as [<- | []]. cbn. discriminate. }
  destruct (_ && _); [| destruct I]. destruct I as [<- | []]. cbn. discriminate.
Qed.

Lemma spf_format_issue_never_reported_witness :
  In (Spec.spfTerminationWarning (Spec.record "example.com" "TXT" 300 "  V=SPF1 mx "))
     (Detector.validateSPFRecord (Spec.record "example.com" "TXT" 300 "  V=SPF1 mx "))
  /\ Detector.message
       (Spec.spfTerminationWarning (Spec.record "example.com" "TXT" 300 "  V=SPF1 mx "))
     <> "Invalid SPF record format".
Proof.
  split; [vm_compute; left; reflexivity |].
  apply (@spf_format_issue_never_reported (Spec.txtSet ["  V=SPF1 mx "]) "example.com").
  vm_compute. left. reflexivity.
Defined.

Section SortFacts.
Import JS Engine Detector Spec.

Variable A : Type.
Variable le : A -> A -> bool.

Lemma insertBy_member (x y : A) (l : list A) :
  In y (insertBy le x l) <-> y = x \/ In y l.
Proof.
  induction l as [| z l IH]; cbn [insertBy].
  - simpl. intuition congruence.
  - destruct (le x z); simpl; [intuition congruence |]. rewrite IH. intuition congruence.
Qed.

Lemma sortBy_member (y : A) (l : list A) : In y (sortBy le l) <-> In y l.
Proof.
  induction l as [| x l IH]; [reflexivity |].
  unfold sortBy in *. cbn [fold_right]. rewrite insertBy_member, IH.
  simpl. intuition congruence.
Qed.

Lemma insertBy_total (g : A -> nat) (x : A) (l : list A) :
  total (map g (insertBy le x l)) = g x + total (map g l).
Proof.
  induction l as [| z l IH]; cbn [insertBy]; [reflexivity |].
  destruct (le x z); cbn [map total fold_right]; [reflexivity |].
  fold (total (map g (insertBy le x l))). rewrite IH.
  fold (total (map g l)). lia.
Qed.

Lemma sortBy_total (g : A -> nat) (l : list A) :
  total (map g (sortBy le l)) = total (map g l).
Proof.
  induction l as [| x l IH]; [reflexivity |].
  unfold sortBy in *. cbn [fold_right]. rewrite insertBy_total, IH. reflexivity.
Qed.

Lemma insertBy_NoDup {B : Type} (g : A -> B) (x : A) (l : list A) :
  NoDup (map g (x :: l)) -> NoDup (map g (insertBy le x l)).
Proof.
  induction l as [| z l IH]; cbn [insertBy]; [exact (fun N => N) |].
  destruct (le x z); [exact (fun N => N) |].
  cbn [map]. intro N. apply NoDup_cons_iff in N as [Nx N].
  apply NoDup_cons_iff in N as [Nz N].
  constructor.
  - intro I. apply in_map_iff in I as [y [E Iy]].
    apply insertBy_member in Iy as [-> | Iy].
    + apply Nx. left. symmetry. exact E.
    + apply Nz. rewrite <- E. apply in_map. exact Iy.
  - apply IH. cbn [map]. constructor; [| exact N].
    intro I. apply Nx. right. exact I.
Qed.

Lemma sortBy_NoDup {B : Type} (g : A -> B) (l : list A) :
  NoDup (map g l) -> NoDup (map g (sortBy le l)).
Proof.
  induction l as [| x l IH]; [exact (fun N => N) |].
  change (sortBy le (x :: l)) with (insertBy le x (sortBy le l)).
  cbn [map]. intro N.
  apply insertBy_NoDup. cbn [map].
  apply NoDup_cons_iff in N as [Nx N]. constructor; [| apply IH; exact N].
  intro I. apply Nx. apply in_map_iff in I as [y [E Iy]].
  apply (proj1 (sortBy_member y l)) in Iy. rewrite <- E. apply in_map. exact Iy.
Qed.

Hypothesis le_total : forall a b, le a b = false -> le b a = true.
Hypothesis le_trans : forall a b c, le a b = true -> le b c = true -> le a c = true.

Lemma insertBy_sorted (x : A) (l : list A) :
  sortedBy le l -> sortedBy le (insertBy le x l).
Proof.
  induction l as [| z l IH]; cbn [insertBy sortedBy].
  - intros _. split; [intros b [] | exact I].
  - intros [Hz Hl]. destruct (le x z) eqn:E; cbn [sortedBy].
    + split; [| split; assumption].
      intros b [<- | Ib]; [exact E |]. eapply le_trans; [exact E | apply Hz; exact Ib].
    + split; [| apply IH; exact Hl].
      intros b Ib. apply insertBy_member in Ib as [-> | Ib];
        [apply le_total; exact E | apply Hz; exact Ib].
Qed.

Lemma sortBy_sorted (l : list A) : sortedBy le (sortBy le l).
Proof.
  induction l as [| x l IH]; [exact I |].
  unfold sortBy in *. cbn [fold_right]. apply insertBy_sorted. exact IH.
Qed.

End SortFacts.

Section GroupFacts.
Import JS Engine Detector Spec.

Lemma errorType_eqb_eq (a b : ErrorType) : errorType_eqb a b = true <-> a = b.
Proof. destruct a, b; cbn; split; (reflexivity || discriminate). Qed.

Lemma errorType_eqb_trans (a b c : ErrorType) :
  errorType_eqb a b = true -> errorType_eqb a c = errorType_eqb b c.
Proof. intro E. apply errorType_eqb_eq in E. subst. reflexivity. Qed.

Lemma pushInto_groupOf (k : ErrorType) (i : Issue) (o : list (ErrorType * list Issue))
    (ty : ErrorType) :
  groupOf ty (pushInto k i o)
  = if errorType_eqb k ty then (groupOf ty o ++ [i])%list else groupOf ty o.
Proof.
  unfold groupOf. induction o as [| [k' g] o IH]; cbn [pushInto find fst snd].
  - destruct (errorType_eqb k ty); reflexivity.
  - destruct (errorType_eqb k' k) eqn:E; cbn [find fst snd].
    + rewrite <- (@errorType_eqb_trans _ _ ty E).
      destruct (errorType_eqb k' ty); reflexivity.
    + destruct (errorType_eqb k' ty) eqn:E'; [| exact IH].
      destruct (errorType_eqb k ty) eqn:E''; [| reflexivity].
      apply errorType_eqb_eq in E', E''. subst.
      rewrite (proj2 (errorType_eqb_eq ty ty) eq_refl) in E. discriminate E.
Qed.

Lemma pushInto_keyIn (k : ErrorType) (i : Issue) (o : list (ErrorType * list Issue))
    (ty : ErrorType) :
  keyIn ty (pushInto k i o) = errorType_eqb k ty || keyIn ty o.
Proof.
  unfold keyIn. induction o as [| [k' g] o IH]; cbn [pushInto existsb fst].
  - reflexivity.
  - destruct (errorType_eqb k' k) eqn:E; cbn [existsb fst].
    + rewrite <- (@errorType_eqb_trans _ _ ty E).
      destruct (errorType_eqb k' ty); reflexivity.
    + rewrite IH. destruct (errorType_eqb k' ty), (errorType_eqb k ty); reflexivity.
Qed.

Lemma pushInto_keys (k : ErrorType) (i : Issue) (o : list (ErrorType * list Issue)) :
  NoDup (map fst o) -> NoDup (map fst (pushInto k i o)).
Proof.
  induction o as [| [k' g] o IH]; cbn [pushInto map fst]; intro N.
  - constructor; [intros [] | constructor].
  - destruct (errorType_eqb k' k) eqn:E; cbn [map fst]; [exact N |].
    apply NoDup_cons_iff in N as [N1 N2]. constructor; [| apply IH; exact N2].
    intro I. apply in_map_iff in I as [[k1 g1] [E1 I1]]. cbn in E1. subst k1.
    assert (K : keyIn k' (pushInto k i o) = true).
    { unfold keyIn. apply existsb_exists. exists (k', g1). split; [exact I1 |].
      apply errorType_eqb_eq. reflexivity. }
    rewrite pushInto_keyIn in K. apply orb_true_iff in K as [K | K].
    + apply errorType_eqb_eq in K. subst.
      rewrite (proj2 (errorType_eqb_eq k' k') eq_refl) in E. discriminate E.
    + apply N1. unfold keyIn in K. apply existsb_exists in K as [[k2 g2] [I2 E2]].
      apply errorType_eqb_eq in E2. cbn in E2. subst.
      apply in_map_iff. exists (k', g2). split; [reflexivity | exact I2].
Qed.

Lemma pushInto_total (k : ErrorType) (i : Issue) (o : list (ErrorType * list Issue)) :
  total (map (fun g : ErrorType * list Issue => List.length (snd g)) (pushInto k i o))
  = S (total (map (fun g : ErrorType * list Issue => List.length (snd g)) o)).
Proof.
  induction o as [| [k' g] o IH]; cbn [pushInto]; [reflexivity |].
  destruct (errorType_eqb k' k); cbn [map total fold_right snd].
  - rewrite length_app. cbn [List.length]. lia.
  - fold (total (map (fun g : ErrorType * list Issue => List.length (snd g))
                     (pushInto k i o))).
    rewrite IH.
    fold (total (map (fun g : ErrorType * list Issue => List.length (snd g)) o)). lia.
Qed.

(** The grouping loop. *)
Lemma grouping (l : list Issue) :
  forall o : list (ErrorType * list Issue),
  NoDup (map fst o) ->
  let o' := fold_left (fun o issue => pushInto (Detector.type issue) issue o) l o in
  NoDup (map fst o')
  /\ (forall ty, groupOf ty o' = (groupOf ty o ++ filter (hasType ty) l)%list)
  /\ (forall ty, keyIn ty o' = keyIn ty o || existsb (hasType ty) l)
  /\ total (map (fun g : ErrorType * list Issue => List.length (snd g)) o')
     = total (map (fun g : ErrorType * list Issue => List.length (snd g)) o)
       + List.length l.
Proof.
  induction l as [| i l IH]; intros o N; cbn [fold_left filter existsb List.length].
  - cbv zeta. split; [exact N |]. split; [intro; rewrite app_nil_r; reflexivity |].
    split; [intro; rewrite orb_false_r; reflexivity | lia].
  - specialize (IH (pushInto (Detector.type i) i o) (@pushInto_keys _ i o N)).
    cbv zeta in IH |- *. destruct IH as [N' [G [K T]]].
    split; [exact N' |]. split; [| split].
    + intro ty. rewrite G, pushInto_groupOf. unfold hasType at 2.
      destruct (errorType_eqb (Detector.type i) ty);
        [rewrite <- app_assoc; reflexivity | reflexivity].
    + intro ty. rewrite K, pushInto_keyIn. unfold hasType at 2.
      rewrite orb_assoc, (orb_comm (errorType_eqb (Detector.type i) ty)). reflexivity.
    + rewrite T, pushInto_total. lia.
Qed.

Lemma group_of_member (o : list (ErrorType * list Issue)) (ty : ErrorType) (g : list Issue) :
  NoDup (map fst o) -> In (ty, g) o -> groupOf ty o = g.
Proof.
  unfold groupOf. induction o as [| [k g'] o IH]; intros N I; [destruct I |].
  apply NoDup_cons_iff in N as [N1 N2]. cbn [find fst snd].
  destruct I as [E | I].
  - injection E as -> ->. rewrite (proj2 (errorType_eqb_eq ty ty) eq_refl). reflexivity.
  - destruct (errorType_eqb k ty) eqn:E; [| apply IH; assumption].
    apply errorType_eqb_eq in E. subst. exfalso. apply N1.
    apply in_map_iff. exists (ty, g). split; [reflexivity | exact I].
Qed.

Lemma member_of_key (o : list (ErrorType * list Issue)) (ty : ErrorType) :
  keyIn ty o = true -> In (ty, groupOf ty o) o.
Proof.
  unfold keyIn, groupOf. induction o as [| [k g'] o IH]; cbn [existsb find fst snd];
    [discriminate |].
  destruct (errorType_eqb k ty) eqn:E; cbn [orb snd].
  - intros _. apply errorType_eqb_eq in E. subst. left. reflexivity.
  - intro K. right. apply IH. exact K.
Qed.

Lemma key_of_member (o : list (ErrorType * list Issue)) (ty : ErrorType) (g : list Issue) :
  In (ty, g) o -> keyIn ty o = true.
Proof.
  intro I. unfold keyIn. apply existsb_exists. exists (ty, g). split; [exact I |].
  apply errorType_eqb_eq. reflexivity.
Qed.

(** The groups are the issues of each type that occurs, in their order. *)
Lemma issuesByType_member (l : list Issue) (ty : ErrorType) (g : list Issue) :
  In (ty, g) (issuesByType l) <->
  existsb (hasType ty) l = true /\ g = filter (hasType ty) l.
Proof.
  unfold issuesByType.
  destruct (@grouping l [] (NoDup_nil _)) as [N [G [K _]]]. cbv zeta in N, G, K.
  assert (G' : forall t,
             groupOf t (fold_left (fun o issue => pushInto (Detector.type issue) issue o) l [])
             = filter (hasType t) l) by (intro t; rewrite G; reflexivity).
  assert (K' : forall t,
             keyIn t (fold_left (fun o issue => pushInto (Detector.type issue) issue o) l [])
             = existsb (hasType t) l) by (intro t; rewrite K; reflexivity).
  split.
  - intro I. split.
    + rewrite <- (K' ty). apply (@key_of_member _ _ _ I).
    + rewrite <- (@group_of_member _ _ _ N I). apply G'.
  - intros [E ->]. rewrite <- G'. apply member_of_key. rewrite K'. exact E.
Qed.

Lemma head_of_filter {B : Type} (p : Issue -> bool) (l : list Issue) (F : Issue -> B) (d : B) :
  match filter p l with x :: _ => F x | [] => d end
  = match find p l with Some x => F x | None => d end.
Proof.
  induction l as [| i l IH]; cbn [filter find]; [reflexivity |].
  destruct (p i); [reflexivity | exact IH].
Qed.

Lemma find_app {B : Type} (p : B -> bool) (l1 l2 : list B) :
  find p (l1 ++ l2) = match find p l1 with Some x => Some x | None => find p l2 end.
Proof.
  induction l1 as [| x l1 IH]; cbn [app find]; [reflexivity |].
  destruct (p x); [reflexivity | exact IH].
Qed.

Lemma byPriority_total (a b : Advice) : byPriority a b = false -> byPriority b a = true.
Proof. unfold byPriority. intro H. apply Z.leb_gt in H. apply Z.leb_le. lia. Qed.

Lemma byPriority_trans (a b c : Advice) :
  byPriority a b = true -> byPriority b c = true -> byPriority a c = true.
Proof.
  unfold byPriority. intros H1 H2. apply Z.leb_le in H1, H2. apply Z.leb_le. lia.
Qed.

Lemma report_issues (dnsRecords : RecordSet) (domain : string) :
  reportIssues (analyzeConfiguration dnsRecords domain)
  = (filter isCritical (allIssues dnsRecords domain)
     ++ filter isWarning (allIssues dnsRecords domain)
     ++ filter isInfo (allIssues dnsRecords domain))%list.
Proof.
  unfold reportIssues, analyzeConfiguration. cbv zeta. cbn [errors warnings info].
  destruct (categorize_fold (allIssues dnsRecords domain)
              {| Detector.domain := domain; errors := []; warnings := []; info := [];
                 summary := {| Summary.totalIssues := 0; Summary.criticalErrors := 0;
                               Summary.warnings := 0; Summary.infoItems := 0 |} |})
    as [E [W [I _]]].
  cbv zeta in E, W, I. rewrite E, W, I. reflexivity.
Qed.

End GroupFacts.

(** X19. [generateRecommendations] gives exactly one recommendation for
    each issue type that occurs in the report, built from the issues of
    that type in report order, and no two for the same type; the
    [affectedCount]s add up to the number of
    issues; the list is in order of priority, high before medium before
    low; and the priority of a recommendation is that of the severity of
    the first issue of its type in the report.  For a report of
    [analyzeConfiguration], where the critical issues come first, a
    recommendation is therefore [high] exactly when some issue of its type
    is critical. *)
Theorem generateRecommendations_spec (r : Detector.AnalysisReport) :
  (forall a, In a (Detector.generateRecommendations r) <->
     exists ty, existsb (Spec.hasType ty) (Spec.reportIssues r) = true
       /\ a = Detector.adviceFor (ty, filter (Spec.hasType ty) (Spec.reportIssues r)))
  /\ NoDup (map Detector.category (Detector.generateRecommendations r))
  /\ Spec.total (map Detector.affectedCount (Detector.generateRecommendations r))
     = List.length (Spec.reportIssues r)
  /\ Spec.sortedBy Spec.byPriority (Detector.generateRecommendations r)
  /\ (forall a, In a (Detector.generateRecommendations r) ->
        Detector.priority a
        = match find (Spec.hasType (Detector.category a)) (Spec.reportIssues r) with
          | Some i => Spec.priorityOf (Detector.severity i)
          | None => Detector.medium
          end)
  /\ (forall dnsRecords domain,
        r = Detector.analyzeConfiguration dnsRecords domain ->
        forall a, In a (Detector.generateRecommendations r) ->
          (Detector.priority a = Detector.high <->
           exists i, In i (Detector.allIssues dnsRecords domain)
                     /\ Detector.type i = Detector.category a
                     /\ Detector.severity i = Detector.CRITICAL)).
Proof.
  assert (M : forall a, In a (Detector.generateRecommendations r) <->
     exists ty, existsb (Spec.hasType ty) (Spec.reportIssues r) = true
       /\ a = Detector.adviceFor (ty, filter (Spec.hasType ty) (Spec.reportIssues r))).
  { intro a. unfold Detector.generateRecommendations. cbv zeta.
    fold (Spec.reportIssues r). fold Spec.byPriority.
    rewrite sortBy_member, in_map_iff. split.
    - intros [[ty g] [E I]]. apply issuesByType_member in I as [X ->].
      exists ty. split; [exact X | symmetry; exact E].
    - intros [ty [X ->]]. exists (ty, filter (Spec.hasType ty) (Spec.reportIssues r)).
      split; [reflexivity |]. apply issuesByType_member. split; [exact X | reflexivity]. }
  assert (P : forall a, In a (Detector.generateRecommendations r) ->
        Detector.priority a
        = match find (Spec.hasType (Detector.category a)) (Spec.reportIssues r) with
          | Some i => Spec.priorityOf (Detector.severity i)
          | None => Detector.medium
          end).
  { intros a I. apply M in I as [ty [_ ->]].
    cbn [Detector.adviceFor Detector.priority Detector.category].
    rewrite <- (head_of_filter (Spec.hasType ty) (Spec.reportIssues r)
                  (fun i => Spec.priorityOf (Detector.severity i)) Detector.medium).
    destruct (filter (Spec.hasType ty) (Spec.reportIssues r)) as [| i rest];
      [reflexivity |].
    destruct (Detector.severity i); reflexivity. }
  split; [exact M |]. split; [| split; [| split; [| split; [exact P |]]]].
  - unfold Detector.generateRecommendations. cbv zeta. fold (Spec.reportIssues r).
    apply sortBy_NoDup. rewrite map_map.
    destruct (@grouping (Spec.reportIssues r) [] (NoDup_nil _)) as [N _].
    cbv zeta in N. fold (Detector.issuesByType (Spec.reportIssues r)) in N.
    replace (map (fun x => Detector.category (Detector.adviceFor x))
                 (Detector.issuesByType (Spec.reportIssues r)))
      with (map fst (Detector.issuesByType (Spec.reportIssues r))); [exact N |].
    apply map_ext. intros [ty g]. reflexivity.
  - unfold Detector.generateRecommendations. cbv zeta. fold (Spec.reportIssues r).
    rewrite sortBy_total, map_map.
    destruct (@grouping (Spec.reportIssues r) [] (NoDup_nil _)) as [_ [_ [_ T]]].
    cbv zeta in T. cbn [map Spec.total fold_right Nat.add] in T.
    fold (Detector.issuesByType (Spec.reportIssues r)) in T. rewrite <- T.
    f_equal. apply map_ext. intros [ty g]. reflexivity.
  - unfold Detector.generateRecommendations. cbv zeta. fold Spec.byPriority.
    apply sortBy_sorted; [apply byPriority_total | apply byPriority_trans].
  - intros dnsRecords domain -> a I. rewrite (P a I), report_issues.
    set (L := Detector.allIssues dnsRecords domain).
    set (ty := Detector.category a).
    rewrite find_app. split.
    + intro H.
      assert (F : exists i, In i (filter Spec.isCritical L ++ filter Spec.isWarning L
                                  ++ filter Spec.isInfo L)%list
                            /\ Spec.hasType ty i = true
                            /\ Detector.severity i = Detector.CRITICAL).
      { destruct (find (Spec.hasType ty) (filter Spec.isCritical L)) as [i |] eqn:F1.
        - apply find_some in F1 as [I1 T1]. exists i.
          split; [apply in_or_app; left; exact I1 |]. split; [exact T1 |].
          destruct (Detector.severity i); (reflexivity || discriminate H).
        - destruct (find (Spec.hasType ty)
                         (filter Spec.isWarning L ++ filter Spec.isInfo L)%list)
            as [i |] eqn:F2; [| discriminate H].
          apply find_some in F2 as [I2 T2]. exists i.
          split; [apply in_or_app; right; exact I2 |]. split; [exact T2 |].
          destruct (Detector.severity i); (reflexivity || discriminate H). }
      destruct F as [i [Ii [Ti Si]]]. exists i.
      split; [| split; [apply errorType_eqb_eq; exact Ti | exact Si]].
      apply in_app_or in Ii as [Ii | Ii]; [apply filter_In in Ii; tauto |].
      apply in_app_or in Ii as [Ii | Ii]; apply filter_In in Ii; tauto.
    + intros [i [Ii [Ti Si]]].
      destruct (find (Spec.hasType ty) (filter Spec.isCritical L)) as [j |] eqn:F1.
      * apply find_some in F1 as [I1 _]. apply filter_In in I1 as [_ C].
        unfold Spec.isCritical in C. destruct (Detector.severity j);
          (reflexivity || discriminate C).
      * exfalso.
        assert (X : Spec.hasType ty i = false).
        { apply (@find_none _ _ _ F1 i). apply filter_In. split; [exact Ii |].
          unfold Spec.isCritical. rewrite Si. reflexivity. }
        unfold Spec.hasType in X.
        rewrite (proj2 (errorType_eqb_eq (Detector.type i) ty) Ti) in X. discriminate X.
Qed.

Lemma generateRecommendations_spec_witness :
  exists i, In i (Detector.allIssues Spec.onlyA "example.com")
            /\ Detector.type i = Detector.MISSING_RECORD
            /\ Detector.severity i = Detector.CRITICAL.
Proof.
  refine (proj1 (proj2 (proj2 (proj2 (proj2 (proj2 (@generateRecommendations_spec
            (Detector.analyzeConfiguration Spec.onlyA "example.com"))))))
            Spec.onlyA "example.com" eq_refl
            (Detector.adviceFor
               (Detector.MISSING_RECORD,
                filter (Spec.hasType Detector.MISSING_RECORD)
                       (Spec.reportIssues
                          (Detector.analyzeConfiguration Spec.onlyA "example.com")))) _) _).
  - vm_compute. left. reflexivity.
  - vm_compute. reflexivity.
Defined.

(** ** The page controller *)

Section StatsFacts.
Import JS Engine Spec.

Lemma counts_fold (classes : list UI.RecordClass) :
  forall s f e : nat,
  fold_left
    (fun (counts : nat * nat * nat) (c : UI.RecordClass) =>
       let '(successes, failures, empties) := counts in
       match c with
       | UI.Failed => (successes, S failures, empties)
       | UI.Succeeded => (S successes, failures, empties)
       | UI.Empty => (successes, failures, S empties)
       end)
    classes (s, f, e)
  = (s + countOf UI.Succeeded classes, f + countOf UI.Failed classes,
     e + countOf UI.Empty classes).
Proof.
  unfold countOf.
  induction classes as [| c classes IH]; intros s f e; cbn [fold_left filter List.length].
  - rewrite !Nat.add_0_r. reflexivity.
  - destruct c; cbv beta iota; rewrite IH; cbn [isClass List.length Nat.add];
      rewrite ?Nat.add_succ_r; reflexivity.
Qed.

Lemma countOf_app (c : UI.RecordClass) (a b : list UI.RecordClass) :
  countOf c (a ++ b) = countOf c a + countOf c b.
Proof. unfold countOf. rewrite filter_app, length_app. reflexivity. Qed.

Lemma countOf_sum (l : list UI.RecordClass) :
  countOf UI.Succeeded l + countOf UI.Failed l + countOf UI.Empty l = List.length l.
Proof.
  unfold countOf. induction l as [| c l IH]; [reflexivity |].
  destruct c; cbn [filter isClass List.length]; lia.
Qed.

End StatsFacts.

(** X20. The three counts of [analyzeRecordStats] add up to [totalCount].
    The keys counted are the record types stored and, on a set served
    from the cache, the [fromCache] flag, which is counted as an empty
    record type: for the set that [queryAllRecords] returns from the
    network [totalCount] is 9, and for the same set served from the cache
    it is 10, with one more empty type and [hasAnyEmpty] true. *)
Theorem analyzeRecordStats_counts (dnsData : Engine.RecordSet) :
  let st := UI.analyzeRecordStats dnsData in
  UI.successCount st + UI.failureCount st + UI.emptyCount st = UI.totalCount st
  /\ UI.successCount st = Spec.countOf UI.Succeeded (Spec.classesOf dnsData)
  /\ UI.failureCount st = Spec.countOf UI.Failed (Spec.classesOf dnsData)
  /\ UI.emptyCount st
     = Spec.countOf UI.Empty (Spec.classesOf dnsData)
       + (if Engine.fromCache dnsData then 1 else 0)
  /\ UI.totalCount st
     = List.length (Engine.entries dnsData) + (if Engine.fromCache dnsData then 1 else 0)
  /\ (Engine.fromCache dnsData = true -> UI.hasAnyEmpty st = true)
  /\ (forall cfg net s s1 domain preferredProvider now now1 now2,
        Engine.queryAllRecords cfg net s domain preferredProvider now now1 now2
        = (s1, Engine.Return dnsData) ->
        Engine.fromCache dnsData = false ->
        UI.totalCount st = 9
        /\ UI.totalCount (UI.analyzeRecordStats (Spec.served dnsData)) = 10
        /\ UI.emptyCount (UI.analyzeRecordStats (Spec.served dnsData))
           = S (UI.emptyCount st)).
Proof.
  assert (G : forall d : Engine.RecordSet,
             UI.analyzeRecordStats d
             = let classes := (Spec.classesOf d
                               ++ (if Engine.fromCache d then [UI.Empty] else []))%list in
               {| UI.successCount := Spec.countOf UI.Succeeded classes;
                  UI.failureCount := Spec.countOf UI.Failed classes;
                  UI.emptyCount := Spec.countOf UI.Empty classes;
                  UI.totalCount := List.length classes;
                  UI.hasAnySuccess := (0 <? Spec.countOf UI.Succeeded classes)%nat;
                  UI.hasAnyFailures := (0 <? Spec.countOf UI.Failed classes)%nat;
                  UI.hasAnyEmpty := (0 <? Spec.countOf UI.Empty classes)%nat |}).
  { intro d. unfold UI.analyzeRecordStats. cbv zeta. fold (Spec.classesOf d).
    rewrite counts_fold. reflexivity. }
  assert (E : forall d : Engine.RecordSet,
             UI.emptyCount (UI.analyzeRecordStats d)
             = Spec.countOf UI.Empty (Spec.classesOf d)
               + (if Engine.fromCache d then 1 else 0)).
  { intro d. rewrite G. cbv zeta. cbn [UI.emptyCount]. rewrite countOf_app.
    destruct (Engine.fromCache d); reflexivity. }
  assert (T : forall d : Engine.RecordSet,
             UI.totalCount (UI.analyzeRecordStats d)
             = List.length (Engine.entries d) + (if Engine.fromCache d then 1 else 0)).
  { intro d. rewrite G. cbv zeta. cbn [UI.totalCount]. rewrite length_app.
    unfold Spec.classesOf. rewrite length_map.
    destruct (Engine.fromCache d); reflexivity. }
  cbv zeta. split; [| split; [| split; [| split; [apply E | split; [apply T | split]]]]].
  - rewrite G. cbv zeta.
    cbn [UI.successCount UI.failureCount UI.emptyCount UI.totalCount].
    apply countOf_sum.
  - rewrite G. cbv zeta. cbn [UI.successCount]. rewrite countOf_app.
    destruct (Engine.fromCache dnsData); cbn; lia.
  - rewrite G. cbv zeta. cbn [UI.failureCount]. rewrite countOf_app.
    destruct (Engine.fromCache dnsData); cbn; lia.
  - intro F. rewrite G. cbv zeta. cbn [UI.hasAnyEmpty]. rewrite countOf_app, F.
    apply Nat.ltb_lt. cbn. lia.
  - intros cfg net s s1 domain preferredProvider now now1 now2 Q F.
    destruct (@queryAllRecords_fresh cfg net domain preferredProvider s s1 now now1 now2
                dnsData Q F) as [_ [R _]].
    rewrite !T, !E. unfold Spec.served, Spec.classesOf. cbn [Engine.entries Engine.fromCache].
    rewrite F. rewrite R. cbn [Engine.entries]. rewrite length_map.
    repeat split; cbn; lia.
Qed.

Lemma analyzeRecordStats_counts_witness :
  UI.hasAnyEmpty
    (UI.analyzeRecordStats
       (Spec.served
          (Spec.recordSet
             [Spec.answer "example.com" "A"
                [Spec.record "example.com" "A" 3600 "192.0.2.1"]])))
  = true.
Proof.
  apply (proj1 (proj2 (proj2 (proj2 (proj2 (proj2 (@analyzeRecordStats_counts
           (Spec.served
              (Spec.recordSet
                 [Spec.answer "example.com" "A"
                    [Spec.record "example.com" "A" 3600 "192.0.2.1"]]))))))))).
  reflexivity.
Defined.

(** X21. The retry of [performDNSAnalysisWithRetry] after a first result
    without records is answered from the cache: when the first
    [queryAllRecords] call returned from the network a set in which no
    type has records, and the second call reads the clock no later than
    30 s after the first one stored the set, the function makes two calls
    and returns the same entries tagged [fromCache], whatever the network
    does by then. *)
Theorem performDNSAnalysisWithRetry_retry_is_cached
    (cfg : Engine.Config) (net1 net2 : Engine.Network) (s s1 : Engine.State)
    (domain : string) (c1 c2 : UI.Clock) (dnsData : Engine.RecordSet) :
  Engine.queryAllRecords cfg net1 s domain "cloudflare"
    (UI.at_get c1) (UI.at_set c1) (UI.at_set' c1) = (s1, Engine.Return dnsData) ->
  Engine.fromCache dnsData = false ->
  UI.hasAnyResults dnsData = false ->
  (UI.at_get c2 <= UI.at_set c1 + 30000)%Z ->
  UI.performDNSAnalysisWithRetry cfg net1 net2 s domain c1 c2
  = ({| Engine.cache := Engine.cache s1;
        Engine.cacheStats :=
          {| Engine.hits := S (Engine.hits (Engine.cacheStats s1));
             Engine.misses := Engine.misses (Engine.cacheStats s1) |} |},
     2, Engine.Return (Spec.served dnsData))
  /\ UI.hasAnyResults (Spec.served dnsData) = false.
Proof.
  intros Q F H T. split; [| exact H].
  unfold UI.performDNSAnalysisWithRetry. rewrite Q, H.
  destruct (@queryAllRecords_fresh cfg net1 domain "cloudflare" s s1
              (UI.at_get c1) (UI.at_set c1) (UI.at_set' c1) dnsData Q F) as [V _].
  rewrite (@queryAllRecords_again cfg cfg net1 net2 s s1 domain domain
             "cloudflare" "cloudflare"
             (UI.at_get c1) (UI.at_set c1) (UI.at_set' c1)
             (UI.at_get c2) (UI.at_set c2) (UI.at_set' c2) dnsData Q F eq_refl V T).
  reflexivity.
Qed.

Lemma performDNSAnalysisWithRetry_retry_is_cached_witness :
  snd (UI.performDNSAnalysisWithRetry Engine.defaultConfig Spec.netEmpty Spec.netUp
         Spec.emptyState "example.com"
         {| UI.at_get := 0; UI.at_set := 10; UI.at_set' := 10 |}
         {| UI.at_get := 1010; UI.at_set := 1020; UI.at_set' := 1020 |})
  = Engine.Return
      (Spec.served
         (Spec.recordSet
            (map (fun rt => (rt, Spec.outcome Engine.defaultConfig Spec.netEmpty
                                   "example.com" "cloudflare" rt))
                 Spec.supportedTypes))).
Proof.
  refine (f_equal snd (proj1 (@performDNSAnalysisWithRetry_retry_is_cached
             Engine.defaultConfig Spec.netEmpty Spec.netUp Spec.emptyState
             (fst (Engine.queryAllRecords Engine.defaultConfig Spec.netEmpty Spec.emptyState
                     "example.com" "cloudflare" 0 10 10))
             "example.com"
             {| UI.at_get := 0; UI.at_set := 10; UI.at_set' := 10 |}
             {| UI.at_get := 1010; UI.at_set := 1020; UI.at_set' := 1020 |}
             (Spec.recordSet
                (map (fun rt => (rt, Spec.outcome Engine.defaultConfig Spec.netEmpty
                                       "example.com" "cloudflare" rt))
                     Spec.supportedTypes))
             _ _ _ _))).
  - vm_compute. reflexivity.
  - reflexivity.
  - vm_compute. reflexivity.
  - vm_compute. discriminate.
Defined.

(** ** The engine over a session *)

Section SessionFacts.
Import JS Engine Spec.

Lemma Forall_assign {A : Type} (P : string * A -> Prop) (k : string) (v : A)
    (c : list (string * A)) :
  Forall P c -> P (k, v) -> Forall P (assign k v c).
Proof.
  intros F Pk. induction c as [| [k' v'] c IH]; cbn [assign].
  - constructor; [exact Pk | constructor].
  - inversion F; subst. destruct (String.eqb k' k); constructor; auto.
Qed.

Lemma Forall_remove {A : Type} (P : string * A -> Prop) (k : string)
    (c : list (string * A)) :
  Forall P c -> Forall P (remove k c).
Proof.
  intro F. induction c as [| [k' v'] c IH]; cbn [remove]; [constructor |].
  inversion F; subst. destruct (String.eqb k' k); [assumption | constructor; auto].
Qed.

Lemma getFromCache_keeps (P : string * CacheEntry -> Prop) (k : string) (now : Z)
    (c : Cache) :
  Forall P c -> Forall P (snd (getFromCache k now c)).
Proof.
  intro F. unfold getFromCache. destruct (lookup k c) as [e |]; [| exact F].
  destruct (expiresAt e <? now)%Z; [apply Forall_remove |]; exact F.
Qed.

Lemma setCache_keeps (P : string * CacheEntry -> Prop) (k : string) (v : RecordSet)
    (ttl : option Z) (now now' : Z) (c : Cache) :
  Forall P c ->
  (forall e, entry_data e = v -> P (k, e)) ->
  Forall P (setCache k v ttl now now' c).
Proof.
  intros F Pv. unfold setCache. apply Forall_assign; [| apply Pv; reflexivity].
  destruct (maxCacheSize <=? List.length c)%nat; [| exact F].
  destruct c as [| [k0 e0] rest]; [exact F | apply Forall_remove; exact F].
Qed.

Lemma getFromCache_hit_entry (k : string) (now : Z) (c : Cache) (v : RecordSet) :
  fst (getFromCache k now c) = Some v ->
  exists e, In (k, e) c /\ entry_data e = v.
Proof.
  unfold getFromCache. destruct (lookup k c) as [e |] eqn:L; [| discriminate].
  destruct (expiresAt e <? now)%Z; [discriminate |]. cbn [fst]. intro H.
  injection H as <-. exists e. split; [| reflexivity].
  clear - L. induction c as [| [k' e'] c IH]; [discriminate L |].
  cbn [lookup] in L. destruct (String.eqb_spec k' k) as [-> | N].
  - injection L as ->. left. reflexivity.
  - right. apply IH. exact L.
Qed.

Variables (cfg : Config) (net : Network) (domain preferredProvider : string).

(** The state that a call for a valid domain leaves. *)
Lemma queryAllRecords_state (s : State) (now now1 now2 : Z) :
  validateDomain domain = true ->
  fst (queryAllRecords cfg net s domain preferredProvider now now1 now2)
  = match getFromCache (toLowerCase domain ++ ":ALL") now (cache s) with
    | (Some _, c) =>
        {| cache := c;
           cacheStats := {| hits := S (hits (cacheStats s));
                            misses := misses (cacheStats s) |} |}
    | (None, c) =>
        {| cache :=
             if existsb (fun rt => negb (queryRaises cfg net domain preferredProvider rt))
                        supportedTypes
             then setCache (toLowerCase domain ++ ":ALL")
                    {| entries :=
                         map (fun rt => (rt, outcome cfg net domain preferredProvider rt))
                             supportedTypes;
                       fromCache := false |} None now1 now2 c
             else c;
           cacheStats := {| hits := hits (cacheStats s);
                            misses := S (misses (cacheStats s)) |} |}
    end.
Proof.
  intro V.
  destruct (getFromCache (toLowerCase domain ++ ":ALL") now (cache s))
    as [[cached |] c] eqn:G.
  - unfold queryAllRecords. rewrite V, G. reflexivity.
  - destruct (existsb (fun rt => negb (queryRaises cfg net domain preferredProvider rt))
                      supportedTypes) eqn:A.
    + rewrite (@queryAllRecords_miss_state cfg net domain preferredProvider s now now1 now2
                 c V G A). reflexivity.
    + unfold queryAllRecords. rewrite V, G.
      change (negb true) with false. cbv iota.
      rewrite batches_gathered.
      change (concat (batchesOf 3 (map fst recordTypes))) with supportedTypes.
      unfold gathered. cbn [results hasAnySuccess totalFailures].
      change (false || existsb (fun rt => negb (queryRaises cfg net domain preferredProvider rt))
                               supportedTypes)
        with (existsb (fun rt => negb (queryRaises cfg net domain preferredProvider rt))
                      supportedTypes).
      rewrite A.
      destruct (negb false && _); reflexivity.
Qed.

End SessionFacts.

Section SessionInvariant.
Import JS Engine Spec.

Lemma runs_invariant (n : nat) (s : State) :
  runs n s ->
  hits (cacheStats s) + misses (cacheStats s) = n
  /\ reachable (cache s)
  /\ Forall wholeEntry (cache s).
Proof.
  induction 1 as [| n s cfg net domain preferredProvider now now1 now2 R [C [Rc W]]
                  | n s R _].
  - split; [reflexivity |]. split; constructor.
  - destruct (validateDomain domain) eqn:V.
    2: { unfold queryAllRecords. rewrite V. cbn [negb fst]. repeat split; assumption. }
    rewrite (@queryAllRecords_state cfg net domain preferredProvider s now now1 now2 V).
    pose proof (reachable_get (toLowerCase domain ++ ":ALL") now Rc) as Rg.
    pose proof (@getFromCache_keeps wholeEntry (toLowerCase domain ++ ":ALL") now _ W) as Wg.
    destruct (getFromCache (toLowerCase domain ++ ":ALL") now (cache s)) as [[cached |] c];
      cbn [snd] in Rg, Wg; cbn [cache cacheStats hits misses].
    + split; [lia |]. split; assumption.
    + split; [lia |].
      destruct (existsb (fun rt => negb (queryRaises cfg net domain preferredProvider rt))
                        supportedTypes); [| split; assumption].
      split; [constructor; exact Rg |].
      apply setCache_keeps; [exact Wg |].
      intros e E. unfold wholeEntry. cbn [snd]. rewrite E. cbn [entries fromCache].
      rewrite map_map. cbn [fst]. rewrite map_id. split; reflexivity.
  - split; [reflexivity |]. split; constructor.
Qed.

End SessionInvariant.

(** X22. Over a whole session (any sequence of [queryAllRecords] and
    [clearCache] calls on a new engine, with any networks, clocks and
    arguments) the engine keeps its books: [hits + misses] is the number of
    [queryAllRecords] calls for a valid domain since the last
    [clearCache]; the cache never holds more than 50 entries nor a key
    twice; and whatever [queryAllRecords] then returns, from the network or
    from the cache, holds exactly one entry for each of the nine supported
    record types, in their order. *)
Theorem engine_session_invariant (n : nat) (s : Engine.State) :
  Spec.runs n s ->
  Engine.hits (Engine.cacheStats s) + Engine.misses (Engine.cacheStats s) = n
  /\ List.length (Engine.cache s) <= Engine.maxCacheSize
  /\ Spec.distinct (map fst (Engine.cache s)) = true
  /\ (forall cfg net domain preferredProvider now now1 now2 rs,
        snd (Engine.queryAllRecords cfg net s domain preferredProvider now now1 now2)
        = Engine.Return rs ->
        map fst (Engine.entries rs) = Spec.supportedTypes).
Proof.
  intro R. destruct (runs_invariant R) as [C [Rc W]].
  split; [exact C |]. split; [apply reachable_bounded; exact Rc |].
  split; [apply reachable_distinct; exact Rc |].
  intros cfg net domain preferredProvider now now1 now2 rs Q.
  destruct (Engine.validateDomain domain) eqn:V.
  2: { unfold Engine.queryAllRecords in Q. rewrite V in Q. discriminate Q. }
  destruct (fst (Engine.getFromCache (JS.toLowerCase domain ++ ":ALL") now (Engine.cache s)))
    as [cached |] eqn:G.
  - rewrite (@queryAllRecords_hit cfg net domain preferredProvider s now now1 now2 cached
               V G) in Q.
    injection Q as <-. cbn [Engine.entries].
    apply getFromCache_hit_entry in G as [e [I E]].
    rewrite Forall_forall in W. destruct (W _ I) as [K _]. cbn [snd] in K.
    rewrite E in K. exact K.
  - pose proof (@queryAllRecords_miss cfg net domain preferredProvider s now now1 now2
                  V G) as M.
    cbv zeta in M. rewrite Q in M.
    destruct (negb (existsb _ Spec.supportedTypes)); [discriminate M |].
    injection M as ->. reflexivity.
Qed.

Lemma engine_session_invariant_witness :
  Engine.hits (Engine.cacheStats
                 (fst (Engine.queryAllRecords Engine.defaultConfig Spec.netUp
                         Spec.emptyState "example.com" "cloudflare" 0 0 0)))
  + Engine.misses (Engine.cacheStats
                     (fst (Engine.queryAllRecords Engine.defaultConfig Spec.netUp
                             Spec.emptyState "example.com" "cloudflare" 0 0 0)))
  = 1.
Proof.
  refine (proj1 (@engine_session_invariant 1
            (fst (Engine.queryAllRecords Engine.defaultConfig Spec.netUp
                    Spec.emptyState "example.com" "cloudflare" 0 0 0)) _)).
  exact (Spec.runs_query Engine.defaultConfig Spec.netUp "example.com" "cloudflare"
           0 0 0 Spec.runs_new).
Defined.
